(** * BaileysMessageProcessor: a model of the message ingestion pipeline

    Source: [src/api/integrations/channel/whatsapp/baileysMessage.processor.ts].

    The class wires an RxJS [Subject] through
    [bufferTime -> filter -> tap -> mergeMap (from(batch) -> mergeMap (task, maxConcurrency))
     -> catchError] and subscribes to it.  The model below runs that chain on a
    virtual clock counted in milliseconds: [tick] moves the clock by one
    millisecond and fires every timer and promise callback that is due, the
    three public methods ([mount], [processMessage], [onDestroy]) act at the
    current instant.  What the chain does is recorded in a time-stamped trace
    (handler calls, log lines, batches entering the executor, task ends).

    Conventions of the clock:
    - a method called at instant [t] runs after the timers of [t] have fired,
      so a group submitted exactly at a flush goes to the next batch;
    - within one instant the groups in flight are served first, in the order
      they were started, then the timer of [bufferTime];
    - a promise settling exactly at its deadline beats the timer of
      [timeout];
    - timers are those of Node: a delay of zero, or of more than
      [2^31 - 1] milliseconds, is a delay of one millisecond ([timer]). *)

From stdpp Require Import base list strings gmap.
From Stdlib Require Import NArith Lia.

Local Open Scope N_scope.

(** ** Data model *)

(** [MessageUpsertType] of baileys. *)
Inductive MessageUpsertType := notify | append.

(** [BaileysEventMap['messages.upsert']]; a [proto.IWebMessageInfo] is kept
    opaque and identified by a string. *)
Record MessageUpsertPayload := {
  messages : list string;
  type : MessageUpsertType;
  requestId : option string;
}.

(** The value pushed into [messageSubject]:
    [{ messages, type, requestId, settings }]. *)
Record Group := {
  payload : MessageUpsertPayload;
  settings : string;
}.

(** The two values that have no properties. *)
Inductive Absent := null | undefined.

(** A thrown or rejected value.  The pipeline only ever reads [error.message]
    of it, which works for every value except [null] and [undefined]. *)
Inductive Thrown :=
  | ErrorWith (message : string)
  | Nullish (v : Absent).

(** The promise returned by one call of the handler, as seen from outside: it
    fulfils or rejects [d] milliseconds after the call, or stays pending. *)
Inductive Settlement :=
  | Resolves (d : N)
  | Rejects (d : N) (e : Thrown)
  | Pending.

(** One call of [onMessageReceive]: it returns a promise, or throws before
    returning one. *)
Inductive Invocation :=
  | Returns (p : Settlement)
  | Throws (e : Thrown).

Definition Handler := MessageUpsertPayload -> string -> Invocation.

(** Lines written through [processorLogs], one constructor per call site. *)
Inductive LogEntry :=
  | log_processing_batch (n : nat)   (* log: Processing batch of n message groups *)
  | warn_retrying (msg : string)     (* warn: Retrying message batch due to error: msg *)
  | error_failed_after_retries       (* error: Failed to process message batch after 3 retries *)
  | error_individual (msg : string)  (* error: Error processing individual message batch: msg *)
  | error_critical (msg : string)    (* error: Critical error in message stream: msg *)
  | error_stream (msg : string)      (* error: Message stream error: msg *)
  | log_completed                    (* log: Message stream completed *)
  | log_destroying.                  (* log: Destroying BaileysMessageProcessor *)

(** How the observable built for one group ends. *)
Inductive Outcome :=
  | Succeeded    (* the promise fulfilled: next(value), complete *)
  | Swallowed    (* inner catchError: next(null), complete *)
  | Exhausted.   (* the retry notifier completed: complete, nothing emitted *)

Inductive Event :=
  | Called (g : Group) (r : Invocation)   (* onMessageReceive was called *)
  | Logged (l : LogEntry)
  | Emitted (batch : list Group)          (* a buffer passed [filter] *)
  | TaskEnded (g : Group) (o : Outcome).

(** [TimeoutError.message] of RxJS. *)
Definition timeout_message : string := "Timeout has occurred".

(** Message of the [TypeError] raised by reading [.message] of a nullish
    value: it names the value. *)
Definition type_error_message (v : Absent) : string :=
  match v with
  | null => "Cannot read properties of null (reading 'message')"
  | undefined => "Cannot read properties of undefined (reading 'message')"
  end.

(** The delay a timer of Node really has: [setTimeout] and [setInterval],
    on which the schedulers of RxJS run, set a delay below 1 or above
    [2^31 - 1] milliseconds to 1 millisecond. *)
Definition timer (delay : N) : N :=
  if (delay <? 1) || (2147483647 <? delay) then 1 else delay.

(** ** One group: [from(promise) -> timeout -> retryWhen -> catchError] *)

(** [delay(1000)] and [take(3)] of the retry notifier; a delay of 1000 is
    one that [timer] leaves as it is. *)
Definition retry_delay : N := 1000.
Definition retry_take : N := 3.

Inductive Phase :=
  | Listening (since : N)   (* subscribed to the promise since that instant *)
  | Delaying (until : N).   (* an error sits in [delay] until that instant *)

(** The inner observable of one group.  [t_errors] counts the errors pushed
    into the notifier so far (the [seen] counter of [take] once the delay
    has elapsed). *)
Record Task := {
  t_group : Group;
  t_called : N;
  t_promise : Settlement;
  t_errors : N;
  t_phase : Phase;
}.

Definition with_phase (t : Task) (e : N) (ph : Phase) : Task :=
  {| t_group := t_group t; t_called := t_called t; t_promise := t_promise t;
     t_errors := e; t_phase := ph |}.

(** State of a promise at an instant: [None] while pending, otherwise the
    rejection value if any. *)
Definition settled (called : N) (p : Settlement) (now : N) : option (option Thrown) :=
  match p with
  | Resolves d => if called + d <=? now then Some None else None
  | Rejects d e => if called + d <=? now then Some (Some e) else None
  | Pending => None
  end.

Inductive Signal :=
  | Silent
  | Value
  | Failure (e : Thrown).

(** [from(promise).pipe(timeout(timeoutMs))] subscribed at [since], looked at
    at [now].  A promise that settles exactly at the deadline is delivered;
    otherwise [timeout] raises its [TimeoutError] when its timer fires, at
    [since + timer timeoutMs]. *)
Definition source_signal (timeoutMs : N) (t : Task) (since now : N) : Signal :=
  match settled (t_called t) (t_promise t) now with
  | Some None => Value
  | Some (Some e) => Failure e
  | None =>
      if since + timer timeoutMs <=? now then Failure (ErrorWith timeout_message)
      else Silent
  end.

(** [finalize] of the notifier: it runs when the notifier is torn down, and
    the notifier exists once a first error was pushed into it. *)
Definition finalize_log (t : Task) : list Event :=
  if 0 <? t_errors t then [Logged error_failed_after_retries] else [].

(** An error reaches [retryWhen]: [tap] logs the warning and [delay] holds the
    error for [retry_delay].  [tap] reads [error.message]: on a nullish value
    that read throws, the notifier fails, and the inner [catchError] logs and
    answers [of(null)]. *)
Definition on_source_error (now : N) (t : Task) (e : Thrown) : list Event * option Task :=
  match e with
  | ErrorWith m =>
      ([Logged (warn_retrying m)],
       Some (with_phase t (N.succ (t_errors t)) (Delaying (now + retry_delay))))
  | Nullish v =>
      ([Logged (error_individual (type_error_message v));
        TaskEnded (t_group t) Swallowed;
        Logged error_failed_after_retries], None)
  end.

Definition observe (timeoutMs now : N) (t : Task) (since : N) : list Event * option Task :=
  match source_signal timeoutMs t since now with
  | Silent => ([], Some t)
  | Value => (TaskEnded (t_group t) Succeeded :: finalize_log t, None)
  | Failure e => on_source_error now t e
  end.

(** Everything one group does at instant [now].  When the delay elapses,
    [take] forwards the error: below [retry_take] [retryWhen] subscribes to
    the same promise again; at [retry_take] [take] completes right after, and
    the whole observable completes without a value. *)
Definition task_fire (timeoutMs now : N) (t : Task) : list Event * option Task :=
  match t_phase t with
  | Listening since => observe timeoutMs now t since
  | Delaying until =>
      if until <=? now then
        if t_errors t <? retry_take then
          observe timeoutMs now (with_phase t (t_errors t) (Listening now)) now
        else
          ([TaskEnded (t_group t) Exhausted; Logged error_failed_after_retries], None)
      else ([], Some t)
  end.

(** ** The executor: [mergeMap(batch => from(batch).pipe(mergeMap(task, maxConcurrency)))] *)

(** Result of running a piece of the chain at one instant: what it did, the
    state it is left in, and the error it passed downstream, if any. *)
Record Step (A : Type) := {
  events : list Event;
  next : A;
  failed : option Thrown;
}.
Arguments events {A} _.
Arguments next {A} _.
Arguments failed {A} _.

(** The inner [mergeMap] of one batch: the groups being processed ([active]
    of RxJS holds their number) and the groups queued in its [buffer]. *)
Record Batch := {
  active : list Task;
  waiting : list Group;
}.

Section Executor.
Variable onMessageReceive : Handler.
Variables maxConcurrency timeoutMs : N.

(** [outerNext] and the refill loop of [mergeMap]: while a slot is free the
    next group is projected, which calls the handler.  A handler that
    throws makes [mergeMap] fail; a returned promise is subscribed to, and
    its callbacks already due run within the same instant. *)
Fixpoint start_waiting (now : N) (act : list Task) (buf : list Group) : Step Batch :=
  match buf with
  | [] => {| events := []; next := {| active := act; waiting := [] |}; failed := None |}
  | g :: buf' =>
      if N.of_nat (length act) <? maxConcurrency then
        match onMessageReceive (payload g) (settings g) with
        | Throws e =>
            {| events := [Called g (Throws e)];
               next := {| active := act; waiting := buf' |};
               failed := Some e |}
        | Returns p =>
            let t := {| t_group := g; t_called := now; t_promise := p;
                        t_errors := 0; t_phase := Listening now |} in
            let r := task_fire timeoutMs now t in
            let k := start_waiting now (act ++ option_list (snd r)) buf' in
            {| events := Called g (Returns p) :: fst r ++ events k;
               next := next k; failed := failed k |}
        end
      else {| events := []; next := {| active := act; waiting := buf |}; failed := None |}
  end.

(** Every group in flight handles what is due for it. *)
Fixpoint fire_all (now : N) (act : list Task) : list Event * list Task :=
  match act with
  | [] => ([], [])
  | t :: act' =>
      let r := task_fire timeoutMs now t in
      let k := fire_all now act' in
      (fst r ++ fst k, option_list (snd r) ++ snd k)
  end.

Definition batch_tick (now : N) (b : Batch) : Step Batch :=
  let r := fire_all now (active b) in
  let k := start_waiting now (snd r) (waiting b) in
  {| events := fst r ++ events k; next := next k; failed := failed k |}.

(** The inner [mergeMap] completes when nothing is in flight or queued. *)
Definition batch_done (b : Batch) : bool :=
  match active b, waiting b with
  | [], [] => true
  | _, _ => false
  end.

Definition keep_batch (b : Batch) : list Batch :=
  if batch_done b then [] else [b].

(** The outer [mergeMap] has no concurrency argument: every batch it was
    given runs side by side.  The first failure stops the round. *)
Fixpoint batches_tick (now : N) (bs : list Batch) : Step (list Batch) :=
  match bs with
  | [] => {| events := []; next := []; failed := None |}
  | b :: bs' =>
      let r := batch_tick now b in
      match failed r with
      | Some e => {| events := events r; next := next r :: bs'; failed := Some e |}
      | None =>
          let k := batches_tick now bs' in
          {| events := events r ++ events k;
             next := keep_batch (next r) ++ next k;
             failed := failed k |}
      end
  end.

(** A buffer leaves [bufferTime]: [filter] drops it when empty, [tap] logs
    it, the outer [mergeMap] starts it. *)
Definition emit_batch (now : N) (batch : list Group) : Step (list Batch) :=
  match batch with
  | [] => {| events := []; next := []; failed := None |}
  | _ :: _ =>
      let k := start_waiting now [] batch in
      {| events := Emitted batch :: Logged (log_processing_batch (length batch)) :: events k;
         next := keep_batch (next k);
         failed := failed k |}
  end.
End Executor.

(** [finalize] callbacks that run when the groups in flight are torn down. *)
Definition teardown_logs (bs : list Batch) : list Event :=
  flat_map (fun b => flat_map finalize_log (active b)) bs.

(** The outer [catchError] and the observer given to [subscribe].  The
    handler of [catchError] logs [error.message] and answers [EMPTY], so the
    stream completes; reading [.message] of a nullish error throws inside the
    handler and the error callback of the observer runs instead.  Either way
    the subscription is closed. *)
Definition stream_error (e : Thrown) (bs : list Batch) : list Event :=
  match e with
  | ErrorWith m => Logged (error_critical m) :: teardown_logs bs ++ [Logged log_completed]
  | Nullish v => Logged (error_stream (type_error_message v)) :: teardown_logs bs
  end.

(** ** One subscription made by [mount] *)

Record Pipeline := {
  sid : nat;                       (* which Subscription this is *)
  p_onMessageReceive : Handler;
  p_maxConcurrency : N;
  p_timeoutMs : N;
  p_batchTimeoutMs : N;
  window : list Group;             (* the open buffer of bufferTime *)
  flush_at : N;                    (* when the timer of bufferTime fires *)
  source_done : bool;              (* messageSubject completed under it *)
  batches : list Batch;            (* inner observables of the outer mergeMap *)
}.

Definition with_batches (p : Pipeline) (w : list Group) (f : N) (d : bool) (bs : list Batch) : Pipeline :=
  {| sid := sid p; p_onMessageReceive := p_onMessageReceive p;
     p_maxConcurrency := p_maxConcurrency p; p_timeoutMs := p_timeoutMs p;
     p_batchTimeoutMs := p_batchTimeoutMs p;
     window := w; flush_at := f; source_done := d; batches := bs |}.

(** The outer [mergeMap] completes once its source has completed and no batch
    is left; the observer logs the completion. *)
Definition settle (p : Pipeline) : list Event * option Pipeline :=
  if source_done p then
    match batches p with
    | [] => ([Logged log_completed], None)
    | _ :: _ => ([], Some p)
    end
  else ([], Some p).

(** The timer of [bufferTime]: hand the buffer over, open a new one, and
    schedule the next flush, a timer of [batchTimeoutMs] later. *)
Definition flush (now : N) (p : Pipeline) : list Event * option Pipeline :=
  if negb (source_done p) && (flush_at p <=? now) then
    let k := emit_batch (p_onMessageReceive p) (p_maxConcurrency p) (p_timeoutMs p) now (window p) in
    match failed k with
    | Some e => (events k ++ stream_error e (batches p ++ next k), None)
    | None =>
        (events k,
         Some (with_batches p [] (now + timer (p_batchTimeoutMs p)) false (batches p ++ next k)))
    end
  else settle p.

(** One instant of a subscription: the groups in flight first, then the
    timer of [bufferTime]. *)
Definition pipeline_tick (now : N) (p : Pipeline) : list Event * option Pipeline :=
  let r := batches_tick (p_onMessageReceive p) (p_maxConcurrency p) (p_timeoutMs p) now (batches p) in
  match failed r with
  | Some e => (events r ++ stream_error e (next r), None)
  | None =>
      let k := flush now (with_batches p (window p) (flush_at p) (source_done p) (next r)) in
      (events r ++ fst k, snd k)
  end.

(** [next] of the subject as [bufferTime] sees it: the value joins the open
    buffer ([maxBufferSize] is infinite, so nothing is emitted here). *)
Definition bufferTime_next (g : Group) (p : Pipeline) : Pipeline :=
  if source_done p then p
  else with_batches p (window p ++ [g]) (flush_at p) false (batches p).

(** [complete] of the subject as [bufferTime] sees it: the open buffer is
    handed over and the completion is passed on. *)
Definition bufferTime_complete (now : N) (p : Pipeline) : list Event * option Pipeline :=
  if source_done p then ([], Some p)
  else
    let k := emit_batch (p_onMessageReceive p) (p_maxConcurrency p) (p_timeoutMs p) now (window p) in
    match failed k with
    | Some e => (events k ++ stream_error e (batches p ++ next k), None)
    | None =>
        let r := settle (with_batches p [] (flush_at p) true (batches p ++ next k)) in
        (events k ++ fst r, snd r)
    end.

(** ** The class *)

(** How a method call ends for its caller. *)
Inductive Completion :=
  | Returned
  | Raised (e : Thrown).

(** The two flags of an RxJS [Subject].  [closed] is raised by
    [Subject.unsubscribe] only; [isStopped] by [complete]. *)
Record Subject := {
  closed : bool;
  isStopped : bool;
}.

(** [ObjectUnsubscribedError] of RxJS. *)
Definition object_unsubscribed : Thrown := ErrorWith "object unsubscribed".

(** An instance of the class on the virtual clock.  [pipelines] are the live
    subscriptions to [messageSubject]; [subscription] is the field of the
    class and names the one made by the last [mount]. *)
Record BaileysMessageProcessor := {
  clock : N;
  trace : list (N * Event);
  messageSubject : Subject;
  pipelines : list Pipeline;
  subscription : option nat;
  fresh_sid : nat;
}.

(** [new BaileysMessageProcessor()] at instant [now]. *)
Definition create (now : N) : BaileysMessageProcessor :=
  {| clock := now; trace := [];
     messageSubject := {| closed := false; isStopped := false |};
     pipelines := []; subscription := None; fresh_sid := 0 |}.

Definition stamp (now : N) (evs : list Event) : list (N * Event) :=
  map (pair now) evs.

(** The object given to [mount]: the handler and the numeric options found
    on it, by property name. *)
Record MountProps := {
  onMessageReceive : Handler;
  options : gmap string N;
}.

Definition mount (props : MountProps) (st : BaileysMessageProcessor)
  : Completion * BaileysMessageProcessor :=
  let maxConcurrency := default 5 (options props !! "maxConcurrency") in
  let timeoutMs := default 30000 (options props !! "timeoutMs") in
  let batchTimeoutMs := default 1000 (options props !! "batchTimeoutMs") in
  if closed (messageSubject st) then (Raised object_unsubscribed, st)
  else if isStopped (messageSubject st) then
    (* a completed subject completes its new subscriber at once *)
    (Returned,
     {| clock := clock st;
        trace := trace st ++ stamp (clock st) [Logged log_completed];
        messageSubject := messageSubject st;
        pipelines := pipelines st;
        subscription := Some (fresh_sid st);
        fresh_sid := S (fresh_sid st) |})
  else
    (Returned,
     {| clock := clock st;
        trace := trace st;
        messageSubject := messageSubject st;
        pipelines := pipelines st ++
          [{| sid := fresh_sid st;
              p_onMessageReceive := onMessageReceive props;
              p_maxConcurrency := maxConcurrency;
              p_timeoutMs := timeoutMs;
              p_batchTimeoutMs := batchTimeoutMs;
              window := [];
              flush_at := clock st + timer batchTimeoutMs;
              source_done := false;
              batches := [] |}];
        subscription := Some (fresh_sid st);
        fresh_sid := S (fresh_sid st) |}).

(** [processMessage]: [messageSubject.next({ messages, type, requestId, settings })].
    [next] throws on a closed subject, does nothing on a stopped one, and
    otherwise hands the value to every subscriber. *)
Definition processMessage (pl : MessageUpsertPayload) (s : string)
    (st : BaileysMessageProcessor) : Completion * BaileysMessageProcessor :=
  let g := {| payload := {| messages := messages pl; type := type pl; requestId := requestId pl |};
              settings := s |} in
  if closed (messageSubject st) then (Raised object_unsubscribed, st)
  else if isStopped (messageSubject st) then (Returned, st)
  else
    (Returned,
     {| clock := clock st; trace := trace st; messageSubject := messageSubject st;
        pipelines := map (bufferTime_next g) (pipelines st);
        subscription := subscription st; fresh_sid := fresh_sid st |}).

(** [this.subscription?.unsubscribe()]: the subscription of the last [mount]
    is removed, and the [finalize] callbacks of its groups in flight run. *)
Definition unsubscribe (st : BaileysMessageProcessor) : list Event * list Pipeline :=
  match subscription st with
  | None => ([], pipelines st)
  | Some s =>
      (flat_map (fun p => if decide (sid p = s) then teardown_logs (batches p) else [])
         (pipelines st),
       filter (fun p => sid p <> s) (pipelines st))
  end.

(** [onDestroy]: log, unsubscribe, complete the subject. *)
Definition onDestroy (st : BaileysMessageProcessor) : Completion * BaileysMessageProcessor :=
  let u := unsubscribe st in
  let tr := trace st ++ stamp (clock st) (Logged log_destroying :: fst u) in
  if closed (messageSubject st) then
    (Raised object_unsubscribed,
     {| clock := clock st; trace := tr; messageSubject := messageSubject st;
        pipelines := snd u; subscription := subscription st; fresh_sid := fresh_sid st |})
  else if isStopped (messageSubject st) then
    (Returned,
     {| clock := clock st; trace := tr; messageSubject := messageSubject st;
        pipelines := snd u; subscription := subscription st; fresh_sid := fresh_sid st |})
  else
    let rs := map (bufferTime_complete (clock st)) (snd u) in
    (Returned,
     {| clock := clock st;
        trace := tr ++ stamp (clock st) (concat (map fst rs));
        messageSubject := {| closed := false; isStopped := true |};
        pipelines := omap snd rs;
        subscription := subscription st; fresh_sid := fresh_sid st |}).

(** One millisecond passes: every subscription handles what is due. *)
Definition tick (st : BaileysMessageProcessor) : BaileysMessageProcessor :=
  let now := N.succ (clock st) in
  let rs := map (pipeline_tick now) (pipelines st) in
  {| clock := now;
     trace := trace st ++ stamp now (concat (map fst rs));
     messageSubject := messageSubject st;
     pipelines := omap snd rs;
     subscription := subscription st; fresh_sid := fresh_sid st |}.

Definition advance (dt : N) (st : BaileysMessageProcessor) : BaileysMessageProcessor :=
  N.iter dt tick st.

(** What a user of the class can do, and a run of such steps. *)
Inductive Action :=
  | Mount (props : MountProps)
  | Submit (pl : MessageUpsertPayload) (s : string)
  | Destroy
  | Wait (dt : N).

Definition perform (st : BaileysMessageProcessor) (a : Action) : BaileysMessageProcessor :=
  match a with
  | Mount props => snd (mount props st)
  | Submit pl s => snd (processMessage pl s st)
  | Destroy => snd (onDestroy st)
  | Wait dt => advance dt st
  end.

Definition run (script : list Action) (st : BaileysMessageProcessor) : BaileysMessageProcessor :=
  fold_left perform script st.

(** ** Reading the trace *)

(** The handler calls recorded, with their instants. *)
Definition calls (tr : list (N * Event)) : list (N * Group * Invocation) :=
  omap (fun te => match snd te with Called g r => Some (fst te, g, r) | _ => None end) tr.

(** Is the call made at [at_] with result [r] still executing at [now]?  A
    call executes from the instant it is made until its promise settles. *)
Definition executing (now : N) (c : N * Group * Invocation) : bool :=
  match c with
  | (at_, _, Returns (Resolves d)) | (at_, _, Returns (Rejects d _)) =>
      (at_ <=? now) && (now <? at_ + d)
  | (at_, _, Returns Pending) => at_ <=? now
  | (_, _, Throws _) => false
  end.

Definition concurrency (tr : list (N * Event)) (now : N) : nat :=
  length (filter (fun c => executing now c = true) (calls tr)).

(** The batches handed to the executor, with their instants. *)
Definition emitted (tr : list (N * Event)) : list (N * list Group) :=
  omap (fun te => match snd te with Emitted b => Some (fst te, b) | _ => None end) tr.

Definition logs (tr : list (N * Event)) : list (N * LogEntry) :=
  omap (fun te => match snd te with Logged l => Some (fst te, l) | _ => None end) tr.

(** ** Notions used in the statements *)

(** No live subscription, and the subject was never unsubscribed. *)
Definition quiet (st : BaileysMessageProcessor) : Prop :=
  pipelines st = [] /\ closed (messageSubject st) = false.

Definition is_mount (a : Action) : bool :=
  match a with Mount _ => true | _ => false end.

Definition mount_free (script : list Action) : bool :=
  forallb (fun a => negb (is_mount a)) script.

(** Every live subscription is the one the field [subscription] names: no
    earlier [mount] left a subscription behind. *)
Definition owned (st : BaileysMessageProcessor) : bool :=
  forallb (fun p => bool_decide (subscription st = Some (sid p))) (pipelines st).

(** The lines written by the outer [catchError] and by the error callback of
    the observer: an error went past the handling done for single groups. *)
Definition failure_log (e : Event) : bool :=
  match e with
  | Logged (error_critical _) | Logged (error_stream _) => true
  | _ => false
  end.

Definition stream_failed (tr : list (N * Event)) : bool :=
  existsb (fun te => failure_log (snd te)) tr.

(** A handler that never throws before returning its promise (what an
    [async] function does). *)
Definition asynchronous (h : Handler) : Prop :=
  forall pl s e, h pl s <> Throws e.

(** The batches among some events, and what [filter] lets through of a
    buffer. *)
Definition batches_of (evs : list Event) : list (list Group) :=
  omap (fun e => match e with Emitted b => Some b | _ => None end) evs.

Definition nonempty_batch (w : list Group) : list (list Group) :=
  match w with
  | [] => []
  | _ :: _ => [w]
  end.

(** A processor with exactly one subscription, fed by a handler that never
    throws, on a subject still open. *)
Definition running (st : BaileysMessageProcessor) (p : Pipeline) : Prop :=
  pipelines st = [p]
  /\ source_done p = false
  /\ asynchronous (p_onMessageReceive p)
  /\ closed (messageSubject st) = false
  /\ isStopped (messageSubject st) = false.

(** The group [processMessage] builds from its arguments. *)
Definition group_of (pl : MessageUpsertPayload) (s : string) : Group :=
  {| payload := {| messages := messages pl; type := type pl; requestId := requestId pl |};
     settings := s |}.

(** Runs made of [processMessage] and waiting only: the time they take and
    the groups they submit, in order. *)
Definition ingest_only (script : list Action) : bool :=
  forallb (fun a => match a with Submit _ _ | Wait _ => true | _ => false end) script.

Fixpoint span (script : list Action) : N :=
  match script with
  | [] => 0
  | Wait dt :: rest => dt + span rest
  | _ :: rest => span rest
  end.

Fixpoint submitted (script : list Action) : list Group :=
  match script with
  | [] => []
  | Submit pl s :: rest => group_of pl s :: submitted rest
  | _ :: rest => submitted rest
  end.

(** The observable [mergeMap] builds when it projects group [g] at [now] and
    the handler returns promise [pr]. *)
Definition fresh_task (g : Group) (now : N) (pr : Settlement) : Task :=
  {| t_group := g; t_called := now; t_promise := pr; t_errors := 0; t_phase := Listening now |}.

(** An instant by which the observable of a group has ended, whatever its
    promise does: each remaining attempt lasts at most [timer timeoutMs] and
    is followed by one [retry_delay]. *)
Definition task_deadline (timeoutMs : N) (t : Task) : N :=
  match t_phase t with
  | Listening since =>
      since + timer timeoutMs + retry_delay
      + (retry_take - 1 - t_errors t) * (timer timeoutMs + retry_delay)
  | Delaying until => until + (retry_take - t_errors t) * (timer timeoutMs + retry_delay)
  end.

(** Nothing of the group is overdue at [now]: its timers are looked at no
    later than the instant they fire. *)
Definition timely (timeoutMs now : N) (t : Task) : Prop :=
  match t_phase t with
  | Listening since => now <= since + timer timeoutMs
  | Delaying until => now <= until
  end.

(** [st] runs a single subscription configured like [p0], and [b] is one of
    the batches its executor holds. *)
Definition has_batch (st : BaileysMessageProcessor) (p0 : Pipeline) (b : Batch) : Prop :=
  exists w f bs, running st (with_batches p0 w f false bs) /\ b ∈ bs.

(** The observable [t] of some group is in flight in [st]. *)
Definition in_flight (st : BaileysMessageProcessor) (p0 : Pipeline) (t : Task) : Prop :=
  exists b, has_batch st p0 b /\ t ∈ active b.

(** The handler was called for [g] at [s] and returned a promise fulfilling
    after [d]; the group has ended with [Succeeded], or it was only just
    called and is in flight. *)
Definition started (st : BaileysMessageProcessor) (p0 : Pipeline) (g : Group) (d s : N) : Prop :=
  (s, Called g (Returns (Resolves d))) ∈ trace st
  /\ ((s + d, TaskEnded g Succeeded) ∈ trace st
      \/ (clock st = s /\ 0 < d /\ in_flight st p0 (fresh_task g s (Resolves d)))).

(** ** Notions used in the proofs *)

Definition is_log (e : Event) : bool :=
  match e with Logged _ => true | _ => false end.

(** No line of the outer error handling among some events. *)
Definition failure_free (evs : list Event) : Prop :=
  Forall (fun e => failure_log e = false) evs.

Definition single (st : BaileysMessageProcessor) (p : Pipeline) : Prop :=
  pipelines st = [p] /\ subscription st = Some (sid p).

(** Nothing subscribed and the subject stopped. *)
Definition dead (st : BaileysMessageProcessor) : Prop :=
  quiet st /\ isStopped (messageSubject st) = true.

(** What holds of a processor mounted once, as long as only
    [processMessage], [onDestroy] and the clock act on it. *)
Definition mounted_once (st : BaileysMessageProcessor) : Prop :=
  closed (messageSubject st) = false
  /\ (pipelines st = []
      \/ exists p, single st p /\ stream_failed (trace st) = false).

Definition batches_nonempty (tr : list (N * Event)) : Prop :=
  Forall (fun tb => snd tb <> []) (emitted tr).

(** What the inner [mergeMap] does guarantee: within one batch no more than
    [maxConcurrency] groups are in flight. *)
Definition within_slots (c : N) (b : Batch) : Prop :=
  N.of_nat (length (active b)) <= c.

Definition slots_respected (p : Pipeline) : Prop :=
  Forall (within_slots (p_maxConcurrency p)) (batches p).

(** The groups a subscription still holds without having called the handler
    for them: those in the open buffer and those waiting for a slot. *)
Definition backlog (bs : list Batch) : nat :=
  length (flat_map waiting bs).

Definition pending (p : Pipeline) : nat :=
  length (window p) + backlog (batches p).

Definition pending_all (st : BaileysMessageProcessor) : nat :=
  sum_list_with pending (pipelines st).

(** The handler calls among some events. *)
Definition called_of (evs : list Event) : list (Group * Invocation) :=
  omap (fun e => match e with Called g r => Some (g, r) | _ => None end) evs.

(** ** Scenarios *)

Definition payload_of (id : string) : MessageUpsertPayload :=
  {| messages := [id]; type := notify; requestId := Some id |}.

(** A handler that looks the request id up in a table of promises and
    fulfils after one millisecond for any other id.  It never throws. *)
Definition table_handler (tbl : gmap string Settlement) : Handler :=
  fun pl _ => Returns (default (Resolves 1) (requestId pl ≫= fun id => tbl !! id)).

(** The same, except that it throws on the request id ["throw"]. *)
Definition throwing_handler (tbl : gmap string Settlement) : Handler :=
  fun pl s =>
    if bool_decide (requestId pl = Some "throw") then Throws (ErrorWith "sync")
    else table_handler tbl pl s.

Definition sample_table : gmap string Settlement :=
  <["slow" := Resolves 1500]> (<["bad" := Rejects 2 (ErrorWith "boom")]> (<["hang" := Pending]> ∅)).

(** [mount({ onMessageReceive })]: every option left to its default. *)
Definition default_props : MountProps :=
  {| onMessageReceive := table_handler sample_table; options := ∅ |}.

(** [mount({ onMessageReceive, maxConcurrency: 1 })]. *)
Definition single_slot_props : MountProps :=
  {| onMessageReceive := table_handler sample_table;
     options := <["maxConcurrency" := 1]> ∅ |}.

(** An object that also carries the two retry settings of the
    specification. *)
Definition retry_props : MountProps :=
  {| onMessageReceive := table_handler sample_table;
     options := <["maxRetryAttempts" := 1]> (<["retryDelayMs" := 10]> ∅) |}.

Definition throwing_props : MountProps :=
  {| onMessageReceive := throwing_handler sample_table; options := ∅ |}.

(** Two slow groups, one second apart, with a single slot. *)
Definition two_batches : BaileysMessageProcessor :=
  run [Mount single_slot_props; Wait 500; Submit (payload_of "slow") "a";
       Wait 1000; Submit (payload_of "slow") "b"; Wait 1500] (create 0).

(** One group whose handler rejects. *)
Definition rejected_group (props : MountProps) : BaileysMessageProcessor :=
  run [Mount props; Submit (payload_of "bad") ""; Wait 6000] (create 0).

(** A processor destroyed with one group still in the buffer. *)
Definition destroyed : BaileysMessageProcessor :=
  run [Mount default_props; Wait 5; Submit (payload_of "ok") ""; Destroy] (create 0).

(** Two submissions two milliseconds apart, on either side of a flush. *)
Definition across_the_flush : BaileysMessageProcessor :=
  run [Mount default_props; Wait 999; Submit (payload_of "a") ""; Wait 2;
       Submit (payload_of "b") ""; Wait 1000] (create 0).

(** The configuration of the live subscriptions. *)
Definition config_of (st : BaileysMessageProcessor) : list (N * N * N * N) :=
  map (fun p => (p_maxConcurrency p, p_timeoutMs p, p_batchTimeoutMs p, flush_at p))
    (pipelines st).

(** A processor just mounted with the defaults, and its subscription. *)
Definition mounted : BaileysMessageProcessor := snd (mount default_props (create 0)).

Definition mounted_pipeline : Pipeline :=
  {| sid := 0; p_onMessageReceive := table_handler sample_table;
     p_maxConcurrency := 5; p_timeoutMs := 30000; p_batchTimeoutMs := 1000;
     window := []; flush_at := 1000; source_done := false; batches := [] |}.

(** A failing and a succeeding group in the same buffer, with one slot. *)
Definition pair_submitted : BaileysMessageProcessor :=
  run [Mount single_slot_props; Submit (payload_of "bad") ""; Submit (payload_of "ok") ""]
    (create 0).

Definition pair_pipeline : Pipeline :=
  {| sid := 0; p_onMessageReceive := table_handler sample_table;
     p_maxConcurrency := 1; p_timeoutMs := 30000; p_batchTimeoutMs := 1000;
     window := [group_of (payload_of "bad") ""; group_of (payload_of "ok") ""];
     flush_at := 1000; source_done := false; batches := [] |}.

(** A group whose handler never settles, one instant before its deadline. *)
Definition quick_props : MountProps :=
  {| onMessageReceive := table_handler sample_table;
     options := <["timeoutMs" := 2]> (<["batchTimeoutMs" := 1]> ∅) |}.

Definition hanging : BaileysMessageProcessor :=
  run [Mount quick_props; Submit (payload_of "hang") ""; Wait 2] (create 0).

Definition hanging_task : Task :=
  fresh_task (group_of (payload_of "hang") "") 1 Pending.

Definition hanging_batch : Batch :=
  {| active := [hanging_task]; waiting := [] |}.

Definition hanging_pipeline : Pipeline :=
  {| sid := 0; p_onMessageReceive := table_handler sample_table;
     p_maxConcurrency := 5; p_timeoutMs := 2; p_batchTimeoutMs := 1;
     window := []; flush_at := 3; source_done := false; batches := [hanging_batch] |}.

(** ** Further notions *)

(** The groups the handler was called for among some events, in the order of
    the calls. *)
Definition called_groups (evs : list Event) : list Group :=
  map fst (called_of evs).

(** The groups of the batches handed to the executor so far, in order. *)
Definition delivered (tr : list (N * Event)) : list Group :=
  concat (map snd (emitted tr)).

(** Instants of the form [origin + k * period] with [k >= 1]. *)
Definition on_grid (origin period t : N) : Prop :=
  exists k, 1 <= k /\ t = origin + k * period.

(** The groups the handler was called for so far, in the order of the calls,
    and the groups of a subscription that wait for a slot. *)
Definition handled (tr : list (N * Event)) : list Group :=
  map (fun c => snd (fst c)) (calls tr).

Definition queued (p : Pipeline) : list Group :=
  flat_map waiting (batches p).

(** Every group in flight has nothing overdue after instant [now] and ends
    by [bound] at the latest. *)
Definition due_by (timeoutMs now bound : N) (act : list Task) : Prop :=
  Forall (fun t => timely timeoutMs (N.succ now) t /\ task_deadline timeoutMs t <= bound) act.

(** The longest a group can stay in flight: three rounds of the timer of
    [timeoutMs] followed by the retry delay. *)
Definition longest_flight (timeoutMs : N) : N :=
  retry_take * (timer timeoutMs + retry_delay).

(** The handler has just been called for [g]: the observable of the group
    has ended within the instant, or it is in flight with nothing overdue
    and ends within [longest_flight]. *)
Definition underway (st : BaileysMessageProcessor) (p0 : Pipeline) (g : Group) : Prop :=
  (exists o, (clock st, TaskEnded g o) ∈ trace st)
  \/ (exists t,
        in_flight st p0 t
        /\ t_group t = g
        /\ timely (p_timeoutMs p0) (N.succ (clock st)) t
        /\ task_deadline (p_timeoutMs p0) t <= clock st + longest_flight (p_timeoutMs p0)).

(** Every batch among some events comes with the log line of [tap], which
    gives its size. *)
Definition announced (evs : list Event) : Prop :=
  forall b, Emitted b ∈ evs -> Logged (log_processing_batch (length b)) ∈ evs.

(** Where a group given to a running processor can be: in the open buffer,
    waiting for a slot, or handed to the handler, and then either ended or
    in flight. *)
Definition accounted (st : BaileysMessageProcessor) (p : Pipeline) (g : Group) : Prop :=
  g ∈ window p
  \/ (exists b, b ∈ batches p /\ g ∈ waiting b)
  \/ (exists s,
        s <= clock st
        /\ (s, Called g (p_onMessageReceive p (payload g) (settings g))) ∈ trace st
        /\ ((exists e o, s <= e /\ e <= clock st /\ (e, TaskEnded g o) ∈ trace st)
            \/ (exists b t, b ∈ batches p /\ t ∈ active b /\ t_group t = g))).

(** The timers of a running processor are in order: the timer of
    [bufferTime] is ahead of the clock by at most [timer batchTimeoutMs], and
    every group in flight has nothing overdue and ends within
    [longest_flight]. *)
Definition on_time (st : BaileysMessageProcessor) (p : Pipeline) : Prop :=
  clock st < flush_at p
  /\ flush_at p <= clock st + timer (p_batchTimeoutMs p)
  /\ Forall (fun b => due_by (p_timeoutMs p) (clock st)
                        (clock st + longest_flight (p_timeoutMs p)) (active b))
       (batches p).

(** ** Further scenarios *)

(** The sample table with one more handler answer: a promise rejected with
    nothing. *)
Definition void_table : gmap string Settlement :=
  <["void" := Rejects 2 (Nullish null)]> sample_table.

(** [mount({ onMessageReceive, timeoutMs, batchTimeoutMs: 1 })]. *)
Definition eager_props (tbl : gmap string Settlement) (timeoutMs : N) : MountProps :=
  {| onMessageReceive := table_handler tbl;
     options := <["timeoutMs" := timeoutMs]> (<["batchTimeoutMs" := 1]> ∅) |}.

(** A processor whose handler was just called for one group: the group is
    submitted right after [mount] and flushed one millisecond later. *)
Definition called_alone (tbl : gmap string Settlement) (timeoutMs : N) (id : string)
  : BaileysMessageProcessor :=
  run [Mount (eager_props tbl timeoutMs); Submit (payload_of id) ""; Wait 1] (create 0).

Definition called_alone_batch (id : string) (pr : Settlement) : Batch :=
  {| active := [fresh_task (group_of (payload_of id) "") 1 pr]; waiting := [] |}.

Definition called_alone_pipeline (tbl : gmap string Settlement) (timeoutMs : N) (id : string)
    (pr : Settlement) : Pipeline :=
  {| sid := 0; p_onMessageReceive := table_handler tbl;
     p_maxConcurrency := 5; p_timeoutMs := timeoutMs; p_batchTimeoutMs := 1;
     window := []; flush_at := 2; source_done := false;
     batches := [called_alone_batch id pr] |}.

(** [mount] called twice, then one submission: the subscription of the first
    [mount] is still there, with the group in its buffer. *)
Definition mounted_twice : BaileysMessageProcessor :=
  run [Mount default_props; Mount single_slot_props; Submit (payload_of "a") ""] (create 0).

Definition earlier_pipeline : Pipeline :=
  {| sid := 0; p_onMessageReceive := table_handler sample_table;
     p_maxConcurrency := 5; p_timeoutMs := 30000; p_batchTimeoutMs := 1000;
     window := [group_of (payload_of "a") ""]; flush_at := 1000; source_done := false;
     batches := [] |}.

(** [mount({ onMessageReceive, maxConcurrency: 0 })]. *)
Definition no_slot_props : MountProps :=
  {| onMessageReceive := table_handler sample_table;
     options := <["maxConcurrency" := 0]> ∅ |}.

(** A subscription whose handler throws on the group in its buffer. *)
Definition throwing_pipeline : Pipeline :=
  {| sid := 0; p_onMessageReceive := throwing_handler sample_table;
     p_maxConcurrency := 5; p_timeoutMs := 30000; p_batchTimeoutMs := 1000;
     window := [group_of (payload_of "throw") ""]; flush_at := 1000; source_done := false;
     batches := [] |}.

(** Two groups in the buffer of a processor mounted with the defaults. *)
Definition two_submitted : BaileysMessageProcessor :=
  run [Submit (payload_of "a") ""; Submit (payload_of "b") ""] mounted.

Definition two_pipeline : Pipeline :=
  {| sid := 0; p_onMessageReceive := table_handler sample_table;
     p_maxConcurrency := 5; p_timeoutMs := 30000; p_batchTimeoutMs := 1000;
     window := [group_of (payload_of "a") ""; group_of (payload_of "b") ""];
     flush_at := 1000; source_done := false; batches := [] |}.

(** A group on which the handler throws and a group it answers, submitted
    together; and the same with a group whose promise is rejected in the
    place of the first. *)
Definition thrown_beside : BaileysMessageProcessor :=
  run [Mount throwing_props; Submit (payload_of "throw") ""; Submit (payload_of "ok") "";
       Wait 5000] (create 0).

Definition rejected_beside : BaileysMessageProcessor :=
  run [Mount default_props; Submit (payload_of "bad") ""; Submit (payload_of "ok") "";
       Wait 5000] (create 0).





(** The groups that have ended, with the instant and the outcome. *)
Definition ended (tr : list (N * Event)) : list (N * Group * Outcome) :=
  omap (fun te => match snd te with TaskEnded g o => Some (fst te, g, o) | _ => None end) tr.

(** ** The options of [mount], seen from outside *)

(** [mount({ onMessageReceive, maxConcurrency: 2, timeoutMs: 7,
    batchTimeoutMs: 3 })]. *)
Definition tuned_props : MountProps :=
  {| onMessageReceive := table_handler sample_table;
     options := <["maxConcurrency" := 2]> (<["timeoutMs" := 7]> (<["batchTimeoutMs" := 3]> ∅)) |}.

(** What a first batch [gs] writes when it leaves [bufferTime] at [at_] and
    the handler returns a promise that never settles for each of its groups:
    the batch, the line of [tap], and one call for each of the first
    [maxConcurrency] groups. *)
Definition first_batch (maxConcurrency at_ : N) (gs : list Group) : list (N * Event) :=
  stamp at_
    (Emitted gs :: Logged (log_processing_batch (length gs))
     :: map (fun g => Called g (Returns Pending)) (take (N.to_nat maxConcurrency) gs)).

(** The warnings of [retryWhen] when the timers of those calls fire, all at
    the same instant. *)
Definition first_timeouts (maxConcurrency at_ : N) (gs : list Group) : list (N * Event) :=
  stamp at_
    (map (fun _ => Logged (warn_retrying timeout_message)) (take (N.to_nat maxConcurrency) gs)).

(** The inner [mergeMap] of that batch once the calls are made: the first
    [maxConcurrency] groups are in flight, the others wait. *)
Definition silent_batch (maxConcurrency at_ : N) (gs : list Group) : Batch :=
  {| active := map (fun g => fresh_task g at_ Pending) (take (N.to_nat maxConcurrency) gs);
     waiting := drop (N.to_nat maxConcurrency) gs |}.

(** * Properties *)

#[local] Arguments task_fire : simpl never.
#[local] Arguments batch_tick : simpl never.
#[local] Arguments emit_batch : simpl never.
#[local] Arguments flush : simpl never.
#[local] Arguments settle : simpl never.
#[local] Arguments stream_error : simpl never.
#[local] Arguments bufferTime_complete : simpl never.
#[local] Arguments pipeline_tick : simpl never.
#[local] Arguments timer : simpl never.

(** ** Timers *)

Lemma timer_pos d : 1 <= timer d.
Proof.
  unfold timer. destruct (N.ltb_spec d 1); cbn [orb]; [lia|].
  destruct (N.ltb_spec 2147483647 d); lia.
Qed.

Lemma timer_bound d : timer d <= 2147483647.
Proof.
  unfold timer. destruct (N.ltb_spec d 1); cbn [orb]; [lia|].
  destruct (N.ltb_spec 2147483647 d); lia.
Qed.

(** A delay that Node takes as it is. *)
Lemma timer_plain d : 1 <= d -> d <= 2147483647 -> timer d = d.
Proof.
  intros H1 H2. unfold timer. destruct (N.ltb_spec d 1); cbn [orb]; [lia|].
  destruct (N.ltb_spec 2147483647 d); lia.
Qed.

(** A delay that Node replaces. *)
Lemma timer_clamped d : d = 0 \/ 2147483648 <= d -> timer d = 1.
Proof.
  intros H. unfold timer. destruct (N.ltb_spec d 1); cbn [orb]; [done|].
  destruct (N.ltb_spec 2147483647 d); lia.
Qed.

(** ** The clock and the trace *)

Lemma advance_succ dt st : advance (N.succ dt) st = tick (advance dt st).
Proof. apply N.iter_succ. Qed.

Lemma advance_add a b st : advance (a + b) st = advance a (advance b st).
Proof. apply N.iter_add. Qed.

Lemma clock_advance dt st : clock (advance dt st) = clock st + dt.
Proof.
  induction dt as [|dt IH] using N.peano_ind.
  - cbn. lia.
  - rewrite advance_succ. cbn. rewrite IH. lia.
Qed.

Lemma run_app s1 s2 st : run (s1 ++ s2) st = run s2 (run s1 st).
Proof. apply fold_left_app. Qed.

Lemma run_cons a script st : run (a :: script) st = run script (perform st a).
Proof. reflexivity. Qed.

Lemma calls_app tr1 tr2 : calls (tr1 ++ tr2) = calls tr1 ++ calls tr2.
Proof. apply omap_app. Qed.

Lemma emitted_app tr1 tr2 : emitted (tr1 ++ tr2) = emitted tr1 ++ emitted tr2.
Proof. apply omap_app. Qed.

(** ** A processor nobody is subscribed to *)

Lemma processMessage_quiet pl s st :
  quiet st -> processMessage pl s st = (Returned, st).
Proof.
  intros [Hp Hc]. unfold processMessage. rewrite Hc.
  destruct (isStopped (messageSubject st)); [done|].
  rewrite Hp. destruct st; cbn in *; by subst.
Qed.

Lemma tick_quiet st :
  quiet st ->
  quiet (tick st) /\ trace (tick st) = trace st /\ messageSubject (tick st) = messageSubject st.
Proof.
  intros [Hp Hc]. unfold tick, quiet. cbn. rewrite Hp. cbn.
  by rewrite app_nil_r.
Qed.

Lemma advance_quiet dt st :
  quiet st ->
  quiet (advance dt st) /\ trace (advance dt st) = trace st
  /\ messageSubject (advance dt st) = messageSubject st.
Proof.
  intros Hq. induction dt as [|dt IH] using N.peano_ind; [done|].
  rewrite advance_succ. destruct IH as (Hq' & Ht & Hs).
  destruct (tick_quiet _ Hq') as (Hq'' & Ht' & Hs').
  split; [exact Hq''|]. split; congruence.
Qed.

Lemma unsubscribe_quiet st : pipelines st = [] -> unsubscribe st = ([], []).
Proof. intros Hp. unfold unsubscribe. rewrite Hp. by destruct (subscription st). Qed.

Lemma onDestroy_quiet st :
  quiet st ->
  quiet (snd (onDestroy st))
  /\ trace (snd (onDestroy st)) = trace st ++ [(clock st, Logged log_destroying)]
  /\ isStopped (messageSubject (snd (onDestroy st))) = true.
Proof.
  intros [Hp Hc]. unfold onDestroy, quiet. rewrite (unsubscribe_quiet _ Hp), Hc. cbn.
  destruct (isStopped (messageSubject st)) eqn:Hs; cbn; [done|].
  by rewrite app_nil_r.
Qed.

(** Without a new [mount], a quiet processor stays quiet: it calls no handler
    and hands no batch to the executor. *)
Lemma run_quiet script st :
  mount_free script = true -> quiet st ->
  quiet (run script st)
  /\ calls (trace (run script st)) = calls (trace st)
  /\ emitted (trace (run script st)) = emitted (trace st).
Proof.
  revert st. induction script as [|a script IH]; intros st Hm Hq; [done|].
  cbn in Hm. apply andb_prop in Hm as [Ha Hm]. rewrite run_cons.
  assert (quiet (perform st a) /\ calls (trace (perform st a)) = calls (trace st)
          /\ emitted (trace (perform st a)) = emitted (trace st)) as (Hq' & Hc & He).
  { destruct a as [props|pl s| |dt]; cbn [perform]; [done| | |].
    - by rewrite processMessage_quiet.
    - destruct (onDestroy_quiet _ Hq) as (? & -> & _).
      rewrite calls_app, emitted_app. cbn. by rewrite !app_nil_r.
    - destruct (advance_quiet dt _ Hq) as (? & -> & _). done. }
  destruct (IH _ Hm Hq') as (Hq'' & Hc' & He').
  split; [exact Hq''|]. split; congruence.
Qed.

Lemma create_quiet now : quiet (create now).
Proof. done. Qed.

(** C10. A payload given to [processMessage] before [mount] was ever called
    is dropped without a signal: the call returns normally and leaves the
    processor exactly as it was, so whatever happens afterwards, a later
    [mount] included, is what would have happened without that call; no
    handler ever receives the payload. *)
Theorem submit_before_mount_is_dropped (now : N) (pre post : list Action)
    (pl : MessageUpsertPayload) (s : string) :
  mount_free pre = true ->
  processMessage pl s (run pre (create now)) = (Returned, run pre (create now))
  /\ run post (perform (run pre (create now)) (Submit pl s)) = run post (run pre (create now)).
Proof.
  intros Hm.
  destruct (run_quiet pre (create now) Hm (create_quiet now)) as (Hq & _).
  pose proof (processMessage_quiet pl s _ Hq) as Hp.
  split; [done|]. cbn [perform]. by rewrite Hp.
Qed.

(** ** Events of the executor *)


Lemma calls_stamp_logs now evs :
  forallb is_log evs = true -> calls (stamp now evs) = [].
Proof.
  induction evs as [|e evs IH]; [done|]. cbn. intros [He Hr]%andb_prop.
  destruct e; try done. by apply IH.
Qed.

Lemma emitted_stamp_logs now evs :
  forallb is_log evs = true -> emitted (stamp now evs) = [].
Proof.
  induction evs as [|e evs IH]; [done|]. cbn. intros [He Hr]%andb_prop.
  destruct e; try done. by apply IH.
Qed.

Lemma forallb_app_true {A} (f : A -> bool) l1 l2 :
  forallb f l1 = true -> forallb f l2 = true -> forallb f (l1 ++ l2) = true.
Proof. intros H1 H2. rewrite forallb_app, H1, H2. done. Qed.

Lemma finalize_log_is_log t : forallb is_log (finalize_log t) = true.
Proof. unfold finalize_log. by destruct (0 <? t_errors t). Qed.

Lemma teardown_logs_is_log bs : forallb is_log (teardown_logs bs) = true.
Proof.
  unfold teardown_logs. induction bs as [|b bs IH]; [done|]. cbn.
  apply forallb_app_true; [|done].
  induction (active b) as [|t ts IHt]; [done|]. cbn.
  apply forallb_app_true; [apply finalize_log_is_log|done].
Qed.


Lemma failure_free_app evs1 evs2 :
  failure_free evs1 -> failure_free evs2 -> failure_free (evs1 ++ evs2).
Proof. intros. by apply Forall_app. Qed.

Lemma failure_free_existsb now evs :
  failure_free evs -> stream_failed (stamp now evs) = false.
Proof.
  unfold stream_failed, stamp. induction 1 as [|e evs He _ IH]; [done|].
  cbn. by rewrite He, IH.
Qed.

Lemma finalize_log_failure_free t : failure_free (finalize_log t).
Proof. unfold finalize_log. destruct (0 <? t_errors t); repeat constructor. Qed.

Lemma teardown_logs_failure_free bs : failure_free (teardown_logs bs).
Proof.
  unfold teardown_logs. induction bs as [|b bs IH]; [constructor|]. cbn.
  apply failure_free_app; [|done].
  induction (active b) as [|t ts IHt]; [constructor|]. cbn.
  apply failure_free_app; [apply finalize_log_failure_free|done].
Qed.

Lemma stream_failed_app tr1 tr2 :
  stream_failed (tr1 ++ tr2) = stream_failed tr1 || stream_failed tr2.
Proof. apply existsb_app. Qed.

Lemma task_fire_failure_free T now t : failure_free (fst (task_fire T now t)).
Proof.
  unfold task_fire, observe, on_source_error, source_signal, finalize_log, failure_free.
  repeat (case_match; cbn); repeat constructor.
Qed.

Lemma fire_all_failure_free T now act : failure_free (fst (fire_all T now act)).
Proof.
  induction act as [|t act IH]; cbn; [constructor|].
  apply failure_free_app; [apply task_fire_failure_free|done].
Qed.

Lemma start_waiting_failure_free h c T now buf :
  forall act, failure_free (events (start_waiting h c T now act buf)).
Proof.
  induction buf as [|g buf IH]; intros act; cbn; [constructor|].
  destruct (N.of_nat (length act) <? c); [|constructor].
  destruct (h (payload g) (settings g)); cbn; [|repeat constructor].
  constructor; [done|]. apply failure_free_app; [apply task_fire_failure_free|apply IH].
Qed.

Lemma batch_tick_failure_free h c T now b : failure_free (events (batch_tick h c T now b)).
Proof.
  unfold batch_tick. cbn.
  apply failure_free_app; [apply fire_all_failure_free|apply start_waiting_failure_free].
Qed.

Lemma batches_tick_failure_free h c T now bs : failure_free (events (batches_tick h c T now bs)).
Proof.
  induction bs as [|b bs IH]; cbn; [constructor|].
  destruct (failed (batch_tick h c T now b)); cbn; [apply batch_tick_failure_free|].
  apply failure_free_app; [apply batch_tick_failure_free|done].
Qed.

Lemma emit_batch_failure_free h c T now batch : failure_free (events (emit_batch h c T now batch)).
Proof.
  unfold emit_batch. destruct batch as [|g batch]; cbn -[start_waiting]; [constructor|].
  do 2 (constructor; [done|]). apply start_waiting_failure_free.
Qed.

(** ** A subscription that survives an instant *)

Lemma settle_alive p p' :
  snd (settle p) = Some p' -> p' = p /\ failure_free (fst (settle p)).
Proof.
  unfold settle. destruct (source_done p); [|intros [= <-]; split; [done|constructor]].
  destruct (batches p); [done|]. intros [= <-]. split; [done|constructor].
Qed.

Lemma flush_alive now p p' :
  snd (flush now p) = Some p' ->
  (exists w f bs, p' = with_batches p w f (source_done p) bs)
  /\ failure_free (fst (flush now p)).
Proof.
  unfold flush. destruct (negb (source_done p) && (flush_at p <=? now)) eqn:Hd.
  - apply andb_prop in Hd as [Hs _]. apply negb_true_iff in Hs.
    destruct (failed _) eqn:Hf; [done|]. cbn. intros [= <-]. rewrite Hs. split; [eauto|].
    apply emit_batch_failure_free.
  - intros [-> ?]%settle_alive. split; [|done].
    exists (window p), (flush_at p), (batches p). by destruct p.
Qed.

Lemma pipeline_tick_alive now p p' :
  snd (pipeline_tick now p) = Some p' ->
  (exists w f bs, p' = with_batches p w f (source_done p) bs)
  /\ failure_free (fst (pipeline_tick now p)).
Proof.
  unfold pipeline_tick. destruct (failed _) eqn:Hf; [done|]. cbn.
  intros [(w & f & bs & ->) Hff]%flush_alive. cbn. split; [eauto|].
  apply failure_free_app; [apply batches_tick_failure_free|done].
Qed.

(** ** One subscription, made by the only [mount] *)


Lemma tick_single st p :
  pipelines st = [p] ->
  pipelines (tick st) = option_list (snd (pipeline_tick (N.succ (clock st)) p))
  /\ trace (tick st) = trace st ++ stamp (N.succ (clock st)) (fst (pipeline_tick (N.succ (clock st)) p)).
Proof.
  intros Hp. unfold tick. cbn. rewrite Hp. cbn. rewrite app_nil_r.
  split; [|done]. by destruct (snd _).
Qed.

Lemma unsubscribe_all (s : nat) (ps : list Pipeline) :
  forallb (fun p => bool_decide (Some s = Some (sid p))) ps = true ->
  filter (fun p => sid p <> s) ps = []
  /\ forallb is_log
       (flat_map (fun p => if decide (sid p = s) then teardown_logs (batches p) else []) ps) = true
  /\ failure_free
       (flat_map (fun p => if decide (sid p = s) then teardown_logs (batches p) else []) ps).
Proof.
  induction ps as [|p ps IH]; [repeat split; constructor|].
  cbn [forallb flat_map]. intros [Hp Hps]%andb_prop.
  apply bool_decide_eq_true in Hp as [= Hs].
  destruct (IH Hps) as (IH1 & IH2 & IH3). repeat split.
  - rewrite filter_cons_False; [done|]. intros Hne. by apply Hne.
  - rewrite decide_True by done. apply forallb_app_true; [apply teardown_logs_is_log|done].
  - rewrite decide_True by done.
    apply failure_free_app; [apply teardown_logs_failure_free|done].
Qed.

Lemma unsubscribe_owned st :
  owned st = true ->
  snd (unsubscribe st) = []
  /\ forallb is_log (fst (unsubscribe st)) = true
  /\ failure_free (fst (unsubscribe st)).
Proof.
  unfold owned, unsubscribe. destruct (subscription st) as [s|].
  - intros H. by apply unsubscribe_all in H.
  - destruct (pipelines st); [repeat split; constructor|]. cbn. intros [Hp _]%andb_prop.
    by apply bool_decide_eq_true in Hp.
Qed.

(** After [onDestroy] on a processor that owns its subscription nothing is
    subscribed any more, the subject is stopped, and the call itself called
    no handler and started no batch. *)
Lemma onDestroy_owned st :
  owned st = true -> closed (messageSubject st) = false ->
  fst (onDestroy st) = Returned
  /\ quiet (snd (onDestroy st))
  /\ isStopped (messageSubject (snd (onDestroy st))) = true
  /\ calls (trace (snd (onDestroy st))) = calls (trace st)
  /\ emitted (trace (snd (onDestroy st))) = emitted (trace st)
  /\ stream_failed (trace (snd (onDestroy st))) = stream_failed (trace st).
Proof.
  intros Ho Hc. destruct (unsubscribe_owned _ Ho) as (Hu & Hl & Hff).
  assert (forallb is_log (Logged log_destroying :: fst (unsubscribe st)) = true) as Hl' by done.
  assert (stream_failed (stamp (clock st) (Logged log_destroying :: fst (unsubscribe st))) = false) as Hsf.
  { apply failure_free_existsb. by constructor. }
  unfold onDestroy, quiet. rewrite Hc, Hu.
  destruct (isStopped (messageSubject st)) eqn:Hs; cbn -[stamp];
    rewrite ?app_nil_r, ?calls_app, ?emitted_app, ?stream_failed_app,
      ?(calls_stamp_logs _ _ Hl'), ?(emitted_stamp_logs _ _ Hl'), ?Hsf, ?app_nil_r, ?orb_false_r;
    repeat split; try done.
Qed.

(** ** After [onDestroy] *)


Lemma perform_dead st a :
  dead st ->
  dead (perform st a)
  /\ calls (trace (perform st a)) = calls (trace st)
  /\ emitted (trace (perform st a)) = emitted (trace st).
Proof.
  intros [Hq Hs]. destruct a as [props|pl s| |dt]; cbn [perform].
  - destruct Hq as [Hp Hc]. unfold mount, dead, quiet. rewrite Hc, Hs. cbn.
    rewrite calls_app, emitted_app. cbn. by rewrite !app_nil_r.
  - by rewrite processMessage_quiet.
  - destruct (onDestroy_quiet _ Hq) as (Hq' & -> & Hs').
    rewrite calls_app, emitted_app. cbn. by rewrite !app_nil_r.
  - destruct (advance_quiet dt _ Hq) as (Hq' & -> & Hm). unfold dead. by rewrite Hm.
Qed.

Lemma run_dead script st :
  dead st ->
  dead (run script st)
  /\ calls (trace (run script st)) = calls (trace st)
  /\ emitted (trace (run script st)) = emitted (trace st).
Proof.
  revert st. induction script as [|a script IH]; intros st Hd; [done|].
  rewrite run_cons. destruct (perform_dead st a Hd) as (Hd' & Hc & He).
  destruct (IH _ Hd') as (Hd'' & Hc' & He').
  split; [exact Hd''|]. split; congruence.
Qed.

(** C3, as the code has it.  Once [onDestroy] has run on a processor that
    owns its subscription, whatever is done next ([processMessage], waiting,
    [onDestroy] or [mount] again), every [processMessage] returns normally
    and changes nothing, no handler is called and no batch is started, also
    for the groups that were still buffered when [onDestroy] ran. *)
Theorem destroyed_processor_drops_submissions (st0 : BaileysMessageProcessor)
    (script : list Action) (pl : MessageUpsertPayload) (s : string) :
  owned st0 = true ->
  closed (messageSubject st0) = false ->
  processMessage pl s (run script (snd (onDestroy st0)))
    = (Returned, run script (snd (onDestroy st0)))
  /\ calls (trace (run script (snd (onDestroy st0)))) = calls (trace st0)
  /\ emitted (trace (run script (snd (onDestroy st0)))) = emitted (trace st0).
Proof.
  intros Ho Hc.
  destruct (onDestroy_owned st0 Ho Hc) as (_ & Hq & Hs & Hcalls & Hem & _).
  destruct (run_dead script _ (conj Hq Hs)) as ([Hq' _] & Hc' & He').
  split; [by apply processMessage_quiet|]. split; congruence.
Qed.

(** ** After a failure of the stream *)


Lemma mounted_once_owned st : mounted_once st -> owned st = true.
Proof.
  intros [_ [Hp|(p & [Hp Hs] & _)]]; unfold owned; rewrite Hp; [done|].
  cbn. rewrite Hs. by rewrite bool_decide_eq_true_2.
Qed.

Lemma mount_mounted_once props now : mounted_once (snd (mount props (create now))).
Proof. split; [done|]. right. eexists. by repeat split. Qed.

Lemma tick_mounted_once st : mounted_once st -> mounted_once (tick st).
Proof.
  intros [Hc [Hp|(p & [Hp Hs] & Hf)]].
  - destruct (tick_quiet st (conj Hp Hc)) as ([Hp' Hc'] & _). split; [done|]. by left.
  - destruct (tick_single st p Hp) as [Hp' Ht]. split; [done|].
    destruct (snd (pipeline_tick (N.succ (clock st)) p)) as [p'|] eqn:Hk; [|by left].
    right. exists p'. destruct (pipeline_tick_alive _ _ _ Hk) as [(w & f & bs & ->) Hff].
    repeat split; [done|done|].
    rewrite Ht, stream_failed_app, Hf. by apply failure_free_existsb.
Qed.

Lemma perform_mounted_once st a :
  is_mount a = false -> mounted_once st -> mounted_once (perform st a).
Proof.
  intros Ha Hm. destruct a as [props|pl s| |dt]; [done| | |]; cbn [perform].
  - destruct Hm as [Hc [Hp|(p & [Hp Hs] & Hf)]].
    + rewrite processMessage_quiet by done. split; [done|by left].
    + unfold processMessage. rewrite Hc.
      destruct (isStopped (messageSubject st));
        (split; [done|]; right); [by exists p|].
      exists (bufferTime_next (Build_Group
                (Build_MessageUpsertPayload (messages pl) (type pl) (requestId pl)) s) p).
      cbn. rewrite Hp. repeat split; [|done].
      cbn. rewrite Hs. unfold bufferTime_next. by destruct (source_done p).
  - pose proof (mounted_once_owned _ Hm) as Ho. destruct Hm as [Hc _].
    destruct (onDestroy_owned st Ho Hc) as (_ & [Hp Hc'] & _). split; [done|]. by left.
  - clear Ha. induction dt as [|dt IH] using N.peano_ind; [exact Hm|].
    rewrite advance_succ. by apply tick_mounted_once.
Qed.

Lemma run_mounted_once script st :
  mount_free script = true -> mounted_once st -> mounted_once (run script st).
Proof.
  revert st. induction script as [|a script IH]; intros st Hm Hi; [done|].
  cbn in Hm. apply andb_prop in Hm as [Ha Hm]. rewrite run_cons.
  apply IH; [done|]. apply perform_mounted_once; [|done]. by apply negb_true_iff.
Qed.

(** X20. A subscription whose source is open disappears within an instant
    only through the outer error handling, which logs it. *)
Lemma pipeline_tick_failure_logged now p :
  source_done p = false ->
  snd (pipeline_tick now p) = None ->
  existsb failure_log (fst (pipeline_tick now p)) = true.
Proof.
  intros Hd. unfold pipeline_tick.
  assert (forall e bs, existsb failure_log (stream_error e bs) = true) as Hlog.
  { intros e bs. unfold stream_error. by destruct e. }
  destruct (failed _); cbn [fst snd].
  - intros _. by rewrite existsb_app, Hlog, orb_true_r.
  - unfold flush. cbn [source_done flush_at with_batches window p_onMessageReceive
      p_maxConcurrency p_timeoutMs p_batchTimeoutMs batches]. rewrite Hd. cbn [negb andb].
    destruct (flush_at p <=? now).
    + destruct (failed _); cbn [fst snd]; [|done].
      intros _. by rewrite !existsb_app, Hlog, !orb_true_r.
    + unfold settle. cbn [source_done with_batches]. done.
Qed.

(** C9. Take a processor mounted once.  If the trace shows that an error
    reached the outer [catchError] (or went past it), the subscription is
    gone, and unless [mount] is called again it stays gone whatever happens
    next: no handler is called and no batch is started any more. *)
Theorem stream_failure_halts_processor (now : N) (props : MountProps)
    (script more : list Action) :
  mount_free script = true ->
  stream_failed (trace (run script (snd (mount props (create now))))) = true ->
  mount_free more = true ->
  pipelines (run script (snd (mount props (create now)))) = []
  /\ pipelines (run more (run script (snd (mount props (create now))))) = []
  /\ calls (trace (run more (run script (snd (mount props (create now))))))
     = calls (trace (run script (snd (mount props (create now)))))
  /\ emitted (trace (run more (run script (snd (mount props (create now))))))
     = emitted (trace (run script (snd (mount props (create now))))).
Proof.
  intros Hs Hf Hm.
  pose proof (run_mounted_once script _ Hs (mount_mounted_once props now)) as [Hc Hi].
  destruct Hi as [Hp|(p & _ & Hnf)]; [|congruence].
  destruct (run_quiet more _ Hm (conj Hp Hc)) as ([Hp' _] & Hcalls & Hem).
  done.
Qed.

(** ** Batches handed to the executor *)

Lemma batches_of_app evs1 evs2 : batches_of (evs1 ++ evs2) = batches_of evs1 ++ batches_of evs2.
Proof. apply omap_app. Qed.

Lemma emitted_stamp now evs : emitted (stamp now evs) = map (pair now) (batches_of evs).
Proof.
  unfold emitted, stamp, batches_of.
  induction evs as [|e evs IH]; [done|]. cbn. destruct e; cbn; by rewrite ?IH.
Qed.

Lemma batches_of_logs evs : forallb is_log evs = true -> batches_of evs = [].
Proof.
  induction evs as [|e evs IH]; [done|]. cbn. intros [He Hr]%andb_prop.
  destruct e; try done. by apply IH.
Qed.

Lemma task_fire_no_batch T now t : batches_of (fst (task_fire T now t)) = [].
Proof.
  unfold task_fire, observe, on_source_error, source_signal, finalize_log.
  by repeat (case_match; cbn).
Qed.

Lemma fire_all_no_batch T now act : batches_of (fst (fire_all T now act)) = [].
Proof.
  induction act as [|t act IH]; cbn; [done|].
  by rewrite batches_of_app, task_fire_no_batch, IH.
Qed.

Lemma start_waiting_no_batch h c T now buf :
  forall act, batches_of (events (start_waiting h c T now act buf)) = [].
Proof.
  induction buf as [|g buf IH]; intros act; cbn; [done|].
  destruct (N.of_nat (length act) <? c); [|done].
  destruct (h (payload g) (settings g)); cbn; [|done].
  by rewrite batches_of_app, task_fire_no_batch, IH.
Qed.

Lemma batch_tick_no_batch h c T now b : batches_of (events (batch_tick h c T now b)) = [].
Proof.
  unfold batch_tick. cbn. by rewrite batches_of_app, fire_all_no_batch, start_waiting_no_batch.
Qed.

Lemma batches_tick_no_batch h c T now bs : batches_of (events (batches_tick h c T now bs)) = [].
Proof.
  induction bs as [|b bs IH]; cbn; [done|].
  destruct (failed (batch_tick h c T now b)); cbn; [apply batch_tick_no_batch|].
  by rewrite batches_of_app, batch_tick_no_batch, IH.
Qed.

Lemma emit_batch_batches h c T now batch :
  batches_of (events (emit_batch h c T now batch)) = nonempty_batch batch.
Proof.
  unfold emit_batch. destruct batch as [|g batch]; [done|].
  cbn -[start_waiting]. by rewrite start_waiting_no_batch.
Qed.

Lemma stream_error_no_batch e bs : batches_of (stream_error e bs) = [].
Proof.
  apply batches_of_logs. destruct e; cbn; [|apply teardown_logs_is_log].
  apply forallb_app_true; [apply teardown_logs_is_log|done].
Qed.

Lemma settle_no_batch p : batches_of (fst (settle p)) = [].
Proof. unfold settle. destruct (source_done p); [|done]. by destruct (batches p). Qed.

(** Within one instant a subscription hands over nothing or what [filter]
    lets through of its open buffer. *)
Lemma flush_batches now p :
  batches_of (fst (flush now p)) = [] \/ batches_of (fst (flush now p)) = nonempty_batch (window p).
Proof.
  unfold flush. destruct (negb (source_done p) && (flush_at p <=? now)).
  - right. destruct (failed _); cbn;
      by rewrite ?batches_of_app, ?stream_error_no_batch, ?app_nil_r, emit_batch_batches.
  - left. apply settle_no_batch.
Qed.

Lemma pipeline_tick_batches now p :
  batches_of (fst (pipeline_tick now p)) = []
  \/ batches_of (fst (pipeline_tick now p)) = nonempty_batch (window p).
Proof.
  unfold pipeline_tick. destruct (failed _); cbn.
  - left. by rewrite batches_of_app, batches_tick_no_batch, stream_error_no_batch.
  - rewrite batches_of_app, batches_tick_no_batch.
    exact (flush_batches now (with_batches p (window p) (flush_at p) (source_done p) _)).
Qed.

Lemma bufferTime_complete_batches now p :
  batches_of (fst (bufferTime_complete now p)) = []
  \/ batches_of (fst (bufferTime_complete now p)) = nonempty_batch (window p).
Proof.
  unfold bufferTime_complete. destruct (source_done p); [by left|]. right.
  destruct (failed _); cbn;
    by rewrite batches_of_app, ?stream_error_no_batch, ?settle_no_batch, ?app_nil_r,
      emit_batch_batches, ?app_nil_r.
Qed.

Lemma nonempty_batch_nonempty w : Forall (fun b => b <> []) (nonempty_batch w).
Proof. destruct w; repeat constructor. done. Qed.

Lemma concat_batches_nonempty {A} (f : A -> list Event) (g : A -> list Group) (l : list A) :
  (forall x, batches_of (f x) = [] \/ batches_of (f x) = nonempty_batch (g x)) ->
  Forall (fun b => b <> []) (batches_of (concat (map f l))).
Proof.
  intros Hf. induction l as [|x l IH]; cbn; [constructor|].
  rewrite batches_of_app. apply Forall_app. split; [|done].
  destruct (Hf x) as [-> | ->]; [constructor|apply nonempty_batch_nonempty].
Qed.

Lemma concat_batches_empty {A} (f : A -> list Event) (g : A -> list Group) (l : list A) :
  (forall x, batches_of (f x) = [] \/ batches_of (f x) = nonempty_batch (g x)) ->
  Forall (fun x => g x = []) l ->
  batches_of (concat (map f l)) = [].
Proof.
  intros Hf. induction 1 as [|x l Hx _ IH]; cbn; [done|].
  rewrite batches_of_app, IH, app_nil_r.
  destruct (Hf x) as [-> | ->]; [done|]. by rewrite Hx.
Qed.


Lemma batches_nonempty_stamp tr now evs :
  batches_nonempty tr -> Forall (fun b => b <> []) (batches_of evs) ->
  batches_nonempty (tr ++ stamp now evs).
Proof.
  intros Htr Hevs. unfold batches_nonempty. rewrite emitted_app, emitted_stamp.
  apply Forall_app. split; [done|]. by apply Forall_fmap.
Qed.

Lemma batches_nonempty_logs tr now evs :
  batches_nonempty tr -> forallb is_log evs = true -> batches_nonempty (tr ++ stamp now evs).
Proof.
  intros Htr Hevs. apply batches_nonempty_stamp; [done|].
  rewrite batches_of_logs by done. constructor.
Qed.

Lemma tick_batches_nonempty st : batches_nonempty (trace st) -> batches_nonempty (trace (tick st)).
Proof.
  intros H. unfold tick. cbn. apply batches_nonempty_stamp; [done|].
  rewrite map_map. apply (concat_batches_nonempty _ window). intros p. apply pipeline_tick_batches.
Qed.

Lemma perform_batches_nonempty st a :
  batches_nonempty (trace st) -> batches_nonempty (trace (perform st a)).
Proof.
  intros H. destruct a as [props|pl s| |dt]; cbn [perform].
  - unfold mount. repeat case_match; cbn -[stamp]; [done| |done].
    by apply batches_nonempty_logs.
  - unfold processMessage. by repeat case_match.
  - unfold onDestroy, unsubscribe.
    assert (forall s ps, forallb is_log (Logged log_destroying ::
        flat_map (fun p => if decide (sid p = s) then teardown_logs (batches p) else []) ps) = true)
      as Hl.
    { intros s ps. cbn. induction ps as [|p ps IH]; [done|]. cbn.
      apply forallb_app_true; [|done]. case_match; [apply teardown_logs_is_log|done]. }
    destruct (subscription st) as [s|]; repeat case_match; cbn -[stamp];
      try (apply batches_nonempty_logs; [done|]; first [apply Hl|done]).
    + apply batches_nonempty_stamp; [by apply batches_nonempty_logs|].
      rewrite map_map. apply (concat_batches_nonempty _ window).
      intros p. apply bufferTime_complete_batches.
    + apply batches_nonempty_stamp; [by apply batches_nonempty_logs|].
      rewrite map_map. apply (concat_batches_nonempty _ window).
      intros p. apply bufferTime_complete_batches.
  - induction dt as [|dt IH] using N.peano_ind; [exact H|].
    rewrite advance_succ. by apply tick_batches_nonempty.
Qed.

Lemma run_batches_nonempty script st :
  batches_nonempty (trace st) -> batches_nonempty (trace (run script st)).
Proof.
  revert st. induction script as [|a script IH]; intros st H; [done|].
  rewrite run_cons. by apply IH, perform_batches_nonempty.
Qed.

(** C8. Whatever is done with a processor, every batch handed to the
    executor holds at least one group; and an instant at which every open
    buffer is empty hands nothing at all to the executor. *)
Theorem empty_window_emits_no_batch (now : N) (script : list Action) :
  Forall (fun tb => snd tb <> []) (emitted (trace (run script (create now))))
  /\ (Forall (fun p => window p = []) (pipelines (run script (create now))) ->
      emitted (trace (tick (run script (create now))))
      = emitted (trace (run script (create now)))).
Proof.
  split.
  - apply run_batches_nonempty. constructor.
  - intros Hw. unfold tick. cbn -[stamp].
    rewrite emitted_app, emitted_stamp, map_map.
    rewrite (concat_batches_empty _ window); [by rewrite app_nil_r| |done].
    intros p. apply pipeline_tick_batches.
Qed.

(** ** With a handler that never throws, the stream never fails *)

Section Asynchronous.
Variable h : Handler.
Variables c T : N.
Hypothesis h_async : asynchronous h.

Lemma start_waiting_async now buf : forall act, failed (start_waiting h c T now act buf) = None.
Proof.
  induction buf as [|g buf IH]; intros act; cbn; [done|].
  destruct (N.of_nat (length act) <? c); [|done].
  destruct (h (payload g) (settings g)) eqn:Hg; cbn; [apply IH|].
  by destruct (h_async _ _ _ Hg).
Qed.

Lemma batch_tick_async now b : failed (batch_tick h c T now b) = None.
Proof. unfold batch_tick. cbn. apply start_waiting_async. Qed.

Lemma batches_tick_async now bs : failed (batches_tick h c T now bs) = None.
Proof.
  induction bs as [|b bs IH]; cbn; [done|]. by rewrite batch_tick_async.
Qed.

Lemma emit_batch_async now batch : failed (emit_batch h c T now batch) = None.
Proof. unfold emit_batch. destruct batch; [done|]. cbn -[start_waiting]. apply start_waiting_async. Qed.

End Asynchronous.

(** One instant of a running subscription, seen from [bufferTime]: when the
    timer is due the open buffer is handed over (if it holds anything) and a
    new one is opened; otherwise the buffer is left alone. *)
Lemma pipeline_tick_running now p :
  source_done p = false -> asynchronous (p_onMessageReceive p) ->
  exists evs bs,
    pipeline_tick now p =
      (evs, Some (if flush_at p <=? now
                  then with_batches p [] (now + timer (p_batchTimeoutMs p)) false bs
                  else with_batches p (window p) (flush_at p) false bs))
    /\ batches_of evs = if flush_at p <=? now then nonempty_batch (window p) else [].
Proof.
  intros Hd Ha. unfold pipeline_tick. rewrite batches_tick_async by done.
  unfold flush. cbn [source_done flush_at with_batches window p_onMessageReceive
    p_maxConcurrency p_timeoutMs p_batchTimeoutMs batches]. rewrite Hd. cbn [negb andb].
  destruct (flush_at p <=? now).
  - rewrite emit_batch_async by done. cbn [fst snd]. eexists _, _. split; [reflexivity|].
    by rewrite batches_of_app, batches_tick_no_batch, emit_batch_batches.
  - unfold settle. cbn [source_done with_batches fst snd].
    eexists _, _. split; [reflexivity|].
    by rewrite batches_of_app, batches_tick_no_batch.
Qed.

Lemma tick_running st p :
  running st p ->
  exists bs,
    running (tick st)
      (if flush_at p <=? N.succ (clock st)
       then with_batches p [] (N.succ (clock st) + timer (p_batchTimeoutMs p)) false bs
       else with_batches p (window p) (flush_at p) false bs)
    /\ emitted (trace (tick st))
       = emitted (trace st) ++
         (if flush_at p <=? N.succ (clock st)
          then map (pair (N.succ (clock st))) (nonempty_batch (window p)) else []).
Proof.
  intros (Hp & Hd & Ha & Hc & Hs).
  destruct (pipeline_tick_running (N.succ (clock st)) p Hd Ha) as (evs & bs & Hk & Hb).
  destruct (tick_single st p Hp) as [Hp' Ht]. rewrite Hk in Hp', Ht.
  cbn [fst snd option_list] in Hp', Ht.
  exists bs. split.
  - unfold running. rewrite Hp'. by destruct (flush_at p <=? N.succ (clock st)).
  - rewrite Ht, emitted_app, emitted_stamp, Hb.
    by destruct (flush_at p <=? N.succ (clock st)).
Qed.

(** ** Batch formation *)

Lemma with_batches_eta p :
  source_done p = false ->
  with_batches p (window p) (flush_at p) false (batches p) = p.
Proof. intros <-. by destruct p. Qed.

Lemma running_eta st p :
  running st p -> running st (with_batches p (window p) (flush_at p) false (batches p)).
Proof. intros H. rewrite with_batches_eta; [done|]. by destruct H as (_ & ? & _). Qed.

(** Before the timer is due the open buffer is left alone. *)
Lemma advance_before_flush st p dt :
  running st p -> clock st + dt < flush_at p ->
  exists bs,
    running (advance dt st) (with_batches p (window p) (flush_at p) false bs)
    /\ emitted (trace (advance dt st)) = emitted (trace st).
Proof.
  intros Hr. induction dt as [|dt IH] using N.peano_ind; intros Hlt.
  - exists (batches p). split; [by apply running_eta|done].
  - destruct IH as (bs & Hr' & He); [lia|]. rewrite advance_succ.
    destruct (tick_running _ _ Hr') as (bs' & Hr'' & He').
    rewrite clock_advance in Hr'', He'. cbn [flush_at with_batches] in Hr'', He'.
    destruct (N.leb_spec (flush_at p) (N.succ (clock st + dt))) as [Hle|_]; [lia|].
    exists bs'. split; [exact Hr''|]. by rewrite He', app_nil_r.
Qed.

(** When the timer fires the open buffer becomes one batch, unless it is
    empty, and the next flush is a timer of [batchTimeoutMs] later. *)
Lemma advance_to_flush st p :
  running st p -> clock st < flush_at p ->
  exists bs,
    running (advance (flush_at p - clock st) st)
      (with_batches p [] (flush_at p + timer (p_batchTimeoutMs p)) false bs)
    /\ emitted (trace (advance (flush_at p - clock st) st))
       = emitted (trace st) ++ map (pair (flush_at p)) (nonempty_batch (window p)).
Proof.
  intros Hr Hlt.
  replace (flush_at p - clock st) with (N.succ (flush_at p - clock st - 1)) by lia.
  destruct (advance_before_flush st p (flush_at p - clock st - 1) Hr) as (bs & Hr' & He); [lia|].
  rewrite advance_succ. destruct (tick_running _ _ Hr') as (bs' & Hr'' & He').
  rewrite clock_advance in Hr'', He'. cbn [flush_at with_batches window p_batchTimeoutMs] in Hr'', He'.
  replace (N.succ (clock st + (flush_at p - clock st - 1))) with (flush_at p) in Hr'', He' by lia.
  rewrite N.leb_refl in Hr'', He'. exists bs'. split; [exact Hr''|]. by rewrite He', He.
Qed.

(** While nothing is submitted, nothing is handed over. *)
Lemma advance_idle st p dt :
  running st p -> window p = [] ->
  exists f bs,
    running (advance dt st) (with_batches p [] f false bs)
    /\ emitted (trace (advance dt st)) = emitted (trace st).
Proof.
  intros Hr Hw. induction dt as [|dt IH] using N.peano_ind.
  - exists (flush_at p), (batches p). split; [|done]. rewrite <- Hw. by apply running_eta.
  - destruct IH as (f & bs & Hr' & He). rewrite advance_succ.
    destruct (tick_running _ _ Hr') as (bs' & Hr'' & He').
    cbn [flush_at with_batches window p_batchTimeoutMs] in Hr'', He'.
    destruct (f <=? N.succ (clock (advance dt st))); eexists _, bs';
      (split; [exact Hr''|]); by rewrite He', app_nil_r.
Qed.

Lemma submit_running st p pl s :
  running st p ->
  running (perform st (Submit pl s))
    (with_batches p (window p ++ [group_of pl s]) (flush_at p) false (batches p))
  /\ trace (perform st (Submit pl s)) = trace st
  /\ clock (perform st (Submit pl s)) = clock st.
Proof.
  intros (Hp & Hd & Ha & Hc & Hs). cbn [perform]. unfold processMessage, running.
  rewrite Hc, Hs, Hp. cbn. unfold bufferTime_next. rewrite Hd. done.
Qed.

(** Everything submitted before the timer is due sits in the open buffer, in
    the order of submission. *)
Lemma run_ingest_before_flush script :
  forall st p,
    running st p -> ingest_only script = true -> clock st + span script < flush_at p ->
    exists bs,
      running (run script st)
        (with_batches p (window p ++ submitted script) (flush_at p) false bs)
      /\ clock (run script st) = clock st + span script
      /\ emitted (trace (run script st)) = emitted (trace st).
Proof.
  induction script as [|a script IH]; intros st p Hr Hi Hlt.
  - exists (batches p). cbn. rewrite app_nil_r, N.add_0_r. split; [by apply running_eta|done].
  - cbn in Hi. apply andb_prop in Hi as [Ha Hi]. rewrite run_cons.
    destruct a as [props|pl s| |dt]; [done| |done|].
    + destruct (submit_running st p pl s Hr) as (Hr' & Ht & Hc).
      destruct (IH _ _ Hr' Hi) as (bs & Hr'' & Hc' & He').
      { rewrite Hc. cbn in *. lia. }
      cbn [with_batches window flush_at] in Hr''. cbn [submitted span].
      rewrite <- app_assoc in Hr''. exists bs. split; [exact Hr''|].
      rewrite Hc', Hc, He', Ht. done.
    + cbn [span] in Hlt. cbn [perform].
      destruct (advance_before_flush st p dt Hr) as (bs & Hr' & He); [lia|].
      destruct (IH _ _ Hr' Hi) as (bs' & Hr'' & Hc' & He').
      { rewrite clock_advance. cbn. lia. }
      cbn [with_batches window flush_at] in Hr''. cbn [submitted span].
      exists bs'. split; [exact Hr''|]. rewrite Hc', clock_advance, He', He. split; [lia|done].
Qed.

(** C5, as the code has it.  The timer of [bufferTime] runs from [mount], not
    from the submissions.  Take a running processor whose next flush is at
    most one timer of [batchTimeoutMs] ahead.  All the groups submitted
    before that flush leave as one batch at the flush, together with what the
    buffer already held, in the order of submission.  And two submissions
    that are more than a timer of [batchTimeoutMs] apart go to different
    batches: the first has left with its batch when the second arrives in an
    empty buffer. *)
Theorem batches_follow_the_timer (st : BaileysMessageProcessor) (p : Pipeline)
    (script : list Action) (pl1 pl2 : MessageUpsertPayload) (s1 s2 : string) (gap : N) :
  running st p ->
  clock st < flush_at p ->
  flush_at p <= clock st + timer (p_batchTimeoutMs p) ->
  (ingest_only script = true ->
   clock st + span script < flush_at p ->
   emitted (trace (advance (flush_at p - (clock st + span script)) (run script st)))
   = emitted (trace st) ++ map (pair (flush_at p)) (nonempty_batch (window p ++ submitted script)))
  /\ (timer (p_batchTimeoutMs p) < gap ->
      (flush_at p, window p ++ [group_of pl1 s1])
        ∈ emitted (trace (run [Submit pl1 s1; Wait gap; Submit pl2 s2] st))
      /\ exists p',
           pipelines (run [Submit pl1 s1; Wait gap; Submit pl2 s2] st) = [p']
           /\ window p' = [group_of pl2 s2]).
Proof.
  intros Hr Hlt Hle. split.
  - intros Hi Hs.
    destruct (run_ingest_before_flush script st p Hr Hi Hs) as (bs & Hr' & Hc & He).
    destruct (advance_to_flush _ _ Hr') as (bs' & _ & He').
    { rewrite Hc. cbn. lia. }
    rewrite Hc in He'. cbn [flush_at with_batches window] in He'. by rewrite He', He.
  - intros Hg. rewrite !run_cons. cbn [run fold_left].
    destruct (submit_running st p pl1 s1 Hr) as (Hr1 & Ht1 & Hc1).
    set (st1 := perform st (Submit pl1 s1)) in *.
    set (p1 := with_batches p (window p ++ [group_of pl1 s1]) (flush_at p) false (batches p)) in *.
    destruct (advance_to_flush st1 p1 Hr1) as (bs2 & Hr2 & He2);
      [rewrite Hc1; unfold p1; cbn [flush_at with_batches]; lia|].
    unfold p1 in Hr2, He2. cbn [flush_at window p_batchTimeoutMs with_batches] in Hr2, He2.
    set (st2 := advance (flush_at p - clock st1) st1) in *.
    destruct (advance_idle st2 _ (gap - (flush_at p - clock st1)) Hr2) as (f & bs3 & Hr3 & He3);
      [done|].
    cbn [with_batches] in Hr3.
    assert (advance (gap - (flush_at p - clock st1)) st2 = perform st1 (Wait gap)) as Hadv.
    { cbn [perform]. unfold st2. rewrite <- advance_add. f_equal. lia. }
    rewrite Hadv in Hr3, He3.
    destruct (submit_running _ _ pl2 s2 Hr3) as (Hr4 & Ht4 & _).
    cbn [with_batches window flush_at batches] in Hr4. split.
    + rewrite Ht4, He3, He2, Ht1.
      assert (nonempty_batch (window p ++ [group_of pl1 s1]) = [window p ++ [group_of pl1 s1]]) as ->.
      { by destruct (window p). }
      cbn. apply elem_of_app. right. apply list_elem_of_singleton. done.
    + eexists. split; [apply Hr4|done].
Qed.

(** ** One group over time *)

Lemma fresh_task_timely T g now pr : timely T now (fresh_task g now pr).
Proof. unfold timely. cbn. lia. Qed.

Lemma fresh_task_deadline T g now pr :
  task_deadline T (fresh_task g now pr) = now + retry_take * (timer T + retry_delay).
Proof. unfold task_deadline, retry_take, retry_delay. cbn [fresh_task t_phase t_errors]. lia. Qed.

Ltac case_leb :=
  match goal with
  | |- context [?a <=? ?b] => destruct (N.leb_spec a b)
  | |- context [?a <? ?b] => destruct (N.ltb_spec a b)
  end.

(** A group that is still there after an instant has nothing overdue at the
    next one, its deadline did not move away, and the deadline is still
    ahead. *)
Lemma task_fire_timely T now t evs t' :
  timely T now t ->
  task_fire T now t = (evs, Some t') ->
  timely T (N.succ now) t'
  /\ task_deadline T t' <= task_deadline T t
  /\ now < task_deadline T t'
  /\ t_group t' = t_group t.
Proof.
  unfold timely, task_fire, observe, source_signal, on_source_error, task_deadline,
    retry_take, retry_delay.
  destruct t as [g called pr errs ph]. cbn [t_phase t_errors t_called t_promise t_group].
  intros Ht Hf. pose proof (timer_pos T) as HT.
  destruct ph as [since|until].
  - destruct (settled called pr now) as [[e|]|].
    + destruct e; [|done]. injection Hf as <- <-. cbn. repeat split; nia.
    + done.
    + destruct (N.leb_spec (since + timer T) now).
      * injection Hf as <- <-. cbn. repeat split; nia.
      * injection Hf as <- <-. cbn. repeat split; nia.
  - destruct (N.leb_spec until now).
    + destruct (N.ltb_spec errs 3); [|done]. cbn [with_phase t_called t_promise] in Hf.
      destruct (settled called pr now) as [[e|]|].
      * destruct e; [|done]. injection Hf as <- <-. cbn. repeat split; nia.
      * done.
      * destruct (N.leb_spec (now + timer T) now).
        -- injection Hf as <- <-. cbn. repeat split; nia.
        -- injection Hf as <- <-. cbn. repeat split; nia.
    + injection Hf as <- <-. cbn. repeat split; nia.
Qed.

(** Past its deadline no group is left. *)
Lemma task_fire_ends T now t :
  timely T now t -> task_deadline T t <= now -> snd (task_fire T now t) = None.
Proof.
  intros Ht Hd. destruct (task_fire T now t) as [evs [t'|]] eqn:Hf; [|done].
  destruct (task_fire_timely _ _ _ _ _ Ht Hf) as (_ & ? & ? & _). lia.
Qed.

(** A promise that fulfils before the timer of [timeoutMs] fires: nothing
    happens before it does, and when it does the group ends with
    [Succeeded]. *)
Lemma fresh_task_waits T g s d now :
  d <= timer T -> now < s + d ->
  task_fire T now (fresh_task g s (Resolves d)) = ([], Some (fresh_task g s (Resolves d))).
Proof.
  intros Hd Hn. unfold task_fire, observe, source_signal. cbn.
  destruct (N.leb_spec (s + d) now); [lia|].
  destruct (N.leb_spec (s + timer T) now); [lia|done].
Qed.

Lemma fresh_task_succeeds T g s d now :
  s + d <= now ->
  task_fire T now (fresh_task g s (Resolves d)) = ([TaskEnded g Succeeded], None).
Proof.
  intros Hn. unfold task_fire, observe, source_signal. cbn.
  destruct (N.leb_spec (s + d) now); [done|lia].
Qed.

(** ** Following one batch and one group through the executor *)

Lemma elem_of_stamp now e evs : e ∈ evs -> (now, e) ∈ stamp now evs.
Proof.
  unfold stamp. induction 1 as [e evs|e e' evs _ IH]; cbn; [left|by right].
Qed.

Lemma trace_tick_mono st x : x ∈ trace st -> x ∈ trace (tick st).
Proof. intros H. unfold tick. cbn -[stamp]. apply elem_of_app. by left. Qed.

Lemma trace_advance_mono dt st x : x ∈ trace st -> x ∈ trace (advance dt st).
Proof.
  intros H. induction dt as [|dt IH] using N.peano_ind; [done|].
  rewrite advance_succ. by apply trace_tick_mono.
Qed.

Lemma advance_succ_r dt st : advance (N.succ dt) st = advance dt (tick st).
Proof. apply N.iter_succ_r. Qed.

Section Membership.
Variable h : Handler.
Variables c T : N.

Lemma fire_all_member now t act :
  t ∈ act ->
  (forall e, e ∈ fst (task_fire T now t) -> e ∈ fst (fire_all T now act))
  /\ (forall t', snd (task_fire T now t) = Some t' -> t' ∈ snd (fire_all T now act)).
Proof.
  induction 1 as [t act|t t0 act _ [IH1 IH2]]; cbn; split.
  - intros e He. apply elem_of_app. by left.
  - intros t' ->. cbn. by left.
  - intros e He. apply elem_of_app. right. by apply IH1.
  - intros t' Ht'. apply elem_of_app. right. by apply IH2.
Qed.

Lemma start_waiting_member now buf :
  forall act t, t ∈ act -> t ∈ active (next (start_waiting h c T now act buf)).
Proof.
  induction buf as [|g buf IH]; intros act t Ht; cbn; [done|].
  destruct (N.of_nat (length act) <? c); [|done].
  destruct (h (payload g) (settings g)); cbn; [|done].
  apply IH. apply elem_of_app. by left.
Qed.

Lemma batch_tick_member now b t :
  t ∈ active b ->
  (forall e, e ∈ fst (task_fire T now t) -> e ∈ events (batch_tick h c T now b))
  /\ (forall t', snd (task_fire T now t) = Some t' ->
        t' ∈ active (next (batch_tick h c T now b))).
Proof.
  intros Ht. destruct (fire_all_member now t _ Ht) as [H1 H2]. unfold batch_tick. cbn. split.
  - intros e He. apply elem_of_app. left. by apply H1.
  - intros t' Ht'. apply start_waiting_member. by apply H2.
Qed.

Lemma active_not_done b t : t ∈ active b -> batch_done b = false.
Proof. unfold batch_done. by destruct 1. Qed.

Lemma waiting_not_done b g : g ∈ waiting b -> batch_done b = false.
Proof. unfold batch_done. destruct (active b); by destruct 1. Qed.

Hypothesis h_async : asynchronous h.

Lemma batches_tick_member now bs b :
  b ∈ bs ->
  (forall e, e ∈ events (batch_tick h c T now b) -> e ∈ events (batches_tick h c T now bs))
  /\ (batch_done (next (batch_tick h c T now b)) = false ->
      next (batch_tick h c T now b) ∈ next (batches_tick h c T now bs)).
Proof.
  induction 1 as [b bs|b b0 bs _ [IH1 IH2]]; cbn;
    rewrite (batch_tick_async h c T h_async); cbn; split.
  - intros e He. apply elem_of_app. by left.
  - intros Hd. apply elem_of_app. left. unfold keep_batch. rewrite Hd. by left.
  - intros e He. apply elem_of_app. right. by apply IH1.
  - intros Hd. apply elem_of_app. right. by apply IH2.
Qed.

End Membership.

(** One instant of a running subscription, in full. *)
Lemma pipeline_tick_running_eq now p :
  source_done p = false -> asynchronous (p_onMessageReceive p) ->
  pipeline_tick now p =
    (events (batches_tick (p_onMessageReceive p) (p_maxConcurrency p) (p_timeoutMs p) now (batches p))
     ++ (if flush_at p <=? now
         then events (emit_batch (p_onMessageReceive p) (p_maxConcurrency p) (p_timeoutMs p) now (window p))
         else []),
     Some (with_batches p
             (if flush_at p <=? now then [] else window p)
             (if flush_at p <=? now then now + timer (p_batchTimeoutMs p) else flush_at p)
             false
             (next (batches_tick (p_onMessageReceive p) (p_maxConcurrency p) (p_timeoutMs p) now (batches p))
              ++ (if flush_at p <=? now
                  then next (emit_batch (p_onMessageReceive p) (p_maxConcurrency p) (p_timeoutMs p) now (window p))
                  else [])))).
Proof.
  intros Hd Ha. unfold pipeline_tick. rewrite batches_tick_async by done.
  unfold flush. cbn [source_done flush_at with_batches window p_onMessageReceive
    p_maxConcurrency p_timeoutMs p_batchTimeoutMs batches]. rewrite Hd. cbn [negb andb].
  destruct (flush_at p <=? now).
  - rewrite emit_batch_async by done. done.
  - unfold settle. cbn [source_done with_batches fst snd]. by rewrite !app_nil_r.
Qed.

(** Every batch of a running subscription goes through [batch_tick] on its
    own: what it does is in the trace, and it is still there afterwards
    unless it is done. *)
Lemma tick_has_batch st p0 b :
  has_batch st p0 b ->
  (forall e,
     e ∈ events (batch_tick (p_onMessageReceive p0) (p_maxConcurrency p0) (p_timeoutMs p0)
                   (N.succ (clock st)) b) ->
     (N.succ (clock st), e) ∈ trace (tick st))
  /\ (batch_done (next (batch_tick (p_onMessageReceive p0) (p_maxConcurrency p0) (p_timeoutMs p0)
                          (N.succ (clock st)) b)) = false ->
      has_batch (tick st) p0
        (next (batch_tick (p_onMessageReceive p0) (p_maxConcurrency p0) (p_timeoutMs p0)
                 (N.succ (clock st)) b))).
Proof.
  intros (w & f & bs & Hr & Hb).
  pose proof Hr as (Hp & Hd & Ha & Hc & Hs).
  destruct (tick_single st _ Hp) as [Hp' Ht].
  rewrite (pipeline_tick_running_eq _ _ Hd Ha) in Hp', Ht.
  cbn [fst snd option_list with_batches p_onMessageReceive p_maxConcurrency p_timeoutMs
       p_batchTimeoutMs batches window flush_at] in Hp', Ht.
  destruct (batches_tick_member _ (p_maxConcurrency p0) (p_timeoutMs p0) Ha
              (N.succ (clock st)) bs b Hb) as [H1 H2].
  split.
  - intros e He. rewrite Ht. apply elem_of_app. right. apply elem_of_stamp.
    apply elem_of_app. left. by apply H1.
  - intros Hnd. eexists _, _, _. split.
    + unfold running. rewrite Hp'. by repeat split.
    + apply elem_of_app. left. by apply H2.
Qed.

(** Fault isolation, in general: a group in flight goes through [task_fire]
    on its own at every instant, whatever the other groups and batches do. *)
Lemma tick_in_flight st p0 t :
  in_flight st p0 t ->
  (forall e, e ∈ fst (task_fire (p_timeoutMs p0) (N.succ (clock st)) t) ->
     (N.succ (clock st), e) ∈ trace (tick st))
  /\ (forall t', snd (task_fire (p_timeoutMs p0) (N.succ (clock st)) t) = Some t' ->
        in_flight (tick st) p0 t').
Proof.
  intros (b & Hb & Ht).
  destruct (tick_has_batch st p0 b Hb) as [H1 H2].
  destruct (batch_tick_member (p_onMessageReceive p0) (p_maxConcurrency p0) (p_timeoutMs p0)
              (N.succ (clock st)) b t Ht) as [H3 H4].
  split.
  - intros e He. by apply H1, H3.
  - intros t' Ht'. eexists. split; [apply H2|by apply H4].
    eapply active_not_done. by apply H4.
Qed.

(** A group in flight whose promise fulfils before the timer of
    [timeoutMs] fires ends with [Succeeded] at the instant the promise
    fulfils. *)
Lemma in_flight_succeeds p0 g s d n :
  forall st,
    in_flight st p0 (fresh_task g s (Resolves d)) ->
    d <= timer (p_timeoutMs p0) ->
    s + d = clock st + N.succ n ->
    (s + d, TaskEnded g Succeeded) ∈ trace (advance (N.succ n) st).
Proof.
  induction n as [|n IH] using N.peano_ind; intros st Hf Hd Hn.
  - destruct (tick_in_flight st p0 _ Hf) as [H1 _].
    change (advance (N.succ 0) st) with (tick st). replace (s + d) with (N.succ (clock st)) by lia.
    apply H1. rewrite fresh_task_succeeds by lia. by left.
  - rewrite advance_succ_r. destruct (tick_in_flight st p0 _ Hf) as [_ H2].
    apply IH; [|done|cbn; lia]. apply H2. by rewrite fresh_task_waits by lia.
Qed.

(** ** A group whose handler succeeds, next to one whose handler does not *)

Lemma started_succeeds st p0 g d s dt :
  started st p0 g d s -> d <= timer (p_timeoutMs p0) -> s + d <= clock st + dt ->
  (s, Called g (Returns (Resolves d))) ∈ trace (advance dt st)
  /\ (s + d, TaskEnded g Succeeded) ∈ trace (advance dt st).
Proof.
  intros [Hc He] Hd Hdt. split; [by apply trace_advance_mono|].
  destruct He as [He|(Hs & Hpos & Hf)]; [by apply trace_advance_mono|].
  replace dt with ((dt - d) + N.succ (d - 1)) by lia. rewrite advance_add.
  apply trace_advance_mono. apply (in_flight_succeeds p0); [done|done|lia].
Qed.

Section Projection.
Variable h : Handler.
Variables c T : N.

(** A group projected while a slot is free. *)
Lemma start_one now act g d :
  N.of_nat (length act) < c ->
  h (payload g) (settings g) = Returns (Resolves d) ->
  d <= timer T ->
  Called g (Returns (Resolves d)) ∈ events (start_waiting h c T now act [g])
  /\ (d = 0 -> TaskEnded g Succeeded ∈ events (start_waiting h c T now act [g]))
  /\ (0 < d -> fresh_task g now (Resolves d) ∈ active (next (start_waiting h c T now act [g]))).
Proof.
  intros Hc Hg Hd. cbn. destruct (N.ltb_spec (N.of_nat (length act)) c); [|lia].
  rewrite Hg. cbn. fold (fresh_task g now (Resolves d)). split; [by left|]. split.
  - intros ->. rewrite fresh_task_succeeds by lia. cbn. right. by left.
  - intros Hpos. rewrite fresh_task_waits by lia. cbn. apply elem_of_app. right. by left.
Qed.

(** Two groups leave [bufferTime] together.  Either the second is projected
    at once, or the only slot is taken by the first, whose observable is
    bound to end. *)
Lemma start_pair now g1 g2 d :
  1 <= c -> asynchronous h ->
  h (payload g2) (settings g2) = Returns (Resolves d) -> d <= timer T ->
  (Called g2 (Returns (Resolves d)) ∈ events (start_waiting h c T now [] [g1; g2])
   /\ (d = 0 -> TaskEnded g2 Succeeded ∈ events (start_waiting h c T now [] [g1; g2]))
   /\ (0 < d -> fresh_task g2 now (Resolves d) ∈ active (next (start_waiting h c T now [] [g1; g2]))))
  \/ (c = 1
      /\ exists t1,
           next (start_waiting h c T now [] [g1; g2]) = {| active := [t1]; waiting := [g2] |}
           /\ timely T (N.succ now) t1
           /\ now < task_deadline T t1
           /\ task_deadline T t1 <= now + retry_take * (timer T + retry_delay)).
Proof.
  intros Hc Ha Hg Hd. cbn [start_waiting length]. destruct (N.ltb_spec (N.of_nat 0) c); [|lia].
  destruct (h (payload g1) (settings g1)) as [p1|e] eqn:Hg1; [|by destruct (Ha _ _ _ Hg1)].
  fold (fresh_task g1 now p1). cbn [app].
  destruct (task_fire T now (fresh_task g1 now p1)) as [evs1 [t1|]] eqn:Hf1; cbn [fst snd option_list].
  - destruct (task_fire_timely T now _ _ _ (fresh_task_timely T g1 now p1) Hf1) as (Ht & HD & Hlt & _).
    rewrite fresh_task_deadline in HD.
    destruct (N.ltb_spec 1 c) as [H2|H1].
    + left. destruct (start_one now [t1] g2 d) as (A1 & A2 & A3); [cbn; lia|done|done|].
      cbn [events next]. split; [|split].
      * right. apply elem_of_app. by right.
      * intros Hz. right. apply elem_of_app. right. by apply A2.
      * done.
    + right. split; [lia|]. exists t1. cbn [start_waiting].
      case_leb; [cbn in *; lia|]. by cbn.
  - left. destruct (start_one now [] g2 d) as (A1 & A2 & A3); [cbn; lia|done|done|].
    cbn [events next]. split; [|split].
    + right. apply elem_of_app. by right.
    + intros Hz. right. apply elem_of_app. right. by apply A2.
    + done.
Qed.

End Projection.

(** The tick at which the timer of [bufferTime] fires. *)
Lemma tick_flush st p0 w f bs :
  running st (with_batches p0 w f false bs) ->
  f <= N.succ (clock st) ->
  (forall e,
     e ∈ events (emit_batch (p_onMessageReceive p0) (p_maxConcurrency p0) (p_timeoutMs p0)
                   (N.succ (clock st)) w) ->
     (N.succ (clock st), e) ∈ trace (tick st))
  /\ (forall b,
        b ∈ next (emit_batch (p_onMessageReceive p0) (p_maxConcurrency p0) (p_timeoutMs p0)
                    (N.succ (clock st)) w) ->
        has_batch (tick st) p0 b).
Proof.
  intros Hr Hf. pose proof Hr as (Hp & Hd & Ha & Hc & Hs).
  destruct (tick_single st _ Hp) as [Hp' Ht].
  rewrite (pipeline_tick_running_eq _ _ Hd Ha) in Hp', Ht.
  cbn [fst snd option_list with_batches p_onMessageReceive p_maxConcurrency p_timeoutMs
       p_batchTimeoutMs batches window flush_at] in Hp', Ht.
  destruct (N.leb_spec f (N.succ (clock st))); [|lia]. split.
  - intros e He. rewrite Ht. apply elem_of_app. right. apply elem_of_stamp.
    apply elem_of_app. by right.
  - intros b Hb. eexists _, _, _. split.
    + unfold running. rewrite Hp'. by repeat split.
    + apply elem_of_app. by right.
Qed.

(** With a single slot, the group that waits behind another one is projected
    as soon as that one has ended, which happens by its deadline. *)
Lemma waiting_group_starts p0 g d :
  p_maxConcurrency p0 = 1 ->
  p_onMessageReceive p0 (payload g) (settings g) = Returns (Resolves d) ->
  d <= timer (p_timeoutMs p0) ->
  forall n st t1,
    has_batch st p0 {| active := [t1]; waiting := [g] |} ->
    timely (p_timeoutMs p0) (N.succ (clock st)) t1 ->
    task_deadline (p_timeoutMs p0) t1 <= clock st + N.succ n ->
    exists k, k <= n /\ started (advance (N.succ k) st) p0 g d (clock st + N.succ k).
Proof.
  intros Hc1 Hg Hd n.
  induction n as [|n IH] using N.peano_ind; intros st t1 Hb Ht HD;
    destruct (tick_has_batch st p0 _ Hb) as [He Hn];
    unfold batch_tick in He, Hn; cbn [active waiting fire_all events next] in He, Hn;
    rewrite !app_nil_r in He, Hn;
    destruct (task_fire (p_timeoutMs p0) (N.succ (clock st)) t1) as [evs1 [t1'|]] eqn:Hf1;
    cbn [fst snd option_list] in He, Hn.
  - pose proof (task_fire_ends _ _ _ Ht) as Hend. rewrite Hf1 in Hend.
    discriminate Hend. lia.
  - exists 0. split; [lia|]. change (advance (N.succ 0) st) with (tick st).
    replace (clock st + N.succ 0) with (N.succ (clock st)) by lia.
    destruct (start_one (p_onMessageReceive p0) (p_maxConcurrency p0) (p_timeoutMs p0)
                (N.succ (clock st)) [] g d) as (A1 & A2 & A3); [cbn; lia|done|done|].
    split.
    + apply He. apply elem_of_app. by right.
    + destruct (N.eq_dec d 0) as [->|Hnz].
      * left. rewrite N.add_0_r. apply He. apply elem_of_app. right. by apply A2.
      * right. split; [done|]. split; [lia|]. eexists. split; [apply Hn|apply A3; lia].
        eapply active_not_done. apply A3. lia.
  - destruct (task_fire_timely _ _ _ _ _ Ht Hf1) as (Ht' & HD' & Hlt & _).
    assert (has_batch (tick st) p0 {| active := [t1']; waiting := [g] |}) as Hb'.
    { revert Hn. cbn [start_waiting length]. rewrite Hc1. cbn. intros Hn. by apply Hn. }
    destruct (IH (tick st) t1' Hb' Ht') as (k & Hk & Hst); [cbn; lia|].
    exists (N.succ k). split; [lia|]. rewrite advance_succ_r.
    replace (clock st + N.succ (N.succ k)) with (clock (tick st) + N.succ k) by (cbn; lia).
    done.
  - exists 0. split; [lia|]. change (advance (N.succ 0) st) with (tick st).
    replace (clock st + N.succ 0) with (N.succ (clock st)) by lia.
    destruct (start_one (p_onMessageReceive p0) (p_maxConcurrency p0) (p_timeoutMs p0)
                (N.succ (clock st)) [] g d) as (A1 & A2 & A3); [cbn; lia|done|done|].
    split.
    + apply He. apply elem_of_app. by right.
    + destruct (N.eq_dec d 0) as [->|Hnz].
      * left. rewrite N.add_0_r. apply He. apply elem_of_app. right. by apply A2.
      * right. split; [done|]. split; [lia|]. eexists. split; [apply Hn|apply A3; lia].
        eapply active_not_done. apply A3. lia.
Qed.

(** X24. Fault isolation for failures of the promise.  Two groups [g1] and
    [g2] leave [bufferTime] in the same batch, the handler fulfils its
    promise for [g2] before the timer of [timeoutMs] fires, and whatever it
    does for [g1] (reject, never settle, ...) it returns a promise.  Then the
    handler is called for [g2] and [g2] ends with [Succeeded] exactly when
    its promise fulfils.  With two slots or more [g2] is called at the flush
    itself; with a single slot it is called once [g1] has given the slot
    back, which takes no longer than the retries of [g1] can last.  And any
    group already in flight goes on by its own step at the next instant,
    whatever the others do: what it does is recorded and, unless it has
    ended, it is still in flight. *)
Theorem failing_group_is_isolated (st : BaileysMessageProcessor) (p : Pipeline)
    (g1 g2 : Group) (d : N) :
  running st p ->
  clock st < flush_at p ->
  window p = [g1; g2] ->
  1 <= p_maxConcurrency p ->
  p_onMessageReceive p (payload g2) (settings g2) = Returns (Resolves d) ->
  d <= timer (p_timeoutMs p) ->
  (exists s,
     flush_at p <= s
     /\ s <= flush_at p + retry_take * (timer (p_timeoutMs p) + retry_delay)
     /\ (2 <= p_maxConcurrency p -> s = flush_at p)
     /\ forall dt,
          s + d <= clock st + dt ->
          (s, Called g2 (Returns (Resolves d))) ∈ trace (advance dt st)
          /\ (s + d, TaskEnded g2 Succeeded) ∈ trace (advance dt st))
  /\ (forall t,
        in_flight st p t ->
        (forall e,
           e ∈ fst (task_fire (p_timeoutMs p) (N.succ (clock st)) t) ->
           (N.succ (clock st), e) ∈ trace (tick st))
        /\ (forall t',
              snd (task_fire (p_timeoutMs p) (N.succ (clock st)) t) = Some t' ->
              in_flight (tick st) p t')).
Proof.
  intros Hr Hlt Hw Hc Hg Hd. split; [|intros t Ht; by apply tick_in_flight].
  pose proof Hr as (_ & _ & Ha & _).
  destruct (advance_before_flush st p (flush_at p - clock st - 1) Hr) as (bs & Hr1 & _); [lia|].
  set (st1 := advance (flush_at p - clock st - 1) st) in *.
  assert (N.succ (clock st1) = flush_at p) as Hclk.
  { unfold st1. rewrite clock_advance. lia. }
  assert (tick st1 = advance (flush_at p - clock st) st) as Htick.
  { unfold st1. rewrite <- advance_succ. f_equal. lia. }
  rewrite Hw in Hr1.
  destruct (tick_flush st1 p _ _ _ Hr1) as [He Hb]; [lia|].
  rewrite Hclk in He, Hb. unfold emit_batch in He, Hb. cbn [events next] in He, Hb.
  destruct (start_pair (p_onMessageReceive p) (p_maxConcurrency p) (p_timeoutMs p)
              (flush_at p) g1 g2 d Hc Ha Hg Hd)
    as [(A1 & A2 & A3)|(Hc1 & t1 & Hk & Ht1 & Hlt1 & HD1)].
  - exists (flush_at p). split; [lia|]. split; [unfold retry_take; lia|]. split; [done|].
    intros dt Hdt.
    assert (started (tick st1) p g2 d (flush_at p)) as Hst.
    { split; [apply He; right; right; exact A1|].
      destruct (N.eq_dec d 0) as [->|Hnz].
      - left. rewrite N.add_0_r. apply He. right. right. by apply A2.
      - right. split; [cbn; lia|]. split; [lia|]. eexists. split; [|apply A3; lia].
        apply Hb. unfold keep_batch. erewrite active_not_done; [by left|]. apply A3. lia. }
    replace dt with ((dt - (flush_at p - clock st)) + (flush_at p - clock st)) by lia.
    rewrite advance_add, <- Htick.
    apply (started_succeeds _ p); [done|done|]. cbn [clock tick]. lia.
  - assert (has_batch (tick st1) p {| active := [t1]; waiting := [g2] |}) as Hb1.
    { apply Hb. rewrite Hk. by left. }
    destruct (waiting_group_starts p g2 d Hc1 Hg Hd
                (task_deadline (p_timeoutMs p) t1 - flush_at p - 1) (tick st1) t1 Hb1)
      as (k & Hk' & Hst).
    { cbn [clock tick]. by rewrite Hclk. }
    { cbn [clock tick]. lia. }
    cbn [clock tick] in Hst. rewrite Hclk in Hst.
    exists (flush_at p + N.succ k). split; [lia|]. split; [lia|]. split; [lia|].
    intros dt Hdt.
    replace dt with ((dt - (N.succ k + (flush_at p - clock st)))
                     + (N.succ k + (flush_at p - clock st))) by lia.
    rewrite advance_add, (advance_add (N.succ k)), <- Htick.
    apply (started_succeeds _ p); [done|done|].
    rewrite clock_advance. cbn [clock tick]. lia.
Qed.

(** ** Timeouts *)

Lemma in_flight_intro st p b t :
  running st p -> b ∈ batches p -> t ∈ active b -> in_flight st p t.
Proof.
  intros Hr Hb Ht. exists b. split; [|done].
  exists (window p), (flush_at p), (batches p). split; [by apply running_eta|done].
Qed.



(** ** What the concurrency limit does bound *)

Lemma fire_all_length T now act :
  (length (snd (fire_all T now act)) <= length act)%nat.
Proof.
  induction act as [|t act IH]; cbn; [done|].
  rewrite length_app. destruct (snd (task_fire T now t)); cbn; lia.
Qed.

Lemma start_waiting_slots h c T now buf :
  forall act,
    N.of_nat (length act) <= c ->
    within_slots c (next (start_waiting h c T now act buf)).
Proof.
  unfold within_slots.
  induction buf as [|g buf IH]; intros act Hle; cbn; [done|].
  destruct (N.ltb_spec (N.of_nat (length act)) c); [|done].
  destruct (h (payload g) (settings g)); cbn; [|done].
  apply IH. rewrite length_app.
  destruct (snd (task_fire T now _)); cbn; lia.
Qed.

Lemma batch_tick_slots h c T now b :
  within_slots c b -> within_slots c (next (batch_tick h c T now b)).
Proof.
  unfold batch_tick. cbn. intros Hb. apply start_waiting_slots.
  pose proof (fire_all_length T now (active b)). unfold within_slots in Hb. lia.
Qed.

Lemma keep_batch_slots c b : within_slots c b -> Forall (within_slots c) (keep_batch b).
Proof. intros Hb. unfold keep_batch. destruct (batch_done b); by repeat constructor. Qed.

Lemma batches_tick_slots h c T now bs :
  Forall (within_slots c) bs ->
  Forall (within_slots c) (next (batches_tick h c T now bs)).
Proof.
  induction 1 as [|b bs Hb Hbs IH]; cbn; [constructor|].
  destruct (failed (batch_tick h c T now b)); cbn.
  - constructor; [by apply batch_tick_slots|done].
  - apply Forall_app. split; [|done]. by apply keep_batch_slots, batch_tick_slots.
Qed.

Lemma emit_batch_slots h c T now batch :
  Forall (within_slots c) (next (emit_batch h c T now batch)).
Proof.
  unfold emit_batch. destruct batch as [|g batch]; [constructor|]. cbn -[start_waiting].
  apply keep_batch_slots, start_waiting_slots. cbn. lia.
Qed.

Lemma pipeline_tick_slots now p p' :
  slots_respected p -> snd (pipeline_tick now p) = Some p' -> slots_respected p'.
Proof.
  unfold slots_respected, pipeline_tick. intros Hp.
  pose proof (batches_tick_slots (p_onMessageReceive p) (p_maxConcurrency p) (p_timeoutMs p)
                now _ Hp) as Hb.
  destruct (failed _); [done|]. cbn [snd]. unfold flush.
  cbn [source_done flush_at with_batches window p_onMessageReceive p_maxConcurrency
       p_timeoutMs p_batchTimeoutMs batches].
  destruct (negb (source_done p) && (flush_at p <=? now)).
  - destruct (failed _); [done|]. intros [= <-]. cbn. apply Forall_app. split; [done|].
    apply emit_batch_slots.
  - unfold settle. cbn [source_done with_batches batches].
    destruct (source_done p); [|intros [= <-]; exact Hb].
    destruct (next _) eqn:Hn; [done|]. intros [= <-]. exact Hb.
Qed.

Lemma bufferTime_complete_slots now p p' :
  slots_respected p -> snd (bufferTime_complete now p) = Some p' -> slots_respected p'.
Proof.
  unfold slots_respected, bufferTime_complete. intros Hp.
  destruct (source_done p); [by intros [= <-]|].
  destruct (failed _); [done|]. cbn [snd]. unfold settle. cbn [source_done with_batches batches].
  destruct (batches p ++ _) eqn:Hn; [done|]. intros [= <-]. cbn. rewrite <- Hn.
  apply Forall_app. split; [done|]. apply emit_batch_slots.
Qed.

Lemma omap_slots (f : Pipeline -> list Event * option Pipeline) ps :
  (forall p p', slots_respected p -> snd (f p) = Some p' -> slots_respected p') ->
  Forall slots_respected ps ->
  Forall slots_respected (omap snd (map f ps)).
Proof.
  intros Hf. induction 1 as [|p ps Hp _ IH]; cbn; [constructor|].
  destruct (snd (f p)) eqn:Hk; [|done]. constructor; [by eapply Hf|done].
Qed.

Lemma perform_slots st a :
  Forall slots_respected (pipelines st) -> Forall slots_respected (pipelines (perform st a)).
Proof.
  intros H. destruct a as [props|pl s| |dt]; cbn [perform].
  - unfold mount. repeat case_match; cbn; [done|done|].
    apply Forall_app. split; [done|]. repeat constructor.
  - unfold processMessage. repeat case_match; cbn; [done|done|].
    induction H as [|p ps Hp _ IH]; cbn; [constructor|]. constructor; [|done].
    unfold bufferTime_next. by destruct (source_done p).
  - assert (Forall slots_respected (snd (unsubscribe st))) as Hu.
    { unfold unsubscribe. destruct (subscription st); [|done]. cbn.
      apply Forall_forall. intros p [_ Hp]%list_elem_of_filter.
      by apply (proj1 (Forall_forall _ _) H). }
    unfold onDestroy. repeat case_match; cbn -[unsubscribe]; [done|done|].
    apply omap_slots; [|done]. intros p p'. apply bufferTime_complete_slots.
  - induction dt as [|dt IH] using N.peano_ind; [exact H|].
    rewrite advance_succ. unfold tick. cbn.
    apply omap_slots; [|done]. intros p p'. apply pipeline_tick_slots.
Qed.

(** X18. Within each batch the limit holds, whatever is done with the
    processor; it is across batches that it does not. *)
Lemma slots_respected_per_batch script now :
  Forall slots_respected (pipelines (run script (create now))).
Proof.
  assert (forall st, Forall slots_respected (pipelines st) ->
                     Forall slots_respected (pipelines (run script st))) as H.
  { induction script as [|a script IH]; intros st Hst; [done|].
    rewrite run_cons. by apply IH, perform_slots. }
  apply H. constructor.
Qed.

(** ** How often the handler is called *)

#[local] Arguments backlog : simpl never.

Lemma called_of_app evs1 evs2 : called_of (evs1 ++ evs2) = called_of evs1 ++ called_of evs2.
Proof. apply omap_app. Qed.

Lemma calls_stamp now evs : length (calls (stamp now evs)) = length (called_of evs).
Proof.
  unfold calls, stamp, called_of.
  induction evs as [|e evs IH]; [done|]. cbn. destruct e; cbn; by rewrite ?IH.
Qed.

Lemma called_of_logs evs : forallb is_log evs = true -> called_of evs = [].
Proof.
  induction evs as [|e evs IH]; [done|]. cbn. intros [He Hr]%andb_prop.
  destruct e; try done. by apply IH.
Qed.

Lemma task_fire_no_call T now t : called_of (fst (task_fire T now t)) = [].
Proof.
  unfold task_fire, observe, on_source_error, source_signal, finalize_log.
  by repeat (case_match; cbn).
Qed.

Lemma fire_all_no_call T now act : called_of (fst (fire_all T now act)) = [].
Proof.
  induction act as [|t act IH]; cbn; [done|].
  by rewrite called_of_app, task_fire_no_call, IH.
Qed.

(** Every group taken out of the queue is one call of the handler. *)
Lemma start_waiting_calls h c T now buf :
  forall act,
    (length (called_of (events (start_waiting h c T now act buf)))
     + length (waiting (next (start_waiting h c T now act buf))) = length buf)%nat.
Proof.
  induction buf as [|g buf IH]; intros act; cbn; [done|].
  destruct (N.of_nat (length act) <? c); [|done].
  destruct (h (payload g) (settings g)); cbn; [|done].
  rewrite called_of_app, task_fire_no_call. cbn. by rewrite IH.
Qed.

#[local] Arguments called_of : simpl never.
#[local] Arguments calls : simpl never.

Lemma batch_tick_calls h c T now b :
  (length (called_of (events (batch_tick h c T now b)))
   + length (waiting (next (batch_tick h c T now b))) = length (waiting b))%nat.
Proof.
  unfold batch_tick. cbn. rewrite called_of_app, fire_all_no_call. cbn.
  apply start_waiting_calls.
Qed.

Lemma backlog_app bs1 bs2 : backlog (bs1 ++ bs2) = (backlog bs1 + backlog bs2)%nat.
Proof. unfold backlog. by rewrite flat_map_app, length_app. Qed.

Lemma backlog_cons b bs : backlog (b :: bs) = (length (waiting b) + backlog bs)%nat.
Proof. unfold backlog. cbn. by rewrite length_app. Qed.

Lemma backlog_keep b : backlog (keep_batch b) = length (waiting b).
Proof.
  unfold keep_batch, batch_done, backlog. destruct b as [act w]. cbn.
  destruct act, w; cbn; rewrite ?app_nil_r; done.
Qed.

Lemma batches_tick_calls h c T now bs :
  (length (called_of (events (batches_tick h c T now bs)))
   + backlog (next (batches_tick h c T now bs)) = backlog bs)%nat.
Proof.
  induction bs as [|b bs IH]; cbn [batches_tick]; [done|].
  pose proof (batch_tick_calls h c T now b) as Hb.
  destruct (failed (batch_tick h c T now b)); cbn [events next].
  - rewrite !backlog_cons. lia.
  - rewrite called_of_app, length_app, backlog_app, backlog_keep, backlog_cons. lia.
Qed.

Lemma emit_batch_calls h c T now batch :
  (length (called_of (events (emit_batch h c T now batch)))
   + backlog (next (emit_batch h c T now batch)) = length batch)%nat.
Proof.
  unfold emit_batch. destruct batch as [|g batch]; [done|]. cbn -[start_waiting].
  rewrite backlog_keep. apply start_waiting_calls.
Qed.

Lemma stream_error_no_call e bs : called_of (stream_error e bs) = [].
Proof.
  apply called_of_logs. unfold stream_error. destruct e; cbn; [|apply teardown_logs_is_log].
  apply forallb_app_true; [apply teardown_logs_is_log|done].
Qed.

Lemma settle_calls p :
  called_of (fst (settle p)) = []
  /\ (sum_list_with pending (option_list (snd (settle p))) <= pending p)%nat.
Proof.
  unfold settle. destruct (source_done p); [|cbn; split; [done|lia]].
  destruct (batches p); cbn; split; [done|lia|done|lia].
Qed.

(** Calls made plus groups still held never exceed the groups held before:
    no group is handed to the handler twice. *)
Lemma flush_calls now p :
  (length (called_of (fst (flush now p)))
   + sum_list_with pending (option_list (snd (flush now p))) <= pending p)%nat.
Proof.
  unfold flush. destruct (negb (source_done p) && (flush_at p <=? now)).
  - pose proof (emit_batch_calls (p_onMessageReceive p) (p_maxConcurrency p) (p_timeoutMs p)
                  now (window p)) as He.
    destruct (failed _); cbn.
    + rewrite called_of_app, stream_error_no_call, app_nil_r. unfold pending. lia.
    + unfold pending. cbn. rewrite backlog_app. lia.
  - destruct (settle_calls p) as [-> Hs]. cbn. lia.
Qed.

Lemma pipeline_tick_calls now p :
  (length (called_of (fst (pipeline_tick now p)))
   + sum_list_with pending (option_list (snd (pipeline_tick now p))) <= pending p)%nat.
Proof.
  unfold pipeline_tick.
  pose proof (batches_tick_calls (p_onMessageReceive p) (p_maxConcurrency p) (p_timeoutMs p)
                now (batches p)) as Hb.
  destruct (failed _); cbn.
  - rewrite called_of_app, stream_error_no_call, app_nil_r. unfold pending. lia.
  - pose proof (flush_calls now
        (with_batches p (window p) (flush_at p) (source_done p)
           (next (batches_tick (p_onMessageReceive p) (p_maxConcurrency p) (p_timeoutMs p)
                    now (batches p))))) as Hf.
    rewrite called_of_app, length_app. unfold pending in *.
    cbn [window batches with_batches] in Hf. lia.
Qed.

Lemma bufferTime_complete_calls now p :
  (length (called_of (fst (bufferTime_complete now p)))
   + sum_list_with pending (option_list (snd (bufferTime_complete now p))) <= pending p)%nat.
Proof.
  unfold bufferTime_complete. destruct (source_done p); [unfold called_of; cbn; lia|].
  pose proof (emit_batch_calls (p_onMessageReceive p) (p_maxConcurrency p) (p_timeoutMs p)
                now (window p)) as He.
  destruct (failed _); cbn.
  - rewrite called_of_app, stream_error_no_call, app_nil_r. unfold pending. lia.
  - destruct (settle_calls (with_batches p [] (flush_at p) true
        (batches p ++ next (emit_batch (p_onMessageReceive p) (p_maxConcurrency p)
                              (p_timeoutMs p) now (window p))))) as [Hc Hs].
    rewrite called_of_app, Hc, app_nil_r. unfold pending in *.
    cbn [window batches with_batches length] in Hs. rewrite backlog_app in Hs. lia.
Qed.

Lemma concat_calls (f : Pipeline -> list Event * option Pipeline) ps :
  (forall p, (length (called_of (fst (f p)))
              + sum_list_with pending (option_list (snd (f p))) <= pending p)%nat) ->
  (length (called_of (concat (map fst (map f ps))))
   + sum_list_with pending (omap snd (map f ps)) <= sum_list_with pending ps)%nat.
Proof.
  intros Hf. induction ps as [|p ps IH]; cbn; [done|].
  rewrite called_of_app, length_app. specialize (Hf p).
  destruct (snd (f p)); cbn in *; lia.
Qed.

Lemma tick_calls st :
  (length (calls (trace (tick st))) + pending_all (tick st)
   <= length (calls (trace st)) + pending_all st)%nat.
Proof.
  unfold tick, pending_all. cbn -[stamp].
  rewrite calls_app, length_app, calls_stamp.
  pose proof (concat_calls (pipeline_tick (N.succ (clock st))) (pipelines st)
                (pipeline_tick_calls (N.succ (clock st)))). lia.
Qed.

Lemma perform_calls st a :
  mounted_once st -> is_mount a = false ->
  (length (calls (trace (perform st a))) + pending_all (perform st a)
   <= length (calls (trace st)) + pending_all st + length (submitted [a]))%nat.
Proof.
  intros Hm Ha. destruct a as [props|pl s| |dt]; [done| | |]; cbn [perform submitted length].
  - destruct Hm as [Hc [Hp|(p & [Hp _] & _)]].
    + rewrite processMessage_quiet by done. cbn. lia.
    + unfold processMessage, pending_all. rewrite Hc.
      destruct (isStopped (messageSubject st)); cbn; [lia|]. rewrite Hp. cbn.
      unfold bufferTime_next, pending. destruct (source_done p); cbn; [lia|].
      rewrite length_app. cbn. lia.
  - pose proof (mounted_once_owned _ Hm) as Ho. destruct Hm as [Hc _].
    destruct (onDestroy_owned st Ho Hc) as (_ & [Hp _] & _ & -> & _).
    unfold pending_all. rewrite Hp. cbn. lia.
  - clear Ha Hm. induction dt as [|dt IH] using N.peano_ind; [cbn; lia|].
    rewrite advance_succ. pose proof (tick_calls (advance dt st)). lia.
Qed.

(** X19. Mounted once, the processor calls the handler at most once for
    each group it was given, whatever the handler answers: a rejected or
    timed-out group is never handed to the handler again. *)
Lemma handler_called_at_most_once_per_group props now script :
  mount_free script = true ->
  (length (calls (trace (run script (snd (mount props (create now))))))
   <= length (submitted script))%nat.
Proof.
  intros Hfree.
  assert (forall st, mounted_once st ->
            (length (calls (trace (run script st))) + pending_all (run script st)
             <= length (calls (trace st)) + pending_all st + length (submitted script))%nat) as H.
  { revert Hfree. induction script as [|a script IH]; intros Hfree st Hm; [cbn; lia|].
    cbn in Hfree. apply andb_prop in Hfree as [Ha Hfree]. apply negb_true_iff in Ha.
    rewrite run_cons. pose proof (perform_calls st a Hm Ha) as Hp.
    specialize (IH Hfree _ (perform_mounted_once st a Ha Hm)).
    assert (length (submitted (a :: script))
            = (length (submitted [a]) + length (submitted script))%nat) as ->.
    { destruct a; cbn; lia. }
    lia. }
  specialize (H _ (mount_mounted_once props now)).
  change (length (calls (trace (mount props (create now)).2))) with 0%nat in H.
  change (pending_all (mount props (create now)).2) with 0%nat in H. lia.
Qed.

(** ** The scenarios, run *)

Lemma table_handler_asynchronous tbl : asynchronous (table_handler tbl).
Proof. intros pl s e. done. Qed.

(** C1, on the code: with [maxConcurrency = 1] and a handler that takes 1.5 s,
    two groups submitted one second apart lie in two batches, the handler is
    called for the second while the call for the first is still running, and
    at 2200 ms two calls execute at once. *)
Lemma two_batches_exceed_maxConcurrency :
  config_of (snd (mount single_slot_props (create 0))) = [(1, 30000, 1000, 1000)]
  /\ calls (trace two_batches)
     = [(1000, group_of (payload_of "slow") "a", Returns (Resolves 1500));
        (2000, group_of (payload_of "slow") "b", Returns (Resolves 1500))]
  /\ concurrency (trace two_batches) 2200 = 2%nat.
Proof. by vm_compute. Qed.

(** C2, on the code: a handler that rejects is called once for its group.
    The three retries subscribe to the promise of that one call again, one
    second apart, and then the failure is logged once. *)
Lemma rejecting_handler_is_called_once :
  calls (trace (rejected_group default_props))
  = [(1000, group_of (payload_of "bad") "", Returns (Rejects 2 (ErrorWith "boom")))]
  /\ logs (trace (rejected_group default_props))
     = [(1000, log_processing_batch 1);
        (1002, warn_retrying "boom");
        (2002, warn_retrying "boom");
        (3002, warn_retrying "boom");
        (4002, error_failed_after_retries)].
Proof. by vm_compute. Qed.

(** C3 fails as stated: after [onDestroy], [processMessage] returns normally,
    without an error, and leaves no mark on the processor. *)
Lemma submit_after_destroy_is_silent :
  processMessage (payload_of "late") "" destroyed = (Returned, destroyed).
Proof. by vm_compute. Qed.

(** C4, on the code: the handler throws on the first of two groups of a
    batch instead of returning a rejected promise.  The error leaves the
    projection of [mergeMap] outside the inner [catchError] and ends the
    whole stream: the handler is never called for the second group, no group
    ends, and the subscription is gone.  When the promise of the first group
    is rejected instead, the second group is called at the same flush and
    ends with [Succeeded] one millisecond later. *)
Lemma throwing_group_stops_its_neighbour :
  trace thrown_beside
  = [(1000, Emitted [group_of (payload_of "throw") ""; group_of (payload_of "ok") ""]);
     (1000, Logged (log_processing_batch 2));
     (1000, Called (group_of (payload_of "throw") "") (Throws (ErrorWith "sync")));
     (1000, Logged (error_critical "sync"));
     (1000, Logged log_completed)]
  /\ pipelines thrown_beside = []
  /\ calls (trace rejected_beside)
     = [(1000, group_of (payload_of "bad") "", Returns (Rejects 2 (ErrorWith "boom")));
        (1000, group_of (payload_of "ok") "", Returns (Resolves 1))]
  /\ ended (trace rejected_beside)
     = [(1001, group_of (payload_of "ok") "", Succeeded);
        (4002, group_of (payload_of "bad") "", Exhausted)].
Proof. by vm_compute. Qed.

(** C5 fails as stated: two submissions 2 ms apart, the default window being
    1000 ms, end up in two batches when a flush falls between them. *)
Lemma close_submissions_can_be_split :
  emitted (trace across_the_flush)
  = [(1000, [group_of (payload_of "a") ""]); (2000, [group_of (payload_of "b") ""])].
Proof. by vm_compute. Qed.

(** C7 fails as stated: with [maxRetryAttempts: 1] and [retryDelayMs: 10] on
    the object given to [mount], a rejected group is still retried three
    times, one second apart, exactly as without them. *)
Lemma retry_settings_are_not_read :
  options retry_props !! "maxRetryAttempts" = Some 1
  /\ options retry_props !! "retryDelayMs" = Some 10
  /\ trace (rejected_group retry_props) = trace (rejected_group default_props)
  /\ logs (trace (rejected_group retry_props))
     = [(1000, log_processing_batch 1);
        (1002, warn_retrying "boom");
        (2002, warn_retrying "boom");
        (3002, warn_retrying "boom");
        (4002, error_failed_after_retries)].
Proof. by vm_compute. Qed.

(** ** The theorems at concrete inputs *)

Lemma submit_before_mount_is_dropped_witness :
  mount_free [Wait 5] = true
  /\ processMessage (payload_of "early") "" (run [Wait 5] (create 0))
     = (Returned, run [Wait 5] (create 0))
  /\ run [Mount default_props; Wait 2000]
       (perform (run [Wait 5] (create 0)) (Submit (payload_of "early") ""))
     = run [Mount default_props; Wait 2000] (run [Wait 5] (create 0)).
Proof.
  split; [reflexivity|].
  apply (submit_before_mount_is_dropped 0 [Wait 5] [Mount default_props; Wait 2000]).
  reflexivity.
Defined.

Lemma destroyed_processor_drops_submissions_witness :
  owned (run [Mount default_props; Wait 5; Submit (payload_of "ok") ""] (create 0)) = true
  /\ closed (messageSubject
       (run [Mount default_props; Wait 5; Submit (payload_of "ok") ""] (create 0))) = false
  /\ processMessage (payload_of "late") ""
       (run [Submit (payload_of "x") ""; Wait 3000; Mount default_props; Wait 3000] destroyed)
     = (Returned,
        run [Submit (payload_of "x") ""; Wait 3000; Mount default_props; Wait 3000] destroyed)
  /\ calls (trace
       (run [Submit (payload_of "x") ""; Wait 3000; Mount default_props; Wait 3000] destroyed))
     = calls (trace
         (run [Mount default_props; Wait 5; Submit (payload_of "ok") ""] (create 0)))
  /\ emitted (trace
       (run [Submit (payload_of "x") ""; Wait 3000; Mount default_props; Wait 3000] destroyed))
     = emitted (trace
         (run [Mount default_props; Wait 5; Submit (payload_of "ok") ""] (create 0))).
Proof.
  split; [reflexivity|]. split; [reflexivity|].
  apply (destroyed_processor_drops_submissions
           (run [Mount default_props; Wait 5; Submit (payload_of "ok") ""] (create 0))
           [Submit (payload_of "x") ""; Wait 3000; Mount default_props; Wait 3000]
           (payload_of "late") ""); reflexivity.
Defined.

Lemma stream_failure_halts_processor_witness :
  mount_free [Submit (payload_of "throw") ""; Wait 1000] = true
  /\ stream_failed
       (trace (run [Submit (payload_of "throw") ""; Wait 1000]
                 (snd (mount throwing_props (create 0))))) = true
  /\ mount_free [Submit (payload_of "ok") ""; Wait 5000] = true
  /\ pipelines (run [Submit (payload_of "throw") ""; Wait 1000]
                  (snd (mount throwing_props (create 0)))) = []
  /\ pipelines (run [Submit (payload_of "ok") ""; Wait 5000]
                  (run [Submit (payload_of "throw") ""; Wait 1000]
                     (snd (mount throwing_props (create 0))))) = []
  /\ calls (trace (run [Submit (payload_of "ok") ""; Wait 5000]
                     (run [Submit (payload_of "throw") ""; Wait 1000]
                        (snd (mount throwing_props (create 0))))))
     = calls (trace (run [Submit (payload_of "throw") ""; Wait 1000]
                       (snd (mount throwing_props (create 0)))))
  /\ emitted (trace (run [Submit (payload_of "ok") ""; Wait 5000]
                       (run [Submit (payload_of "throw") ""; Wait 1000]
                          (snd (mount throwing_props (create 0))))))
     = emitted (trace (run [Submit (payload_of "throw") ""; Wait 1000]
                         (snd (mount throwing_props (create 0))))).
Proof.
  split; [reflexivity|]. split; [by vm_compute|]. split; [reflexivity|].
  apply (stream_failure_halts_processor 0 throwing_props
           [Submit (payload_of "throw") ""; Wait 1000]
           [Submit (payload_of "ok") ""; Wait 5000]); [reflexivity|by vm_compute|reflexivity].
Defined.

Lemma empty_window_emits_no_batch_witness :
  Forall (fun p => window p = [])
    (pipelines (run [Mount default_props; Submit (payload_of "a") ""; Wait 1000] (create 0)))
  /\ emitted (trace (tick
       (run [Mount default_props; Submit (payload_of "a") ""; Wait 1000] (create 0))))
     = emitted (trace
         (run [Mount default_props; Submit (payload_of "a") ""; Wait 1000] (create 0))).
Proof.
  assert (Forall (fun p => window p = [])
            (pipelines (run [Mount default_props; Submit (payload_of "a") ""; Wait 1000]
                          (create 0)))) as Hw.
  { vm_compute. repeat constructor. }
  split; [exact Hw|].
  exact (proj2 (empty_window_emits_no_batch 0
                  [Mount default_props; Submit (payload_of "a") ""; Wait 1000]) Hw).
Defined.

Lemma mounted_running : running mounted mounted_pipeline.
Proof.
  split; [reflexivity|]. split; [reflexivity|].
  split; [apply table_handler_asynchronous|]. split; reflexivity.
Defined.

Lemma batches_follow_the_timer_witness :
  running mounted mounted_pipeline
  /\ clock mounted < flush_at mounted_pipeline
  /\ flush_at mounted_pipeline <= clock mounted + timer (p_batchTimeoutMs mounted_pipeline)
  /\ ingest_only [Wait 100; Submit (payload_of "a") ""; Wait 200; Submit (payload_of "b") ""] = true
  /\ clock mounted
     + span [Wait 100; Submit (payload_of "a") ""; Wait 200; Submit (payload_of "b") ""]
     < flush_at mounted_pipeline
  /\ timer (p_batchTimeoutMs mounted_pipeline) < 1001
  /\ emitted (trace (advance
       (flush_at mounted_pipeline
        - (clock mounted
           + span [Wait 100; Submit (payload_of "a") ""; Wait 200; Submit (payload_of "b") ""]))
       (run [Wait 100; Submit (payload_of "a") ""; Wait 200; Submit (payload_of "b") ""] mounted)))
     = emitted (trace mounted)
       ++ map (pair (flush_at mounted_pipeline))
            (nonempty_batch
               (window mounted_pipeline
                ++ submitted [Wait 100; Submit (payload_of "a") ""; Wait 200;
                              Submit (payload_of "b") ""]))
  /\ (flush_at mounted_pipeline, window mounted_pipeline ++ [group_of (payload_of "a") ""])
       ∈ emitted (trace (run [Submit (payload_of "a") ""; Wait 1001; Submit (payload_of "b") ""]
                           mounted))
  /\ exists p',
       pipelines (run [Submit (payload_of "a") ""; Wait 1001; Submit (payload_of "b") ""] mounted)
       = [p']
       /\ window p' = [group_of (payload_of "b") ""].
Proof.
  assert (clock mounted < flush_at mounted_pipeline) as Hlt by reflexivity.
  assert (flush_at mounted_pipeline <= clock mounted + timer (p_batchTimeoutMs mounted_pipeline))
    as Hle by (vm_compute; discriminate).
  assert (timer (p_batchTimeoutMs mounted_pipeline) < 1001) as Hg by reflexivity.
  assert (clock mounted
          + span [Wait 100; Submit (payload_of "a") ""; Wait 200; Submit (payload_of "b") ""]
          < flush_at mounted_pipeline) as Hs by reflexivity.
  destruct (batches_follow_the_timer mounted mounted_pipeline
              [Wait 100; Submit (payload_of "a") ""; Wait 200; Submit (payload_of "b") ""]
              (payload_of "a") (payload_of "b") "" "" 1001 mounted_running Hlt Hle)
    as [HA HB].
  split; [exact mounted_running|]. split; [exact Hlt|]. split; [exact Hle|].
  split; [reflexivity|]. split; [exact Hs|]. split; [exact Hg|].
  split; [exact (HA eq_refl Hs)|]. exact (HB Hg).
Defined.

Lemma pair_running : running pair_submitted pair_pipeline.
Proof.
  split; [reflexivity|]. split; [reflexivity|].
  split; [apply table_handler_asynchronous|]. split; reflexivity.
Defined.

Lemma failing_group_is_isolated_witness :
  running pair_submitted pair_pipeline
  /\ clock pair_submitted < flush_at pair_pipeline
  /\ window pair_pipeline = [group_of (payload_of "bad") ""; group_of (payload_of "ok") ""]
  /\ 1 <= p_maxConcurrency pair_pipeline
  /\ p_onMessageReceive pair_pipeline (payload (group_of (payload_of "ok") ""))
       (settings (group_of (payload_of "ok") "")) = Returns (Resolves 1)
  /\ 1 <= timer (p_timeoutMs pair_pipeline)
  /\ (exists s,
        flush_at pair_pipeline <= s
        /\ s <= flush_at pair_pipeline
                + retry_take * (timer (p_timeoutMs pair_pipeline) + retry_delay)
        /\ (2 <= p_maxConcurrency pair_pipeline -> s = flush_at pair_pipeline)
        /\ forall dt,
             s + 1 <= clock pair_submitted + dt ->
             (s, Called (group_of (payload_of "ok") "") (Returns (Resolves 1)))
               ∈ trace (advance dt pair_submitted)
             /\ (s + 1, TaskEnded (group_of (payload_of "ok") "") Succeeded)
                  ∈ trace (advance dt pair_submitted))
  /\ (forall t,
        in_flight pair_submitted pair_pipeline t ->
        (forall e,
           e ∈ fst (task_fire (p_timeoutMs pair_pipeline) (N.succ (clock pair_submitted)) t) ->
           (N.succ (clock pair_submitted), e) ∈ trace (tick pair_submitted))
        /\ (forall t',
              snd (task_fire (p_timeoutMs pair_pipeline) (N.succ (clock pair_submitted)) t)
              = Some t' ->
              in_flight (tick pair_submitted) pair_pipeline t')).
Proof.
  assert (clock pair_submitted < flush_at pair_pipeline) as H1 by reflexivity.
  assert (1 <= p_maxConcurrency pair_pipeline) as H2 by (vm_compute; discriminate).
  assert (1 <= timer (p_timeoutMs pair_pipeline)) as H3 by (vm_compute; discriminate).
  split; [exact pair_running|]. split; [exact H1|]. split; [reflexivity|].
  split; [exact H2|]. split; [reflexivity|]. split; [exact H3|].
  exact (failing_group_is_isolated pair_submitted pair_pipeline
           (group_of (payload_of "bad") "") (group_of (payload_of "ok") "") 1
           pair_running H1 eq_refl H2 eq_refl H3).
Defined.

Lemma hanging_running : running hanging hanging_pipeline.
Proof.
  split; [by vm_compute|]. split; [reflexivity|].
  split; [apply table_handler_asynchronous|]. split; reflexivity.
Defined.



(** * Further properties of the processor *)

#[local] Arguments called_groups : simpl never.

(** ** The queue of the inner [mergeMap] *)

Lemma called_groups_app evs1 evs2 :
  called_groups (evs1 ++ evs2) = called_groups evs1 ++ called_groups evs2.
Proof. unfold called_groups. by rewrite called_of_app, map_app. Qed.

Lemma called_groups_called g r evs :
  called_groups (Called g r :: evs) = g :: called_groups evs.
Proof. reflexivity. Qed.

Lemma called_groups_none evs : called_of evs = [] -> called_groups evs = [].
Proof. unfold called_groups. by intros ->. Qed.

Lemma start_waiting_order h c T now buf :
  forall act,
    called_groups (events (start_waiting h c T now act buf))
    ++ waiting (next (start_waiting h c T now act buf)) = buf.
Proof.
  induction buf as [|g buf IH]; intros act; cbn [start_waiting]; [done|].
  destruct (N.of_nat (length act) <? c); [|done].
  destruct (h (payload g) (settings g)); cbn [events next waiting]; [|done].
  rewrite called_groups_called, called_groups_app.
  rewrite (called_groups_none _ (task_fire_no_call _ _ _)). cbn [app]. by rewrite IH.
Qed.

Lemma batch_tick_order h c T now b :
  called_groups (events (batch_tick h c T now b)) ++ waiting (next (batch_tick h c T now b))
  = waiting b.
Proof.
  unfold batch_tick. cbn [events next]. rewrite called_groups_app.
  rewrite (called_groups_none _ (fire_all_no_call _ _ _)). apply start_waiting_order.
Qed.

Lemma emit_batch_order h c T now batch :
  called_groups (events (emit_batch h c T now batch))
  ++ flat_map waiting (next (emit_batch h c T now batch))
  = batch.
Proof.
  unfold emit_batch. destruct batch as [|g batch]; [done|].
  pose proof (start_waiting_order h c T now (g :: batch) []) as Ho.
  set (k := start_waiting h c T now [] (g :: batch)) in *. cbn [events next].
  change (called_groups (Emitted (g :: batch)
            :: Logged (log_processing_batch (length (g :: batch))) :: events k))
    with (called_groups (events k)).
  unfold keep_batch, batch_done. destruct (next k) as [act w]. cbn [active waiting] in *.
  destruct act, w; cbn [flat_map waiting app]; rewrite ?app_nil_r in *; exact Ho.
Qed.

(** X1. Groups are handed to the handler in the order they arrived: when a
    batch enters the executor, and at every later instant of a batch, the
    groups the handler is called for followed by the groups left in the
    queue are exactly the queue as it was.  Nothing is dropped, doubled or
    reordered there, also when the handler throws. *)
Theorem queue_is_first_in_first_out (h : Handler) (c T now : N) (b : Batch)
    (batch : list Group) :
  called_groups (events (batch_tick h c T now b)) ++ waiting (next (batch_tick h c T now b))
  = waiting b
  /\ called_groups (events (emit_batch h c T now batch))
     ++ flat_map waiting (next (emit_batch h c T now batch))
     = batch.
Proof.
  split.
  - apply batch_tick_order.
  - apply emit_batch_order.
Qed.

(** ** The batcher *)

Lemma delivered_app tr1 tr2 : delivered (tr1 ++ tr2) = delivered tr1 ++ delivered tr2.
Proof. unfold delivered. by rewrite emitted_app, map_app, concat_app. Qed.

Lemma concat_nonempty_batch (now : N) (w : list Group) :
  concat (map snd (map (pair now) (nonempty_batch w))) = w.
Proof. destruct w; cbn; by rewrite ?app_nil_r. Qed.

(** Induction over runs made of [processMessage] and waiting, for a property
    that may depend on the groups submitted so far. *)
Lemma ingest_induction (Inv : list Group -> BaileysMessageProcessor -> Pipeline -> Prop) :
  (forall L st p, running st p -> Inv L st p ->
     exists p', running (tick st) p' /\ Inv L (tick st) p') ->
  (forall L st p pl s, running st p -> Inv L st p ->
     exists p', running (perform st (Submit pl s)) p'
                /\ Inv (L ++ [group_of pl s]) (perform st (Submit pl s)) p') ->
  forall script L st p,
    ingest_only script = true -> running st p -> Inv L st p ->
    exists p', running (run script st) p' /\ Inv (L ++ submitted script) (run script st) p'.
Proof.
  intros Htick Hsub. induction script as [|a script IH]; intros L st p Hi Hr HI.
  - exists p. cbn. by rewrite app_nil_r.
  - cbn in Hi. apply andb_prop in Hi as [Ha Hi]. rewrite run_cons.
    destruct a as [props|pl s| |dt]; [done| |done|].
    + destruct (Hsub L st p pl s Hr HI) as (p1 & Hr1 & HI1).
      destruct (IH _ _ _ Hi Hr1 HI1) as (p2 & Hr2 & HI2).
      exists p2. split; [done|]. cbn [submitted]. by rewrite <- app_assoc in HI2.
    + assert (exists p1, running (advance dt st) p1 /\ Inv L (advance dt st) p1)
        as (p1 & Hr1 & HI1).
      { clear Ha. induction dt as [|dt IHdt] using N.peano_ind; [by exists p|].
        destruct IHdt as (p1 & Hr1 & HI1). rewrite advance_succ. by eapply Htick. }
      destruct (IH _ _ _ Hi Hr1 HI1) as (p2 & Hr2 & HI2). by exists p2.
Qed.

(** X2. As long as the processor runs, [bufferTime] neither loses nor
    doubles nor reorders a group: after any run of submissions and waiting,
    the groups of the batches handed over so far, followed by the groups in
    the open buffer, are the groups handed over and buffered before followed
    by the groups submitted, in the order of submission. *)
Theorem batcher_loses_nothing (st : BaileysMessageProcessor) (p : Pipeline)
    (script : list Action) :
  running st p ->
  ingest_only script = true ->
  exists p',
    running (run script st) p'
    /\ delivered (trace (run script st)) ++ window p'
       = delivered (trace st) ++ window p ++ submitted script.
Proof.
  intros Hr Hi.
  set (Inv := fun (L : list Group) (st' : BaileysMessageProcessor) (p' : Pipeline) =>
                delivered (trace st') ++ window p' = L).
  assert (forall L st1 p1, running st1 p1 -> Inv L st1 p1 ->
            exists p', running (tick st1) p' /\ Inv L (tick st1) p') as Htick.
  { intros L st1 p1 Hr1 HI1. destruct (tick_running st1 p1 Hr1) as (bs & Hr2 & He).
    eexists. split; [exact Hr2|]. unfold Inv, delivered in *. rewrite He, map_app, concat_app.
    destruct (flush_at p1 <=? N.succ (clock st1)); cbn [window with_batches].
    - by rewrite concat_nonempty_batch, app_nil_r.
    - cbn. by rewrite app_nil_r. }
  assert (forall L st1 p1 pl s, running st1 p1 -> Inv L st1 p1 ->
            exists p', running (perform st1 (Submit pl s)) p'
                       /\ Inv (L ++ [group_of pl s]) (perform st1 (Submit pl s)) p') as Hsub.
  { intros L st1 p1 pl s Hr1 HI1. destruct (submit_running st1 p1 pl s Hr1) as (Hr2 & Ht & _).
    eexists. split; [exact Hr2|]. unfold Inv in *. rewrite Ht. cbn [window with_batches].
    by rewrite app_assoc, HI1. }
  destruct (ingest_induction Inv Htick Hsub script (delivered (trace st) ++ window p) st p
              Hi Hr eq_refl) as (p' & Hr' & HI').
  exists p'. split; [done|]. unfold Inv in HI'. by rewrite HI', app_assoc.
Qed.

Lemma mount_running props now :
  asynchronous (onMessageReceive props) ->
  exists p,
    running (snd (mount props (create now))) p
    /\ window p = []
    /\ p_batchTimeoutMs p = default 1000 (options props !! "batchTimeoutMs")
    /\ flush_at p = now + timer (default 1000 (options props !! "batchTimeoutMs")).
Proof.
  intros Ha. eexists. split.
  - split; [reflexivity|]. split; [reflexivity|]. split; [exact Ha|]. split; reflexivity.
  - done.
Qed.

(** X3. The batches of a mounted processor leave on a fixed grid, the one of
    the timer of [batchTimeoutMs]: every batch handed to the executor is
    stamped [mount time + k * timer batchTimeoutMs] for some [k >= 1],
    whenever the submissions were made.  The period is [batchTimeoutMs]
    itself from 1 to [2^31 - 1], and one millisecond otherwise. *)
Theorem batches_leave_on_the_grid (props : MountProps) (now : N) (script : list Action) :
  asynchronous (onMessageReceive props) ->
  ingest_only script = true ->
  Forall (fun tb =>
            on_grid now (timer (default 1000 (options props !! "batchTimeoutMs"))) (fst tb))
    (emitted (trace (run script (snd (mount props (create now)))))).
Proof.
  intros Ha Hi. set (W0 := default 1000 (options props !! "batchTimeoutMs")) in *.
  pose proof (timer_pos W0) as HW. set (W := timer W0) in *.
  destruct (mount_running props now Ha) as (p0 & Hr0 & _ & HW0 & Hf0). fold W0 in HW0, Hf0.
  fold W in Hf0.
  set (Inv := fun (_ : list Group) (st' : BaileysMessageProcessor) (p' : Pipeline) =>
                p_batchTimeoutMs p' = W0
                /\ on_grid now W (flush_at p')
                /\ clock st' < flush_at p'
                /\ Forall (fun tb => on_grid now W (fst tb)) (emitted (trace st'))).
  assert (forall L st1 p1, running st1 p1 -> Inv L st1 p1 ->
            exists p', running (tick st1) p' /\ Inv L (tick st1) p') as Htick.
  { intros L st1 p1 Hr1 (HW1 & (k & Hk & Hg) & Hlt & HF).
    destruct (tick_running st1 p1 Hr1) as (bs & Hr2 & He).
    eexists. split; [exact Hr2|]. unfold Inv. rewrite He.
    destruct (N.leb_spec (flush_at p1) (N.succ (clock st1))) as [Hdue|Hnot];
      cbn [p_batchTimeoutMs flush_at with_batches clock tick].
    - assert (N.succ (clock st1) = flush_at p1) as Hnow by lia. rewrite Hnow.
      split; [done|]. split; [exists (N.succ k); rewrite HW1; fold W; split; lia|].
      split; [rewrite HW1; fold W; lia|]. apply Forall_app. split; [done|].
      destruct (window p1); repeat constructor. cbn. by exists k.
    - split; [done|]. split; [by exists k|]. split; [lia|]. by rewrite app_nil_r. }
  assert (forall L st1 p1 pl s, running st1 p1 -> Inv L st1 p1 ->
            exists p', running (perform st1 (Submit pl s)) p'
                       /\ Inv (L ++ [group_of pl s]) (perform st1 (Submit pl s)) p') as Hsub.
  { intros L st1 p1 pl s Hr1 (HW1 & Hg & Hlt & HF).
    destruct (submit_running st1 p1 pl s Hr1) as (Hr2 & Ht & Hc).
    eexists. split; [exact Hr2|]. unfold Inv. rewrite Ht, Hc. by cbn. }
  destruct (ingest_induction Inv Htick Hsub script [] _ p0 Hi Hr0)
    as (p' & _ & _ & _ & _ & HF); [|exact HF].
  split; [done|]. split; [exists 1; rewrite Hf0; split; lia|].
  split; [|constructor]. rewrite Hf0. cbn. lia.
Qed.

(** ** One group in flight, over time *)

(** A group in flight for which nothing is due before [target] does at
    [target] what [task_fire] says, whatever else happens meanwhile. *)
Lemma in_flight_next_event_aux p0 t target n :
  forall st,
    in_flight st p0 t ->
    target = clock st + N.succ n ->
    (forall now, clock st < now -> now < target ->
       task_fire (p_timeoutMs p0) now t = ([], Some t)) ->
    clock (advance (N.succ n) st) = target
    /\ (forall e, e ∈ fst (task_fire (p_timeoutMs p0) target t) ->
          (target, e) ∈ trace (advance (N.succ n) st))
    /\ (forall t', snd (task_fire (p_timeoutMs p0) target t) = Some t' ->
          in_flight (advance (N.succ n) st) p0 t').
Proof.
  induction n as [|n IH] using N.peano_ind; intros st Hf Ht Hidle.
  - change (advance (N.succ 0) st) with (tick st).
    destruct (tick_in_flight st p0 t Hf) as [H1 H2].
    replace target with (N.succ (clock st)) by lia. by repeat split.
  - rewrite advance_succ_r. apply IH.
    + destruct (tick_in_flight st p0 t Hf) as [_ H2]. apply H2.
      rewrite Hidle; [done|lia|lia].
    + cbn [clock tick]. lia.
    + intros now H1 H2. apply Hidle; [|done]. cbn [clock tick] in H1. lia.
Qed.

Lemma in_flight_next_event p0 t target st :
  in_flight st p0 t ->
  clock st < target ->
  (forall now, clock st < now -> now < target ->
     task_fire (p_timeoutMs p0) now t = ([], Some t)) ->
  clock (advance (target - clock st) st) = target
  /\ (forall e, e ∈ fst (task_fire (p_timeoutMs p0) target t) ->
        (target, e) ∈ trace (advance (target - clock st) st))
  /\ (forall t', snd (task_fire (p_timeoutMs p0) target t) = Some t' ->
        in_flight (advance (target - clock st) st) p0 t').
Proof.
  intros Hf Hlt Hidle.
  replace (target - clock st) with (N.succ (target - clock st - 1)) by lia.
  apply in_flight_next_event_aux; [done|lia|done].
Qed.

Lemma task_fire_end_event T now t :
  snd (task_fire T now t) = None ->
  exists o, TaskEnded (t_group t) o ∈ fst (task_fire T now t).
Proof.
  unfold task_fire, observe, on_source_error, source_signal.
  repeat (case_match; cbn [fst snd with_phase t_group]); intros Hn; try discriminate Hn;
    eexists; first [by left | right; by left].
Qed.

Lemma in_flight_ends_aux p0 n :
  forall st t,
    in_flight st p0 t ->
    timely (p_timeoutMs p0) (N.succ (clock st)) t ->
    task_deadline (p_timeoutMs p0) t <= clock st + N.succ n ->
    exists k o,
      k <= n
      /\ (clock st + N.succ k, TaskEnded (t_group t) o) ∈ trace (advance (N.succ k) st).
Proof.
  induction n as [|n IH] using N.peano_ind; intros st t Hf Ht HD;
    destruct (tick_in_flight st p0 t Hf) as [H1 H2];
    destruct (task_fire (p_timeoutMs p0) (N.succ (clock st)) t) as [evs [t'|]] eqn:Hfire.
  - pose proof (task_fire_ends _ _ _ Ht) as Hend. rewrite Hfire in Hend.
    discriminate Hend. lia.
  - destruct (task_fire_end_event (p_timeoutMs p0) (N.succ (clock st)) t) as [o Ho];
      [by rewrite Hfire|].
    exists 0, o. split; [lia|]. change (advance (N.succ 0) st) with (tick st).
    replace (clock st + N.succ 0) with (N.succ (clock st)) by lia.
    apply H1. by rewrite Hfire in Ho.
  - destruct (task_fire_timely _ _ _ _ _ Ht Hfire) as (Ht' & HD' & _ & Hg).
    destruct (IH (tick st) t') as (k & o & Hk & He); [by apply H2|done|cbn; lia|].
    exists (N.succ k), o. split; [lia|]. rewrite advance_succ_r, <- Hg.
    replace (clock st + N.succ (N.succ k)) with (clock (tick st) + N.succ k) by (cbn; lia).
    done.
  - destruct (task_fire_end_event (p_timeoutMs p0) (N.succ (clock st)) t) as [o Ho];
      [by rewrite Hfire|].
    exists 0, o. split; [lia|]. change (advance (N.succ 0) st) with (tick st).
    replace (clock st + N.succ 0) with (N.succ (clock st)) by lia.
    apply H1. by rewrite Hfire in Ho.
Qed.

(** X4. No group holds its slot for ever.  A group in flight with nothing
    overdue ends (with [Succeeded], [Swallowed] or [Exhausted]) no later than
    its deadline, whatever its promise does, a promise that never settles
    included; for a group just called, at [s], the deadline is
    [s + 3 * (timer timeoutMs + 1000)], the timer of [timeoutMs] being
    [timeoutMs] itself from 1 to [2^31 - 1] and one millisecond otherwise. *)
Theorem group_in_flight_ends (st : BaileysMessageProcessor) (p : Pipeline) (b : Batch)
    (t : Task) :
  running st p ->
  b ∈ batches p ->
  t ∈ active b ->
  timely (p_timeoutMs p) (N.succ (clock st)) t ->
  (exists k o,
     clock st + N.succ k <= N.max (task_deadline (p_timeoutMs p) t) (N.succ (clock st))
     /\ (clock st + N.succ k, TaskEnded (t_group t) o) ∈ trace (advance (N.succ k) st))
  /\ (forall g s pr,
        task_deadline (p_timeoutMs p) (fresh_task g s pr)
        = s + 3 * (timer (p_timeoutMs p) + 1000)).
Proof.
  intros Hr Hb Ht Htimely. split; [|intros g s pr; apply fresh_task_deadline].
  destruct (in_flight_ends_aux p (task_deadline (p_timeoutMs p) t - clock st - 1) st t)
    as (k & o & Hk & He); [by eapply in_flight_intro|done|lia|].
  exists k, o. split; [lia|done].
Qed.

(** What a group does at an instant when its promise has already rejected
    with an error carrying a message and a delay elapses. *)
Lemma retry_of_rejected T t d m until :
  t_promise t = Rejects d (ErrorWith m) ->
  t_called t + d <= until ->
  t_phase t = Delaying until ->
  task_fire T until t =
    if t_errors t <? retry_take
    then ([Logged (warn_retrying m)],
          Some (with_phase t (N.succ (t_errors t)) (Delaying (until + retry_delay))))
    else ([TaskEnded (t_group t) Exhausted; Logged error_failed_after_retries], None).
Proof.
  intros Hp Hd Hph. unfold task_fire, observe, source_signal, settled. rewrite Hph, N.leb_refl.
  destruct (t_errors t <? retry_take); [|done].
  cbn [with_phase t_called t_promise]. rewrite Hp.
  destruct (N.leb_spec (t_called t + d) until); [|lia]. done.
Qed.

Lemma delayed_idle T t until now :
  t_phase t = Delaying until -> now < until -> task_fire T now t = ([], Some t).
Proof.
  intros Hph Hlt. unfold task_fire. rewrite Hph.
  destruct (N.leb_spec until now); [lia|done].
Qed.

(** X5. The retries of a rejected group are one second apart, however often
    it failed before: the handler's rejection (with an error carrying message
    [m], before the timer of [timeoutMs] fires) is logged as a warning when
    it happens and again
    1000 ms and 2000 ms later, and 3000 ms later the group ends with
    [Exhausted] and the failure is logged. *)
Theorem rejected_group_is_retried_every_second (st : BaileysMessageProcessor) (p : Pipeline)
    (b : Batch) (g : Group) (s d : N) (m : string) :
  running st p ->
  b ∈ batches p ->
  fresh_task g s (Rejects d (ErrorWith m)) ∈ active b ->
  clock st < s + d ->
  d <= timer (p_timeoutMs p) ->
  (s + d, Logged (warn_retrying m)) ∈ trace (advance (s + d + 3000 - clock st) st)
  /\ (s + d + 1000, Logged (warn_retrying m)) ∈ trace (advance (s + d + 3000 - clock st) st)
  /\ (s + d + 2000, Logged (warn_retrying m)) ∈ trace (advance (s + d + 3000 - clock st) st)
  /\ (s + d + 3000, TaskEnded g Exhausted) ∈ trace (advance (s + d + 3000 - clock st) st)
  /\ (s + d + 3000, Logged error_failed_after_retries)
       ∈ trace (advance (s + d + 3000 - clock st) st).
Proof.
  intros Hr Hb Ht Hlt Hd. pose proof (in_flight_intro st p b _ Hr Hb Ht) as Hf0.
  set (T := p_timeoutMs p) in *. set (t0 := fresh_task g s (Rejects d (ErrorWith m))) in *.
  (* the rejection *)
  destruct (in_flight_next_event p t0 (s + d) st Hf0 Hlt) as (Hc1 & He1 & Hf1).
  { intros now _ Hn. unfold task_fire, observe, source_signal. cbn.
    destruct (N.leb_spec (s + d) now); [lia|].
    destruct (N.leb_spec (s + timer (p_timeoutMs p)) now); [unfold T in *; lia|done]. }
  set (st1 := advance (s + d - clock st) st) in *.
  assert (task_fire T (s + d) t0
          = ([Logged (warn_retrying m)],
             Some (with_phase t0 1 (Delaying (s + d + retry_delay))))) as Hfire1.
  { unfold task_fire, observe, source_signal. cbn. by rewrite N.leb_refl. }
  fold T in He1, Hf1. rewrite Hfire1 in He1, Hf1. cbn [fst snd] in He1, Hf1.
  set (t1 := with_phase t0 1 (Delaying (s + d + retry_delay))) in *.
  (* first retry *)
  destruct (in_flight_next_event p t1 (s + d + 1000) st1 (Hf1 _ eq_refl)) as (Hc2 & He2 & Hf2);
    [lia|intros now _ Hn; by apply (delayed_idle _ _ (s + d + retry_delay))|].
  set (st2 := advance (s + d + 1000 - clock st1) st1) in *.
  fold T in He2, Hf2.
  rewrite (retry_of_rejected T t1 d m (s + d + 1000)) in He2, Hf2 by (cbn; done || lia).
  cbn [t1 with_phase t_errors fst snd] in He2, Hf2.
  change (1 <? retry_take) with true in He2, Hf2. cbn [fst snd] in He2, Hf2.
  set (t2 := with_phase t1 (N.succ 1) (Delaying (s + d + 1000 + retry_delay))) in *.
  (* second retry *)
  destruct (in_flight_next_event p t2 (s + d + 2000) st2 (Hf2 _ eq_refl)) as (Hc3 & He3 & Hf3);
    [lia|intros now _ Hn; apply (delayed_idle _ _ (s + d + 1000 + retry_delay)); [done|];
         unfold retry_delay; lia|].
  set (st3 := advance (s + d + 2000 - clock st2) st2) in *.
  fold T in He3, Hf3.
  rewrite (retry_of_rejected T t2 d m (s + d + 2000)) in He3, Hf3
    by (cbn; try done; unfold retry_delay; try lia; f_equal; lia).
  cbn [t2 with_phase t_errors fst snd] in He3, Hf3.
  change (N.succ 1 <? retry_take) with true in He3, Hf3. cbn [fst snd] in He3, Hf3.
  set (t3 := with_phase t2 (N.succ (N.succ 1)) (Delaying (s + d + 2000 + retry_delay))) in *.
  (* the third error comes out of the delay *)
  destruct (in_flight_next_event p t3 (s + d + 3000) st3 (Hf3 _ eq_refl)) as (Hc4 & He4 & _);
    [lia|intros now _ Hn; apply (delayed_idle _ _ (s + d + 2000 + retry_delay)); [done|];
         unfold retry_delay; lia|].
  fold T in He4.
  rewrite (retry_of_rejected T t3 d m (s + d + 3000)) in He4
    by (cbn; try done; unfold retry_delay; try lia; f_equal; lia).
  cbn [t3 with_phase t_errors t_group fst] in He4.
  change (N.succ (N.succ 1) <? retry_take) with false in He4. cbn [fst] in He4.
  assert (advance (s + d + 3000 - clock st) st
          = advance (s + d + 3000 - clock st3) st3) as Hall.
  { rewrite Hc3. unfold st3. rewrite Hc2. unfold st2. rewrite Hc1. unfold st1.
    rewrite <- !advance_add. f_equal. lia. }
  assert (forall x, x ∈ trace st1 -> x ∈ trace (advance (s + d + 3000 - clock st) st)) as M1.
  { intros x Hx. rewrite Hall. unfold st3, st2. by do 3 apply trace_advance_mono. }
  assert (forall x, x ∈ trace st2 -> x ∈ trace (advance (s + d + 3000 - clock st) st)) as M2.
  { intros x Hx. rewrite Hall. unfold st3. by do 2 apply trace_advance_mono. }
  assert (forall x, x ∈ trace st3 -> x ∈ trace (advance (s + d + 3000 - clock st) st)) as M3.
  { intros x Hx. rewrite Hall. by apply trace_advance_mono. }
  split; [apply M1, He1; by left|]. split; [apply M2, He2; by left|].
  split; [apply M3, He3; by left|]. rewrite Hall.
  split; apply He4; [by left|right; by left].
Qed.

(** X6. A handler that answers too late is still counted as a success, but
    leaves the failure line in the log.  When the promise fulfils after the
    timer of [timeoutMs] has fired but before the first retry delay is over,
    the timeout is logged as a warning when the timer fires, and 1000 ms
    later the re-subscription finds the value: the group ends with
    [Succeeded] and, at the same instant, [finalize] logs that it failed
    after 3 retries. *)
Theorem late_answer_succeeds_with_failure_log (st : BaileysMessageProcessor) (p : Pipeline)
    (b : Batch) (g : Group) (s d : N) :
  running st p ->
  b ∈ batches p ->
  fresh_task g s (Resolves d) ∈ active b ->
  clock st < s + timer (p_timeoutMs p) ->
  timer (p_timeoutMs p) < d ->
  d <= timer (p_timeoutMs p) + 1000 ->
  (s + timer (p_timeoutMs p), Logged (warn_retrying timeout_message))
    ∈ trace (advance (s + timer (p_timeoutMs p) + 1000 - clock st) st)
  /\ (s + timer (p_timeoutMs p) + 1000, TaskEnded g Succeeded)
       ∈ trace (advance (s + timer (p_timeoutMs p) + 1000 - clock st) st)
  /\ (s + timer (p_timeoutMs p) + 1000, Logged error_failed_after_retries)
       ∈ trace (advance (s + timer (p_timeoutMs p) + 1000 - clock st) st).
Proof.
  intros Hr Hb Ht Hlt Hd1 Hd2. pose proof (in_flight_intro st p b _ Hr Hb Ht) as Hf0.
  set (T := p_timeoutMs p) in *. set (U := timer T) in *.
  set (t0 := fresh_task g s (Resolves d)) in *.
  destruct (in_flight_next_event p t0 (s + U) st Hf0 Hlt) as (Hc1 & He1 & Hf1).
  { intros now _ Hn. unfold task_fire, observe, source_signal. cbn. fold T. fold U.
    destruct (N.leb_spec (s + d) now); [lia|].
    destruct (N.leb_spec (s + U) now); [lia|done]. }
  set (st1 := advance (s + U - clock st) st) in *.
  assert (task_fire T (s + U) t0
          = ([Logged (warn_retrying timeout_message)],
             Some (with_phase t0 1 (Delaying (s + U + retry_delay))))) as Hfire1.
  { unfold task_fire, observe, source_signal. cbn. fold U.
    destruct (N.leb_spec (s + d) (s + U)); [lia|]. by rewrite N.leb_refl. }
  fold T in He1, Hf1. rewrite Hfire1 in He1, Hf1. cbn [fst snd] in He1, Hf1.
  set (t1 := with_phase t0 1 (Delaying (s + U + retry_delay))) in *.
  destruct (in_flight_next_event p t1 (s + U + 1000) st1 (Hf1 _ eq_refl)) as (Hc2 & He2 & _);
    [lia|intros now _ Hn; by apply (delayed_idle _ _ (s + U + retry_delay))|].
  assert (task_fire T (s + U + 1000) t1
          = ([TaskEnded g Succeeded; Logged error_failed_after_retries], None)) as Hfire2.
  { unfold task_fire, observe, source_signal. cbn. unfold retry_delay. rewrite N.leb_refl.
    destruct (N.leb_spec (s + d) (s + U + 1000)); [done|lia]. }
  fold T in He2. rewrite Hfire2 in He2. cbn [fst] in He2.
  assert (advance (s + U + 1000 - clock st) st
          = advance (s + U + 1000 - clock st1) st1) as Hall.
  { rewrite Hc1. unfold st1. rewrite <- !advance_add. f_equal. lia. }
  rewrite Hall. split; [apply trace_advance_mono, He1; by left|].
  split; apply He2; [by left|right; by left].
Qed.

(** X7. A rejection without a value is not retried.  When the handler's
    promise rejects with [null] or with [undefined], reading [error.message]
    in the warning throws inside the retry notifier: at the instant of the
    rejection the [TypeError], whose text names the value that was read, is
    logged for the single group, the group ends with [Swallowed], and
    [finalize] logs that it failed after 3 retries although nothing was
    retried. *)
Theorem nullish_rejection_is_not_retried (st : BaileysMessageProcessor) (p : Pipeline)
    (b : Batch) (g : Group) (s d : N) (v : Absent) :
  running st p ->
  b ∈ batches p ->
  fresh_task g s (Rejects d (Nullish v)) ∈ active b ->
  clock st < s + d ->
  d <= timer (p_timeoutMs p) ->
  (s + d, Logged (error_individual (type_error_message v)))
    ∈ trace (advance (s + d - clock st) st)
  /\ (s + d, TaskEnded g Swallowed) ∈ trace (advance (s + d - clock st) st)
  /\ (s + d, Logged error_failed_after_retries) ∈ trace (advance (s + d - clock st) st).
Proof.
  intros Hr Hb Ht Hlt Hd. pose proof (in_flight_intro st p b _ Hr Hb Ht) as Hf0.
  set (T := p_timeoutMs p) in *. set (t0 := fresh_task g s (Rejects d (Nullish v))) in *.
  destruct (in_flight_next_event p t0 (s + d) st Hf0 Hlt) as (_ & He1 & _).
  { intros now _ Hn. unfold task_fire, observe, source_signal. cbn. fold T.
    destruct (N.leb_spec (s + d) now); [lia|].
    destruct (N.leb_spec (s + timer T) now); [lia|done]. }
  assert (task_fire T (s + d) t0
          = ([Logged (error_individual (type_error_message v)); TaskEnded g Swallowed;
              Logged error_failed_after_retries], None)) as Hfire1.
  { unfold task_fire, observe, source_signal. cbn. by rewrite N.leb_refl. }
  fold T in He1. rewrite Hfire1 in He1. cbn [fst] in He1.
  split; [apply He1; by left|]. split; apply He1; [right; by left|right; right; by left].
Qed.

(** ** [onDestroy] *)

Lemma elem_of_concat_map {A B} (f : A -> list B) (x : B) (a : A) (l : list A) :
  x ∈ f a -> a ∈ l -> x ∈ concat (map f l).
Proof.
  intros Hx. induction 1 as [a l|a a' l _ IH]; cbn; apply elem_of_app; [by left|right; auto].
Qed.

Lemma bufferTime_complete_emits now p g w :
  source_done p = false ->
  window p = g :: w ->
  Emitted (window p) ∈ fst (bufferTime_complete now p)
  /\ (1 <= p_maxConcurrency p ->
      Called g (p_onMessageReceive p (payload g) (settings g))
        ∈ fst (bufferTime_complete now p)).
Proof.
  intros Hd Hw. unfold bufferTime_complete, emit_batch. rewrite Hd, Hw.
  assert (1 <= p_maxConcurrency p ->
          Called g (p_onMessageReceive p (payload g) (settings g))
            ∈ events (start_waiting (p_onMessageReceive p) (p_maxConcurrency p)
                        (p_timeoutMs p) now [] (g :: w))) as Hcall.
  { intros Hc. cbn [start_waiting length]. destruct (N.ltb_spec (N.of_nat 0) (p_maxConcurrency p)); [|lia].
    destruct (p_onMessageReceive p (payload g) (settings g)); cbn [events]; by left. }
  cbn [events failed next]. destruct (failed _); cbn [fst].
  - split; [apply elem_of_app; left; by left|].
    intros Hc. apply elem_of_app. left. right. right. by apply Hcall.
  - split; [apply elem_of_app; left; by left|].
    intros Hc. apply elem_of_app. left. right. right. by apply Hcall.
Qed.

(** X9. [onDestroy] unsubscribes the subscription of the last [mount] only.
    A subscription left behind by an earlier [mount] is not torn down but
    completed: at the instant of [onDestroy] its open buffer is handed over as
    a batch and its handler is called for the first group of it (given a
    slot), so groups are processed after the processor was destroyed. *)
Theorem onDestroy_flushes_earlier_subscription (st : BaileysMessageProcessor) (p : Pipeline)
    (g : Group) (w : list Group) :
  closed (messageSubject st) = false ->
  isStopped (messageSubject st) = false ->
  p ∈ pipelines st ->
  subscription st <> Some (sid p) ->
  source_done p = false ->
  window p = g :: w ->
  1 <= p_maxConcurrency p ->
  (clock st, Emitted (g :: w)) ∈ trace (snd (onDestroy st))
  /\ (clock st, Called g (p_onMessageReceive p (payload g) (settings g)))
       ∈ trace (snd (onDestroy st)).
Proof.
  intros Hc Hs Hp Hsub Hd Hw Hslot.
  destruct (bufferTime_complete_emits (clock st) p g w Hd Hw) as [He Hcall].
  rewrite Hw in He. specialize (Hcall Hslot).
  assert (p ∈ snd (unsubscribe st)) as Hin.
  { unfold unsubscribe. destruct (subscription st) as [s0|]; [|done]. cbn [snd].
    apply list_elem_of_filter. split; [|done]. intros Heq. apply Hsub. by rewrite Heq. }
  assert (forall e, e ∈ fst (bufferTime_complete (clock st) p) ->
                    (clock st, e) ∈ trace (snd (onDestroy st))) as Hall.
  { intros e Hin'. unfold onDestroy. rewrite Hc, Hs. cbn [snd trace].
    apply elem_of_app. right. apply elem_of_stamp. rewrite map_map.
    by apply (elem_of_concat_map _ _ p). }
  split; by apply Hall.
Qed.

Lemma bufferTime_complete_sid now p p' :
  snd (bufferTime_complete now p) = Some p' -> sid p' = sid p.
Proof.
  unfold bufferTime_complete. destruct (source_done p); [by intros [= <-]|].
  destruct (failed _); [done|]. cbn [snd]. unfold settle. cbn [source_done with_batches batches].
  destruct (_ ++ _); [done|]. by intros [= <-].
Qed.

Lemma unsubscribe_nothing (s : nat) (ps : list Pipeline) :
  Forall (fun p => sid p <> s) ps ->
  flat_map (fun p => if decide (sid p = s) then teardown_logs (batches p) else []) ps = []
  /\ filter (fun p => sid p <> s) ps = ps.
Proof.
  induction 1 as [|p ps Hp _ [IH1 IH2]]; [done|]. cbn [flat_map].
  rewrite filter_cons. destruct (decide (sid p = s)); [done|].
  destruct (decide (sid p <> s)); [|done]. by rewrite IH1, IH2.
Qed.

Lemma onDestroy_unsubscribed st s :
  subscription st = Some s ->
  Forall (fun p => sid p <> s) (pipelines (snd (onDestroy st))).
Proof.
  intros Hs.
  assert (Forall (fun p => sid p <> s) (snd (unsubscribe st))) as Hu.
  { unfold unsubscribe. rewrite Hs. cbn [snd]. apply Forall_forall.
    intros p Hp. by apply list_elem_of_filter in Hp as [? _]. }
  unfold onDestroy. destruct (closed _); [done|]. destruct (isStopped _); [done|].
  cbn [snd pipelines]. apply Forall_forall. intros p' Hp'.
  apply list_elem_of_omap in Hp' as ([evs o] & Hin & Ho). cbn in Ho. subst o.
  apply list_elem_of_fmap in Hin as (p & Heq & Hp).
  assert (snd (bufferTime_complete (clock st) p) = Some p') as Hk by (by rewrite <- Heq).
  rewrite (bufferTime_complete_sid _ _ _ Hk).
  rewrite Forall_forall in Hu. by apply Hu.
Qed.

(** X10. [onDestroy] may be called again: the second call writes its log line
    and changes nothing else, whatever state the processor was in before the
    first. *)
Theorem onDestroy_again_only_logs (st : BaileysMessageProcessor) :
  snd (onDestroy (snd (onDestroy st)))
  = {| clock := clock (snd (onDestroy st));
       trace := trace (snd (onDestroy st))
                ++ [(clock (snd (onDestroy st)), Logged log_destroying)];
       messageSubject := messageSubject (snd (onDestroy st));
       pipelines := pipelines (snd (onDestroy st));
       subscription := subscription (snd (onDestroy st));
       fresh_sid := fresh_sid (snd (onDestroy st)) |}.
Proof.
  set (st1 := snd (onDestroy st)).
  assert ((closed (messageSubject st1) = true \/ isStopped (messageSubject st1) = true)
          /\ subscription st1 = subscription st) as (Hcs & Hsub).
  { unfold st1, onDestroy. destruct (closed (messageSubject st)) eqn:Hc; [by split; [left|]|].
    destruct (isStopped (messageSubject st)) eqn:Hs; split; done || by right. }
  assert (unsubscribe st1 = ([], pipelines st1)) as Hu.
  { unfold unsubscribe. rewrite Hsub. destruct (subscription st) as [s|] eqn:Hs; [|done].
    destruct (unsubscribe_nothing s (pipelines st1)) as [-> ->]; [|done].
    by apply onDestroy_unsubscribed. }
  unfold onDestroy at 1. rewrite Hu.
  destruct (closed (messageSubject st1)) eqn:Hc1; [done|].
  destruct Hcs as [?|Hs1]; [done|]. by rewrite Hs1.
Qed.

(** ** A handler that never throws *)

(** X11. Whatever the promises of the handler do (reject, reject with
    nothing, never settle), they cannot stop the stream: with a handler that
    returns a promise for every group, after any run of submissions and
    waiting the outer error handling has logged nothing and the subscription
    is still open. *)
Theorem promise_failures_never_stop_the_stream (props : MountProps) (now : N)
    (script : list Action) :
  asynchronous (onMessageReceive props) ->
  ingest_only script = true ->
  stream_failed (trace (run script (snd (mount props (create now))))) = false
  /\ exists p, running (run script (snd (mount props (create now)))) p.
Proof.
  intros Ha Hi. destruct (mount_running props now Ha) as (p & Hr & _).
  set (Inv := fun (_ : list Group) (st' : BaileysMessageProcessor) (_ : Pipeline) =>
                stream_failed (trace st') = false).
  assert (forall L st' p', running st' p' -> Inv L st' p' ->
            exists p'', running (tick st') p'' /\ Inv L (tick st') p'') as Htick.
  { intros L st' p' Hr' HI. destruct (tick_running st' p' Hr') as (bs & Hr'' & _).
    eexists. split; [exact Hr''|]. unfold Inv in *.
    destruct Hr' as (Hp & Hd & Ha' & _).
    destruct (tick_single st' p' Hp) as [_ ->].
    destruct (pipeline_tick_running (N.succ (clock st')) p' Hd Ha') as (evs & bs' & Hk & _).
    destruct (pipeline_tick_alive (N.succ (clock st')) p' _ (f_equal snd Hk)) as [_ Hff].
    by rewrite stream_failed_app, HI, failure_free_existsb. }
  assert (forall L st' p' pl s, running st' p' -> Inv L st' p' ->
            exists p'', running (perform st' (Submit pl s)) p''
                        /\ Inv (L ++ [group_of pl s]) (perform st' (Submit pl s)) p'') as Hsub.
  { intros L st' p' pl s Hr' HI. destruct (submit_running st' p' pl s Hr') as (Hr'' & Ht & _).
    eexists. split; [exact Hr''|]. unfold Inv in *. by rewrite Ht. }
  destruct (ingest_induction Inv Htick Hsub script [] _ p Hi Hr eq_refl) as (p' & Hr' & HI).
  split; [exact HI|by exists p'].
Qed.

(** ** No slot at all *)

Section NoSlot.
Variable h : Handler.
Variable T : N.

Lemma start_waiting_no_slot now act buf :
  called_of (events (start_waiting h 0 T now act buf)) = [].
Proof.
  destruct buf as [|g buf]; [done|]. cbn [start_waiting].
  destruct (N.ltb_spec (N.of_nat (length act)) 0); [lia|done].
Qed.

Lemma batch_tick_no_slot now b : called_of (events (batch_tick h 0 T now b)) = [].
Proof.
  unfold batch_tick. cbn [events].
  by rewrite called_of_app, fire_all_no_call, start_waiting_no_slot.
Qed.

Lemma batches_tick_no_slot now bs : called_of (events (batches_tick h 0 T now bs)) = [].
Proof.
  induction bs as [|b bs IH]; cbn [batches_tick]; [done|].
  destruct (failed (batch_tick h 0 T now b)); cbn [events].
  - apply batch_tick_no_slot.
  - by rewrite called_of_app, batch_tick_no_slot, IH.
Qed.

Lemma emit_batch_no_slot now batch : called_of (events (emit_batch h 0 T now batch)) = [].
Proof.
  unfold emit_batch. destruct batch as [|g batch]; [done|]. cbn [events].
  change (called_of (?a :: ?b :: ?l)) with (called_of l).
  apply start_waiting_no_slot.
Qed.
End NoSlot.

Lemma pipeline_tick_no_slot now p :
  p_maxConcurrency p = 0 ->
  called_of (fst (pipeline_tick now p)) = []
  /\ forall p', snd (pipeline_tick now p) = Some p' -> p_maxConcurrency p' = 0.
Proof.
  intros Hc. split.
  - unfold pipeline_tick. rewrite Hc. destruct (failed _); cbn [fst].
    + by rewrite called_of_app, batches_tick_no_slot, stream_error_no_call.
    + rewrite called_of_app, batches_tick_no_slot. cbn [app].
      unfold flush. cbn [source_done flush_at with_batches window p_onMessageReceive
        p_maxConcurrency p_timeoutMs p_batchTimeoutMs batches]. rewrite Hc.
      destruct (negb (source_done p) && (flush_at p <=? now)).
      * destruct (failed _); cbn [fst].
        -- by rewrite called_of_app, emit_batch_no_slot, stream_error_no_call.
        -- apply emit_batch_no_slot.
      * apply settle_calls.
  - intros p' [(w & f & bs & ->) _]%pipeline_tick_alive. exact Hc.
Qed.

Lemma bufferTime_complete_no_slot now p :
  p_maxConcurrency p = 0 -> called_of (fst (bufferTime_complete now p)) = [].
Proof.
  intros Hc. unfold bufferTime_complete. rewrite Hc. destruct (source_done p); [done|].
  destruct (failed _); cbn [fst].
  - by rewrite called_of_app, emit_batch_no_slot, stream_error_no_call.
  - rewrite called_of_app, emit_batch_no_slot. cbn [app]. apply settle_calls.
Qed.

Lemma calls_stamp_none now evs : called_of evs = [] -> calls (stamp now evs) = [].
Proof.
  intros H. apply nil_length_inv. by rewrite calls_stamp, H.
Qed.

Lemma called_of_concat {A} (f : A -> list Event) (l : list A) :
  Forall (fun a => called_of (f a) = []) l -> called_of (concat (map f l)) = [].
Proof.
  induction 1 as [|a l Ha _ IH]; [done|]. cbn [map concat]. by rewrite called_of_app, Ha, IH.
Qed.

Lemma perform_no_slot st a :
  Forall (fun p => p_maxConcurrency p = 0) (pipelines st) ->
  is_mount a = false ->
  Forall (fun p => p_maxConcurrency p = 0) (pipelines (perform st a))
  /\ calls (trace (perform st a)) = calls (trace st).
Proof.
  intros Hz Ha. destruct a as [props|pl s| |dt]; [done| | |]; cbn [perform].
  - unfold processMessage. destruct (closed _); [done|]. destruct (isStopped _); [done|].
    cbn [snd pipelines trace]. split; [|done].
    apply Forall_fmap. eapply Forall_impl; [exact Hz|]. intros p Hp. cbn.
    unfold bufferTime_next. by destruct (source_done p).
  - assert (Forall (fun p => p_maxConcurrency p = 0) (snd (unsubscribe st))) as Hu.
    { unfold unsubscribe. destruct (subscription st); [|done]. cbn [snd].
      apply Forall_forall. intros p [_ Hp]%list_elem_of_filter.
      rewrite Forall_forall in Hz. by apply Hz. }
    assert (calls (stamp (clock st) (Logged log_destroying :: fst (unsubscribe st))) = [])
      as Hlog.
    { apply calls_stamp_logs. cbn [forallb is_log andb].
      unfold unsubscribe. destruct (subscription st) as [s0|]; [|done]. cbn [fst].
      generalize (pipelines st). clear. intros ps.
      induction ps as [|p ps IH]; [done|]. cbn [flat_map].
      apply forallb_app_true; [|done]. destruct (decide _); [apply teardown_logs_is_log|done]. }
    unfold onDestroy. destruct (closed _); [|destruct (isStopped _)]; cbn [snd pipelines trace].
    + by rewrite calls_app, Hlog, app_nil_r.
    + by rewrite calls_app, Hlog, app_nil_r.
    + split.
      * apply Forall_forall. intros p' Hp'.
        apply list_elem_of_omap in Hp' as ([evs o] & Hin & Ho). cbn in Ho. subst o.
        apply list_elem_of_fmap in Hin as (p & Heq & Hp).
        rewrite Forall_forall in Hu. specialize (Hu _ Hp).
        assert (snd (bufferTime_complete (clock st) p) = Some p') as Hk by (by rewrite <- Heq).
        revert Hk. unfold bufferTime_complete. destruct (source_done p); [by intros [= <-]|].
        destruct (failed _); [done|]. cbn [snd]. unfold settle.
        cbn [source_done with_batches batches]. destruct (_ ++ _); [done|]. by intros [= <-].
      * rewrite !calls_app, Hlog, app_nil_r, map_map.
        rewrite calls_stamp_none; [by rewrite app_nil_r|].
        apply called_of_concat. eapply Forall_impl; [exact Hu|].
        intros p Hp. by apply bufferTime_complete_no_slot.
  - clear Ha. induction dt as [|dt [IH1 IH2]] using N.peano_ind; [done|]. rewrite advance_succ.
    unfold tick. cbn [pipelines trace]. split.
    + apply Forall_forall. intros p' Hp'.
      apply list_elem_of_omap in Hp' as ([evs o] & Hin & Ho). cbn in Ho. subst o.
      apply list_elem_of_fmap in Hin as (p & Heq & Hp).
      rewrite Forall_forall in IH1.
      apply (proj2 (pipeline_tick_no_slot (N.succ (clock (advance dt st))) p (IH1 _ Hp))).
      by rewrite <- Heq.
    + rewrite calls_app, map_map, calls_stamp_none; [by rewrite app_nil_r|].
      apply called_of_concat. eapply Forall_impl; [exact IH1|].
      intros p Hp. by apply pipeline_tick_no_slot.
Qed.

(** X12. [maxConcurrency: 0] is taken as given and leaves no slot: the
    handler is never called for any group, whatever is submitted and however
    long one waits. *)
Theorem no_slot_no_call (props : MountProps) (now : N) (script : list Action) :
  options props !! "maxConcurrency" = Some 0 ->
  mount_free script = true ->
  calls (trace (run script (snd (mount props (create now))))) = [].
Proof.
  intros Hopt Hfree.
  assert (forall st, Forall (fun p => p_maxConcurrency p = 0) (pipelines st) ->
            calls (trace (run script st)) = calls (trace st)) as H.
  { revert Hfree. induction script as [|a script IH]; intros Hfree st Hz; [done|].
    cbn in Hfree. apply andb_prop in Hfree as [Ha Hfree]. apply negb_true_iff in Ha.
    rewrite run_cons. destruct (perform_no_slot st a Hz Ha) as [Hz' <-]. by apply IH. }
  rewrite H; [done|]. unfold mount. cbn. rewrite Hopt. by repeat constructor.
Qed.

(** ** A batch that fits into the slots *)

Lemma start_waiting_all_called h c T now buf :
  asynchronous h ->
  forall act,
    N.of_nat (length act) + N.of_nat (length buf) <= c ->
    forall g, g ∈ buf ->
      Called g (h (payload g) (settings g)) ∈ events (start_waiting h c T now act buf).
Proof.
  intros Ha. induction buf as [|g0 buf IH]; intros act Hc g Hg; [by apply elem_of_nil in Hg|].
  cbn [start_waiting]. cbn [length] in Hc.
  destruct (N.ltb_spec (N.of_nat (length act)) c); [|lia].
  destruct (h (payload g0) (settings g0)) as [pr|e] eqn:Hg0; [|by destruct (Ha _ _ _ Hg0)].
  cbn [events]. apply elem_of_cons in Hg as [->|Hg]; [rewrite Hg0; by left|].
  right. apply elem_of_app. right. apply IH; [|done].
  rewrite length_app. destruct (snd (task_fire T now _)); cbn; lia.
Qed.

(** X13. A batch that fits into the slots is handled in parallel: when the
    buffer holds no more than [maxConcurrency] groups at the flush, the
    handler is called for every one of them at the instant of the flush,
    without waiting for the calls before it. *)
Theorem batch_within_slots_starts_at_once (st : BaileysMessageProcessor) (p : Pipeline)
    (g : Group) :
  running st p ->
  clock st < flush_at p ->
  N.of_nat (length (window p)) <= p_maxConcurrency p ->
  g ∈ window p ->
  (flush_at p, Called g (p_onMessageReceive p (payload g) (settings g)))
    ∈ trace (advance (flush_at p - clock st) st).
Proof.
  intros Hr Hlt Hc Hg.
  replace (flush_at p - clock st) with (N.succ (flush_at p - clock st - 1)) by lia.
  destruct (advance_before_flush st p (flush_at p - clock st - 1) Hr) as (bs & Hr' & _); [lia|].
  rewrite advance_succ.
  destruct (tick_flush _ p (window p) (flush_at p) bs Hr') as [He _];
    [rewrite clock_advance; lia|].
  rewrite clock_advance in He.
  replace (N.succ (clock st + (flush_at p - clock st - 1))) with (flush_at p) in He by lia.
  apply He. unfold emit_batch. destruct (window p) as [|g0 w] eqn:Hw; [by apply elem_of_nil in Hg|].
  cbn [events]. right. right.
  apply start_waiting_all_called; [by destruct Hr as (_ & _ & Ha & _)|cbn [length] in *; lia|done].
Qed.

(** ** What is written after [onDestroy] *)

Lemma Forall_stamp_logs now evs :
  forallb is_log evs = true -> Forall (fun te => is_log (snd te) = true) (stamp now evs).
Proof.
  unfold stamp. induction evs as [|e evs IH]; [constructor|]. cbn.
  intros [He Hr]%andb_prop. constructor; [done|by apply IH].
Qed.

Lemma perform_dead_trace st a :
  dead st ->
  exists extra,
    trace (perform st a) = trace st ++ extra
    /\ Forall (fun te => is_log (snd te) = true) extra.
Proof.
  intros [Hq Hs]. destruct a as [props|pl s| |dt]; cbn [perform].
  - destruct Hq as [Hp Hc]. unfold mount. rewrite Hc, Hs. cbn [snd trace].
    eexists. split; [reflexivity|]. by apply Forall_stamp_logs.
  - rewrite processMessage_quiet by done. exists []. by rewrite app_nil_r.
  - destruct (onDestroy_quiet _ Hq) as (_ & -> & _). eexists. split; [reflexivity|].
    by repeat constructor.
  - destruct (advance_quiet dt _ Hq) as (_ & -> & _). exists []. by rewrite app_nil_r.
Qed.

(** X14. Groups in flight when [onDestroy] runs are abandoned.  On a
    processor that owns its subscription, everything written to the trace by
    [onDestroy] and by whatever is done afterwards is a log line: no group
    ever ends with an outcome, no handler is called and no batch is handed
    over. *)
Theorem onDestroy_abandons_groups_in_flight (st0 : BaileysMessageProcessor)
    (script : list Action) :
  owned st0 = true ->
  closed (messageSubject st0) = false ->
  exists extra,
    trace (run script (snd (onDestroy st0))) = trace st0 ++ extra
    /\ Forall (fun te => is_log (snd te) = true) extra.
Proof.
  intros Ho Hc.
  destruct (onDestroy_owned st0 Ho Hc) as (_ & Hq & Hs & _).
  assert (exists extra, trace (snd (onDestroy st0)) = trace st0 ++ extra
                        /\ Forall (fun te => is_log (snd te) = true) extra) as (ex0 & Ht0 & Hl0).
  { destruct (unsubscribe_owned _ Ho) as (Hu & Hl & _).
    unfold onDestroy. rewrite Hc, Hu.
    destruct (isStopped (messageSubject st0)); cbn [snd trace map concat stamp];
      rewrite ?app_nil_r; (eexists; split; [reflexivity|]);
      apply (Forall_stamp_logs _ (Logged log_destroying :: _)); exact Hl. }
  assert (forall st, dead st ->
            exists extra, trace (run script st) = trace st ++ extra
                          /\ Forall (fun te => is_log (snd te) = true) extra) as H.
  { induction script as [|a script IH]; intros st Hd; [exists []; by rewrite app_nil_r|].
    rewrite run_cons. destruct (perform_dead_trace st a Hd) as (e1 & Ht1 & Hl1).
    destruct (perform_dead st a Hd) as (Hd' & _).
    destruct (IH _ Hd') as (e2 & Ht2 & Hl2). exists (e1 ++ e2).
    split; [by rewrite Ht2, Ht1, app_assoc|by apply Forall_app]. }
  destruct (H _ (conj Hq Hs)) as (e1 & Ht1 & Hl1). exists (ex0 ++ e1).
  split; [by rewrite Ht1, Ht0, app_assoc|by apply Forall_app].
Qed.

(** ** A handler that never answers *)

Lemma pending_listens T t since now :
  t_promise t = Pending -> t_phase t = Listening since -> now < since + timer T ->
  task_fire T now t = ([], Some t).
Proof.
  intros Hp Hph Hlt. unfold task_fire, observe, source_signal, settled. rewrite Hph, Hp.
  destruct (N.leb_spec (since + timer T) now); [lia|done].
Qed.

Lemma pending_times_out T t since :
  t_promise t = Pending -> t_phase t = Listening since ->
  task_fire T (since + timer T) t
  = ([Logged (warn_retrying timeout_message)],
     Some (with_phase t (N.succ (t_errors t)) (Delaying (since + timer T + retry_delay)))).
Proof.
  intros Hp Hph. unfold task_fire, observe, source_signal, settled. rewrite Hph, Hp.
  by rewrite N.leb_refl.
Qed.

Lemma pending_listens_again T t until :
  t_promise t = Pending -> t_phase t = Delaying until ->
  task_fire T until t
  = if t_errors t <? retry_take
    then ([], Some (with_phase t (t_errors t) (Listening until)))
    else ([TaskEnded (t_group t) Exhausted; Logged error_failed_after_retries], None).
Proof.
  intros Hp Hph. unfold task_fire, observe, source_signal, settled.
  rewrite Hph, N.leb_refl. destruct (t_errors t <? retry_take); [|done].
  cbn [with_phase t_called t_promise]. rewrite Hp.
  pose proof (timer_pos T).
  destruct (N.leb_spec (until + timer T) until); [lia|done].
Qed.

(** One round of a group whose promise never settles: the timeout is logged
    when the timer of [timeoutMs] fires, and the group then sits in the
    delay. *)
Lemma pending_round p t since st :
  t_promise t = Pending ->
  t_phase t = Listening since ->
  in_flight st p t ->
  clock st < since + timer (p_timeoutMs p) ->
  clock (advance (since + timer (p_timeoutMs p) - clock st) st) = since + timer (p_timeoutMs p)
  /\ (since + timer (p_timeoutMs p), Logged (warn_retrying timeout_message))
       ∈ trace (advance (since + timer (p_timeoutMs p) - clock st) st)
  /\ in_flight (advance (since + timer (p_timeoutMs p) - clock st) st) p
       (with_phase t (N.succ (t_errors t))
          (Delaying (since + timer (p_timeoutMs p) + retry_delay))).
Proof.
  intros Hp Hph Hf Hlt.
  destruct (in_flight_next_event p t (since + timer (p_timeoutMs p)) st Hf Hlt)
    as (Hc & He & Hn).
  { intros now _ Hn. by apply (pending_listens _ _ since). }
  rewrite (pending_times_out _ _ _ Hp Hph) in He, Hn. cbn [fst snd] in He, Hn.
  split; [exact Hc|]. split; [apply He; by left|by apply Hn].
Qed.

(** The end of the delay of such a group: it subscribes again, or gives up
    after the third error. *)
Lemma pending_delay p t until st :
  t_promise t = Pending ->
  t_phase t = Delaying until ->
  in_flight st p t ->
  clock st < until ->
  (t_errors t < retry_take ->
   in_flight (advance (until - clock st) st) p (with_phase t (t_errors t) (Listening until)))
  /\ (retry_take <= t_errors t ->
      (until, TaskEnded (t_group t) Exhausted) ∈ trace (advance (until - clock st) st)
      /\ (until, Logged error_failed_after_retries) ∈ trace (advance (until - clock st) st)).
Proof.
  intros Hp Hph Hf Hlt.
  destruct (in_flight_next_event p t until st Hf Hlt) as (Hc & He & Hn).
  { intros now _ Hn. by apply (delayed_idle _ _ until). }
  rewrite (pending_listens_again _ _ _ Hp Hph) in He, Hn.
  destruct (N.ltb_spec (t_errors t) retry_take); cbn [fst snd] in He, Hn.
  - split; [intros _; by apply Hn|lia].
  - split; [lia|]. intros _. split; apply He; [by left|right; by left].
Qed.

Lemma advance_in_two st m n :
  clock st <= m -> m <= n ->
  advance (n - clock (advance (m - clock st) st)) (advance (m - clock st) st)
  = advance (n - clock st) st.
Proof.
  intros H1 H2. rewrite clock_advance, <- advance_add. f_equal. lia.
Qed.

Lemma trace_advance_le st m n x :
  clock st <= m -> m <= n ->
  x ∈ trace (advance (m - clock st) st) -> x ∈ trace (advance (n - clock st) st).
Proof.
  intros H1 H2 Hx. rewrite <- (advance_in_two st m n H1 H2). by apply trace_advance_mono.
Qed.

(** Three rounds of a group whose promise never settles. *)
Lemma pending_three_rounds (st : BaileysMessageProcessor)
    (p : Pipeline) (b : Batch) (g : Group) (s : N) :
  running st p ->
  b ∈ batches p ->
  fresh_task g s Pending ∈ active b ->
  s <= clock st ->
  clock st < s + timer (p_timeoutMs p) ->
  (s + timer (p_timeoutMs p), Logged (warn_retrying timeout_message))
    ∈ trace (advance (s + 3 * (timer (p_timeoutMs p) + 1000) - clock st) st)
  /\ (s + 2 * timer (p_timeoutMs p) + 1000, Logged (warn_retrying timeout_message))
       ∈ trace (advance (s + 3 * (timer (p_timeoutMs p) + 1000) - clock st) st)
  /\ (s + 3 * timer (p_timeoutMs p) + 2000, Logged (warn_retrying timeout_message))
       ∈ trace (advance (s + 3 * (timer (p_timeoutMs p) + 1000) - clock st) st)
  /\ (s + 3 * (timer (p_timeoutMs p) + 1000), TaskEnded g Exhausted)
       ∈ trace (advance (s + 3 * (timer (p_timeoutMs p) + 1000) - clock st) st)
  /\ (s + 3 * (timer (p_timeoutMs p) + 1000), Logged error_failed_after_retries)
       ∈ trace (advance (s + 3 * (timer (p_timeoutMs p) + 1000) - clock st) st).
Proof.
  intros Hr Hb Ht Hs Hlt. pose proof (in_flight_intro st p b _ Hr Hb Ht) as Hf0.
  pose proof (timer_pos (p_timeoutMs p)) as HT.
  set (T := timer (p_timeoutMs p)) in *.
  set (t0 := fresh_task g s Pending) in *.
  (* first round *)
  destruct (pending_round p t0 s st eq_refl eq_refl Hf0 Hlt) as (Hc1 & Hw1 & Hf1).
  fold T in Hc1, Hw1, Hf1. cbn [t0 fresh_task t_errors] in Hf1.
  set (t1 := with_phase _ _ _) in Hf1.
  destruct (pending_delay p t1 (s + T + retry_delay) _ eq_refl eq_refl Hf1) as [Hf1' _];
    [rewrite Hc1; unfold retry_delay; lia|].
  specialize (Hf1' ltac:(cbn; unfold retry_take; lia)).
  rewrite advance_in_two in Hf1' by (unfold retry_delay; lia).
  cbn [t1 with_phase t_errors] in Hf1'. set (t1' := with_phase _ _ _) in Hf1'.
  (* second round *)
  destruct (pending_round p t1' (s + T + retry_delay) _ eq_refl eq_refl Hf1')
    as (Hc2 & Hw2 & Hf2); [rewrite clock_advance; unfold retry_delay; fold T; lia|].
  fold T in Hc2, Hw2, Hf2. rewrite advance_in_two in Hc2, Hw2, Hf2 by (unfold retry_delay; lia).
  cbn [t1' with_phase t_errors] in Hf2. set (t2 := with_phase _ _ _) in Hf2.
  destruct (pending_delay p t2 (s + T + retry_delay + T + retry_delay) _ eq_refl eq_refl Hf2)
    as [Hf2' _]; [rewrite Hc2; unfold retry_delay; lia|].
  specialize (Hf2' ltac:(cbn; unfold retry_take; lia)).
  rewrite advance_in_two in Hf2' by (unfold retry_delay; lia).
  cbn [t2 with_phase t_errors] in Hf2'. set (t2' := with_phase _ _ _) in Hf2'.
  (* third round *)
  destruct (pending_round p t2' (s + T + retry_delay + T + retry_delay) _ eq_refl eq_refl Hf2')
    as (Hc3 & Hw3 & Hf3); [rewrite clock_advance; unfold retry_delay; fold T; lia|].
  fold T in Hc3, Hw3, Hf3. rewrite advance_in_two in Hc3, Hw3, Hf3 by (unfold retry_delay; lia).
  cbn [t2' with_phase t_errors] in Hf3. set (t3 := with_phase _ _ _) in Hf3.
  destruct (pending_delay p t3 (s + T + retry_delay + T + retry_delay + T + retry_delay) _
              eq_refl eq_refl Hf3) as [_ Hend]; [rewrite Hc3; unfold retry_delay; lia|].
  specialize (Hend ltac:(cbn; unfold retry_take; lia)).
  rewrite advance_in_two in Hend by (unfold retry_delay; lia).
  cbn [t3 with_phase t_group] in Hend. unfold retry_delay in *.
  replace (s + T + 1000 + T + 1000 + T + 1000) with (s + 3 * (T + 1000)) in * by lia.
  replace (s + T + 1000 + T + 1000 + T) with (s + 3 * T + 2000) in * by lia.
  replace (s + T + 1000 + T) with (s + 2 * T + 1000) in * by lia.
  split; [apply (trace_advance_le st (s + T)); [lia|lia|exact Hw1]|].
  split; [apply (trace_advance_le st (s + 2 * T + 1000)); [lia|lia|exact Hw2]|].
  split; [apply (trace_advance_le st (s + 3 * T + 2000)); [lia|lia|exact Hw3]|].
  exact Hend.
Qed.

(** X15. A handler that never answers is given up three timers of
    [timeoutMs] and three seconds after the call.  The timeout is logged as
    a warning when the timer fires, after the call and after each of the two
    re-subscriptions, each of them one second after the warning before; one
    second after the third warning the group ends with [Exhausted] and the
    failure is logged.  The timer of [timeoutMs] is [timeoutMs] itself from
    1 to [2^31 - 1], and one millisecond otherwise. *)
Theorem silent_handler_holds_slot_to_the_deadline (st : BaileysMessageProcessor)
    (p : Pipeline) (b : Batch) (g : Group) (s : N) :
  running st p ->
  b ∈ batches p ->
  fresh_task g s Pending ∈ active b ->
  s <= clock st ->
  clock st < s + timer (p_timeoutMs p) ->
  (s + timer (p_timeoutMs p), Logged (warn_retrying timeout_message))
    ∈ trace (advance (s + 3 * (timer (p_timeoutMs p) + 1000) - clock st) st)
  /\ (s + 2 * timer (p_timeoutMs p) + 1000, Logged (warn_retrying timeout_message))
       ∈ trace (advance (s + 3 * (timer (p_timeoutMs p) + 1000) - clock st) st)
  /\ (s + 3 * timer (p_timeoutMs p) + 2000, Logged (warn_retrying timeout_message))
       ∈ trace (advance (s + 3 * (timer (p_timeoutMs p) + 1000) - clock st) st)
  /\ (s + 3 * (timer (p_timeoutMs p) + 1000), TaskEnded g Exhausted)
       ∈ trace (advance (s + 3 * (timer (p_timeoutMs p) + 1000) - clock st) st)
  /\ (s + 3 * (timer (p_timeoutMs p) + 1000), Logged error_failed_after_retries)
       ∈ trace (advance (s + 3 * (timer (p_timeoutMs p) + 1000) - clock st) st).
Proof. apply pending_three_rounds. Qed.

(** ** From submission to the handler *)

Lemma handled_app tr1 tr2 : handled (tr1 ++ tr2) = handled tr1 ++ handled tr2.
Proof. unfold handled. by rewrite calls_app, map_app. Qed.

Lemma handled_stamp now evs : handled (stamp now evs) = called_groups evs.
Proof.
  unfold handled, called_groups, calls, called_of, stamp.
  induction evs as [|e evs IH]; [done|]. destruct e; cbn; by rewrite ?IH.
Qed.

Lemma waiting_keep_batch b : flat_map waiting (keep_batch b) = waiting b.
Proof.
  unfold keep_batch, batch_done. destruct b as [act w].
  destruct act, w; cbn; by rewrite ?app_nil_r.
Qed.

Lemma batches_tick_order h c T now bs :
  asynchronous h ->
  called_groups (events (batches_tick h c T now bs))
  ++ flat_map waiting (next (batches_tick h c T now bs))
  ≡ₚ flat_map waiting bs.
Proof.
  intros Ha. induction bs as [|b bs IH]; cbn [batches_tick]; [done|].
  rewrite batch_tick_async by done. cbn [events next flat_map].
  rewrite called_groups_app, flat_map_app, waiting_keep_batch.
  rewrite <- (batch_tick_order h c T now b), <- IH.
  set (c1 := called_groups (events (batch_tick h c T now b))).
  set (ck := called_groups (events (batches_tick h c T now bs))).
  set (w1 := waiting (next (batch_tick h c T now b))).
  set (wk := flat_map waiting (next (batches_tick h c T now bs))).
  rewrite <- !app_assoc. f_equiv. rewrite !app_assoc. f_equiv. apply Permutation_app_comm.
Qed.

(** X16. On its way from [processMessage] to the handler no group is lost
    and none is doubled.  As long as the processor runs, after any run of
    submissions and waiting, the groups the handler was called for, the
    groups waiting for a slot and the groups in the open buffer are, taken
    together, the ones that were there before and the ones submitted: every
    group submitted is in exactly one of the three places. *)
Theorem every_group_is_in_one_place (st : BaileysMessageProcessor) (p : Pipeline)
    (script : list Action) :
  running st p ->
  ingest_only script = true ->
  exists p',
    running (run script st) p'
    /\ handled (trace (run script st)) ++ queued p' ++ window p'
       ≡ₚ handled (trace st) ++ queued p ++ window p ++ submitted script.
Proof.
  intros Hr Hi.
  set (Inv := fun (L : list Group) (st' : BaileysMessageProcessor) (p' : Pipeline) =>
                handled (trace st') ++ queued p' ++ window p' ≡ₚ L).
  assert (forall L st' p', running st' p' -> Inv L st' p' ->
            exists p'', running (tick st') p'' /\ Inv L (tick st') p'') as Htick.
  { intros L st' p' Hr' HI. pose proof Hr' as (Hp & Hd & Ha & Hc & Hs).
    destruct (tick_single st' p' Hp) as [Hp' Ht].
    rewrite (pipeline_tick_running_eq _ _ Hd Ha) in Hp', Ht. cbn [fst snd option_list] in Hp', Ht.
    eexists. split; [unfold running; rewrite Hp'; by repeat split|].
    unfold Inv in *. rewrite Ht, handled_app, handled_stamp, called_groups_app.
    unfold queued in *. cbn [batches window with_batches]. rewrite flat_map_app.
    pose proof (batches_tick_order (p_onMessageReceive p') (p_maxConcurrency p') (p_timeoutMs p')
                  (N.succ (clock st')) (batches p') Ha) as Hb.
    pose proof (emit_batch_order (p_onMessageReceive p') (p_maxConcurrency p') (p_timeoutMs p')
                  (N.succ (clock st')) (window p')) as He.
    rewrite <- HI, <- Hb. destruct (flush_at p' <=? N.succ (clock st')).
    - rewrite <- He at 3.
      set (cb := called_groups (events (batches_tick _ _ _ _ _))).
      set (ce := called_groups (events (emit_batch _ _ _ _ _))).
      set (qb := flat_map waiting (next (batches_tick _ _ _ _ _))).
      set (qe := flat_map waiting (next (emit_batch _ _ _ _ _))).
      rewrite !app_nil_r, <- !app_assoc. do 2 f_equiv.
      rewrite !app_assoc. f_equiv. apply Permutation_app_comm.
    - cbn [flat_map called_groups]. change (called_groups []) with (@nil Group).
      by rewrite !app_nil_r, <- !app_assoc. }
  assert (forall L st' p' pl s, running st' p' -> Inv L st' p' ->
            exists p'', running (perform st' (Submit pl s)) p''
                        /\ Inv (L ++ [group_of pl s]) (perform st' (Submit pl s)) p'') as Hsub.
  { intros L st' p' pl s Hr' HI. destruct (submit_running st' p' pl s Hr') as (Hr'' & Ht & _).
    eexists. split; [exact Hr''|]. unfold Inv, queued in *. rewrite Ht. cbn [window batches with_batches].
    by rewrite !app_assoc, <- HI, !app_assoc. }
  destruct (ingest_induction Inv Htick Hsub script _ _ p Hi Hr (reflexivity _)) as (p' & Hr' & HI).
  exists p'. split; [exact Hr'|]. unfold Inv in HI. by rewrite HI, <- !app_assoc.
Qed.

(** ** No group waits for ever *)

Section Slots.
Variable h : Handler.
Variables c T : N.
Hypothesis h_async : asynchronous h.

Lemma due_by_mono now B B' act : B <= B' -> due_by T now B act -> due_by T now B' act.
Proof.
  intros HB Hd. unfold due_by in *. eapply Forall_impl; [exact Hd|].
  intros t [H1 H2]. split; [done|lia].
Qed.

Lemma fire_all_due now B act :
  due_by T now B act -> due_by T (N.succ now) B (snd (fire_all T (N.succ now) act)).
Proof.
  unfold due_by. induction 1 as [|t act [Ht HD] _ IH]; cbn [fire_all snd]; [constructor|].
  destruct (task_fire T (N.succ now) t) as [evs [t'|]] eqn:Hf; cbn [snd option_list app]; [|done].
  destruct (task_fire_timely _ _ _ _ _ Ht Hf) as (Ht' & HD' & _).
  constructor; [split; [done|lia]|done].
Qed.

Lemma fire_all_all_end now act :
  due_by T now (N.succ now) act -> snd (fire_all T (N.succ now) act) = [].
Proof.
  unfold due_by. induction 1 as [|t act [Ht HD] _ IH]; cbn [fire_all snd]; [done|].
  by rewrite (task_fire_ends _ _ _ Ht HD), IH.
Qed.

Lemma start_waiting_due now buf :
  forall act,
    due_by T now (now + longest_flight T) act ->
    due_by T now (now + longest_flight T) (active (next (start_waiting h c T now act buf))).
Proof.
  induction buf as [|g buf IH]; intros act Hact; cbn [start_waiting]; [done|].
  destruct (N.of_nat (length act) <? c); [|done].
  destruct (h (payload g) (settings g)) as [pr|e]; cbn [next active]; [|done].
  apply IH. apply Forall_app. split; [done|]. fold (fresh_task g now pr).
  destruct (task_fire T now (fresh_task g now pr)) as [evs [t'|]] eqn:Hf;
    cbn [snd option_list]; [|constructor].
  destruct (task_fire_timely _ _ _ _ _ (fresh_task_timely T g now pr) Hf) as (Ht' & HD' & _).
  rewrite fresh_task_deadline in HD'. by repeat constructor.
Qed.

Lemma start_waiting_full now act buf :
  c <= N.of_nat (length act) ->
  start_waiting h c T now act buf
  = {| events := []; next := {| active := act; waiting := buf |}; failed := None |}.
Proof.
  intros Hc. destruct buf as [|g buf]; [done|]. cbn [start_waiting].
  destruct (N.ltb_spec (N.of_nat (length act)) c); [lia|done].
Qed.

Lemma start_waiting_head now act g w :
  N.of_nat (length act) < c ->
  exists cg, called_groups (events (start_waiting h c T now act (g :: w))) = g :: cg.
Proof.
  intros Hc. cbn [start_waiting]. destruct (N.ltb_spec (N.of_nat (length act)) c); [|lia].
  destruct (h (payload g) (settings g)) as [pr|e] eqn:Hg; [|by destruct (h_async _ _ _ Hg)].
  cbn [events]. rewrite called_groups_called. by eexists.
Qed.

Lemma start_waiting_started now buf :
  forall act g,
    g ∈ called_groups (events (start_waiting h c T now act buf)) ->
    Called g (h (payload g) (settings g)) ∈ events (start_waiting h c T now act buf)
    /\ ((exists o, TaskEnded g o ∈ events (start_waiting h c T now act buf))
        \/ (exists t,
              t ∈ active (next (start_waiting h c T now act buf))
              /\ t_group t = g
              /\ timely T (N.succ now) t
              /\ task_deadline T t <= now + longest_flight T)).
Proof.
  induction buf as [|g0 buf IH]; intros act g; cbn [start_waiting];
    [by intros ?%elem_of_nil|].
  destruct (N.of_nat (length act) <? c); [|by intros ?%elem_of_nil].
  destruct (h (payload g0) (settings g0)) as [pr|e] eqn:Hg0; [|by destruct (h_async _ _ _ Hg0)].
  cbn [events next]. rewrite called_groups_called, called_groups_app.
  rewrite (called_groups_none _ (task_fire_no_call _ _ _)). cbn [app].
  fold (fresh_task g0 now pr).
  intros [->|Hg]%elem_of_cons.
  - rewrite Hg0. split; [by left|].
    destruct (task_fire T now (fresh_task g0 now pr)) as [evs [t'|]] eqn:Hf; cbn [fst snd option_list].
    + right. exists t'.
      destruct (task_fire_timely _ _ _ _ _ (fresh_task_timely T g0 now pr) Hf)
        as (Ht' & HD' & _ & Hgr).
      rewrite fresh_task_deadline in HD'.
      split; [apply start_waiting_member, elem_of_app; right; by left|]. by repeat split.
    + left. destruct (task_fire_end_event T now (fresh_task g0 now pr)) as [o Ho];
        [by rewrite Hf|].
      rewrite Hf in Ho. exists o. right. apply elem_of_app. by left.
  - destruct (IH _ _ Hg) as [Hcall Hrest]. split.
    + right. apply elem_of_app. by right.
    + destruct Hrest as [[o Ho]|Hrest]; [|by right].
      left. exists o. right. apply elem_of_app. by right.
Qed.
End Slots.

(** With a slot or more, a slot comes free while the head of the queue is
    still the head: the groups in flight cannot all stay beyond [B]. *)
Lemma slot_frees p0 g w B n :
  1 <= p_maxConcurrency p0 ->
  forall st b,
    has_batch st p0 b ->
    waiting b = g :: w ->
    due_by (p_timeoutMs p0) (clock st) B (active b) ->
    B <= clock st + N.succ n ->
    exists k b0,
      k <= n
      /\ has_batch (advance k st) p0 b0
      /\ waiting b0 = g :: w
      /\ due_by (p_timeoutMs p0) (clock st + k) B (active b0)
      /\ N.of_nat (length (snd (fire_all (p_timeoutMs p0) (N.succ (clock st + k)) (active b0))))
         < p_maxConcurrency p0.
Proof.
  intros Hc. induction n as [|n IH] using N.peano_ind; intros st b Hb Hw Hdue HB;
    destruct (N.ltb_spec
                (N.of_nat (length (snd (fire_all (p_timeoutMs p0) (N.succ (clock st)) (active b)))))
                (p_maxConcurrency p0)) as [Hfree|Hfull].
  - exists 0, b. rewrite N.add_0_r. by repeat split.
  - rewrite fire_all_all_end in Hfull; [cbn in Hfull; lia|].
    eapply due_by_mono; [|exact Hdue]. lia.
  - exists 0, b. rewrite N.add_0_r. repeat split; try done. lia.
  - destruct (tick_has_batch st p0 b Hb) as [_ Hn].
    unfold batch_tick in Hn. cbn [next] in Hn.
    rewrite start_waiting_full in Hn by done. cbn [next] in Hn. rewrite Hw in Hn.
    specialize (Hn (waiting_not_done {| active := _; waiting := g :: w |} g
                      (list_elem_of_here g w))).
    destruct (IH (tick st) _ Hn eq_refl) as (k & b0 & Hk & Hb0 & Hw0 & Hd0 & Hf0).
    + cbn [active clock tick]. by apply fire_all_due.
    + cbn [clock tick]. lia.
    + exists (N.succ k), b0. rewrite advance_succ_r.
      cbn [clock tick] in Hd0, Hf0.
      replace (clock st + N.succ k) with (N.succ (clock st) + k) by lia.
      repeat split; try done. lia.
Qed.

Lemma longest_flight_pos T : 1 <= longest_flight T.
Proof. unfold longest_flight, retry_take, retry_delay. lia. Qed.

Lemma waiting_group_is_called p0 :
  asynchronous (p_onMessageReceive p0) ->
  1 <= p_maxConcurrency p0 ->
  forall (i : nat) st b g,
    has_batch st p0 b ->
    due_by (p_timeoutMs p0) (clock st) (clock st + longest_flight (p_timeoutMs p0)) (active b) ->
    waiting b !! i = Some g ->
    exists k,
      k < (N.of_nat i + 1) * longest_flight (p_timeoutMs p0)
      /\ (clock st + N.succ k, Called g (p_onMessageReceive p0 (payload g) (settings g)))
           ∈ trace (advance (N.succ k) st)
      /\ underway (advance (N.succ k) st) p0 g.
Proof.
  intros Ha Hc i. induction i as [i IH] using lt_wf_ind. intros st b g Hb Hdue Hi.
  pose proof (longest_flight_pos (p_timeoutMs p0)) as HD.
  set (D := longest_flight (p_timeoutMs p0)) in *.
  destruct (waiting b) as [|g0 w] eqn:Hw; [done|].
  destruct (slot_frees p0 g0 w (clock st + D) (D - 1) Hc st b Hb Hw Hdue)
    as (k0 & b0 & Hk0 & Hb0 & Hw0 & Hd0 & Hfree); [lia|].
  destruct (tick_has_batch _ p0 b0 Hb0) as [He Hn].
  rewrite clock_advance in He, Hn.
  unfold batch_tick in He, Hn. cbn [events next] in He, Hn. rewrite Hw0 in He, Hn.
  set (now1 := N.succ (clock st + k0)) in *.
  set (act' := snd (fire_all (p_timeoutMs p0) now1 (active b0))) in *.
  set (sw := start_waiting (p_onMessageReceive p0) (p_maxConcurrency p0) (p_timeoutMs p0)
               now1 act' (g0 :: w)) in *.
  pose proof (start_waiting_order (p_onMessageReceive p0) (p_maxConcurrency p0) (p_timeoutMs p0)
                now1 (g0 :: w) act') as Ho. fold sw in Ho.
  destruct (start_waiting_head (p_onMessageReceive p0) (p_maxConcurrency p0) (p_timeoutMs p0)
              Ha now1 act' g0 w Hfree) as (cg & Hcg). fold sw in Hcg.
  assert (clock (tick (advance k0 st)) = now1) as Hclock
    by (cbn [clock tick]; by rewrite clock_advance).
  rewrite <- Ho in Hi. apply lookup_app_Some in Hi as [Hi|[Hlen Hi]].
  - exists k0. split; [nia|]. rewrite advance_succ.
    replace (clock st + N.succ k0) with now1 by (unfold now1; lia).
    destruct (start_waiting_started (p_onMessageReceive p0) (p_maxConcurrency p0)
                (p_timeoutMs p0) Ha now1 (g0 :: w) act' g) as [Hcall Hrest];
      [by apply list_elem_of_lookup_2 in Hi|]. fold sw in Hcall, Hrest.
    split; [apply He, elem_of_app; by right|].
    unfold underway. rewrite Hclock. fold D.
    destruct Hrest as [[o Ho']|(t & Ht & Hg & Hty & Hdl)].
    + left. exists o. apply He, elem_of_app. by right.
    + right. exists t. split; [|done]. exists (next sw). split; [|done].
      apply Hn. by eapply active_not_done.
  - rewrite Hcg in Hlen, Hi. cbn [length] in Hlen, Hi.
    destruct (IH (i - S (length cg))%nat ltac:(lia) (tick (advance k0 st)) (next sw) g)
      as (k1 & Hk1 & Hev & Hun).
    + apply Hn. eapply waiting_not_done. by apply list_elem_of_lookup_2 in Hi.
    + rewrite Hclock.
      apply (start_waiting_due (p_onMessageReceive p0) (p_maxConcurrency p0)).
      eapply due_by_mono; [|apply fire_all_due; exact Hd0]. lia.
    + exact Hi.
    + exists (k1 + N.succ k0). split; [nia|].
      assert (advance (N.succ (k1 + N.succ k0)) st = advance (N.succ k1) (tick (advance k0 st)))
        as ->.
      { replace (N.succ (k1 + N.succ k0)) with (N.succ k1 + N.succ k0) by lia.
        by rewrite advance_add, (advance_succ k0 st). }
      split; [|exact Hun]. rewrite Hclock in Hev.
      replace (clock st + N.succ (k1 + N.succ k0)) with (now1 + N.succ k1)
        by (unfold now1; lia).
      exact Hev.
Qed.

Lemma trace_advance_later st m dt x :
  m <= dt -> x ∈ trace (advance m st) -> x ∈ trace (advance dt st).
Proof.
  intros Hle Hx. replace dt with ((dt - m) + m) by lia. rewrite advance_add.
  by apply trace_advance_mono.
Qed.

(** A group that is under way ends within [longest_flight]. *)
Lemma underway_ends st p0 g :
  underway st p0 g ->
  exists e o,
    clock st <= e
    /\ e <= clock st + longest_flight (p_timeoutMs p0)
    /\ forall dt, e <= clock st + dt -> (e, TaskEnded g o) ∈ trace (advance dt st).
Proof.
  pose proof (longest_flight_pos (p_timeoutMs p0)) as HD.
  intros [[o Ho]|(t & Hf & Hg & Ht & Hdl)].
  - exists (clock st), o. split; [lia|]. split; [lia|]. intros dt _.
    by apply trace_advance_mono.
  - destruct (in_flight_ends_aux p0 (longest_flight (p_timeoutMs p0) - 1) st t Hf Ht)
      as (k & o & Hk & He); [lia|].
    rewrite Hg in He. exists (clock st + N.succ k), o. split; [lia|]. split; [lia|].
    intros dt Hdt. apply (trace_advance_later st (N.succ k)); [lia|done].
Qed.

(** X17. With at least one slot, no group waits for ever and none stays in
    flight for ever, whatever the handler does with the groups before it.
    The group at position [i] of the buffer (counted from 0) is handed to
    the handler at an instant [s] between the flush and [i] times
    [longest_flight] after it (the first one always at the flush), and it
    ends, with one outcome or another, at most [longest_flight] after [s];
    [longest_flight] is three timers of [timeoutMs] and three seconds, that
    is, [3 * (timer timeoutMs + 1000)]. *)
Theorem every_group_reaches_the_handler (st : BaileysMessageProcessor) (p : Pipeline)
    (i : nat) (g : Group) :
  running st p ->
  clock st < flush_at p ->
  1 <= p_maxConcurrency p ->
  window p !! i = Some g ->
  exists s e o,
    flush_at p <= s
    /\ s <= flush_at p + N.of_nat i * longest_flight (p_timeoutMs p)
    /\ s <= e
    /\ e <= s + longest_flight (p_timeoutMs p)
    /\ longest_flight (p_timeoutMs p) = 3 * (timer (p_timeoutMs p) + 1000)
    /\ forall dt,
         e <= clock st + dt ->
         (s, Called g (p_onMessageReceive p (payload g) (settings g))) ∈ trace (advance dt st)
         /\ (e, TaskEnded g o) ∈ trace (advance dt st).
Proof.
  intros Hr Hlt Hc Hi. pose proof Hr as (_ & _ & Ha & _).
  destruct (advance_before_flush st p (flush_at p - clock st - 1) Hr) as (bs & Hr' & _); [lia|].
  set (st0 := advance (flush_at p - clock st - 1) st) in *.
  assert (N.succ (clock st0) = flush_at p) as Hclock
    by (unfold st0; rewrite clock_advance; lia).
  destruct (tick_flush st0 p (window p) (flush_at p) bs Hr') as [He Hn]; [lia|].
  rewrite Hclock in He, Hn.
  assert (tick st0 = advance (flush_at p - clock st) st) as Htick.
  { unfold st0. rewrite <- advance_succ. f_equal. lia. }
  assert (clock (tick st0) = flush_at p) as Hclock' by (cbn [clock tick]; exact Hclock).
  (* it is enough to find the instant of the call, with the group under way *)
  assert (exists k,
            k <= N.of_nat i * longest_flight (p_timeoutMs p)
            /\ (flush_at p + k, Called g (p_onMessageReceive p (payload g) (settings g)))
                 ∈ trace (advance k (tick st0))
            /\ underway (advance k (tick st0)) p g) as (k & Hk & Hcall & Hun).
  { destruct (window p) as [|g0 w] eqn:Hw; [done|].
    unfold emit_batch in He, Hn. cbn [events next] in He, Hn.
    set (sw := start_waiting (p_onMessageReceive p) (p_maxConcurrency p) (p_timeoutMs p)
                 (flush_at p) [] (g0 :: w)) in *.
    pose proof (start_waiting_order (p_onMessageReceive p) (p_maxConcurrency p) (p_timeoutMs p)
                  (flush_at p) (g0 :: w) []) as Ho. fold sw in Ho.
    destruct (start_waiting_head (p_onMessageReceive p) (p_maxConcurrency p) (p_timeoutMs p)
                Ha (flush_at p) [] g0 w) as (cg & Hcg); [cbn; lia|]. fold sw in Hcg.
    rewrite <- Ho in Hi. apply lookup_app_Some in Hi as [Hi|[Hlen Hi]].
    - exists 0. split; [lia|]. rewrite N.add_0_r. change (advance 0 (tick st0)) with (tick st0).
      destruct (start_waiting_started (p_onMessageReceive p) (p_maxConcurrency p)
                  (p_timeoutMs p) Ha (flush_at p) (g0 :: w) [] g) as [Hcall Hrest];
        [by apply list_elem_of_lookup_2 in Hi|]. fold sw in Hcall, Hrest.
      split; [apply He; right; by right|].
      unfold underway. rewrite Hclock'.
      destruct Hrest as [[o Ho']|(t & Ht & Hg & Hty & Hdl)].
      + left. exists o. apply He. right. by right.
      + right. exists t. split; [|done]. exists (next sw). split; [|done].
        apply Hn. unfold keep_batch. rewrite (active_not_done _ _ Ht). by left.
    - rewrite Hcg in Hlen, Hi. cbn [length] in Hlen, Hi.
      destruct (waiting_group_is_called p Ha Hc (i - S (length cg))%nat (tick st0) (next sw) g)
        as (k1 & Hk1 & Hev & Hun).
      + apply Hn. unfold keep_batch.
        rewrite (waiting_not_done (next sw) g) by (by apply list_elem_of_lookup_2 in Hi).
        by left.
      + rewrite Hclock'.
        apply (start_waiting_due (p_onMessageReceive p) (p_maxConcurrency p)). constructor.
      + exact Hi.
      + rewrite Hclock' in Hev. exists (N.succ k1). split; [nia|]. by split. }
  destruct (underway_ends _ _ _ Hun) as (e & o & He1 & He2 & Hend).
  rewrite clock_advance, Hclock' in He1, He2, Hend.
  exists (flush_at p + k), e, o. split; [lia|]. split; [lia|]. split; [lia|]. split; [lia|].
  split; [reflexivity|]. intros dt Hdt.
  assert (advance dt st = advance (dt - (flush_at p - clock st) - k) (advance k (tick st0)))
    as ->.
  { rewrite Htick, <- !advance_add. f_equal. lia. }
  split; [by apply trace_advance_mono|]. apply Hend. lia.
Qed.

(** ** What every state reached from [mount] satisfies *)

Section OnTime.
Variable h : Handler.
Variables c T : N.
Hypothesis h_async : asynchronous h.

Lemma batch_tick_due now b :
  due_by T now (now + longest_flight T) (active b) ->
  due_by T (N.succ now) (N.succ now + longest_flight T)
    (active (next (batch_tick h c T (N.succ now) b))).
Proof.
  intros Hd. unfold batch_tick. cbn [next]. apply start_waiting_due.
  eapply due_by_mono; [|apply fire_all_due; exact Hd]. lia.
Qed.

Lemma batches_tick_due now bs :
  Forall (fun b => due_by T now (now + longest_flight T) (active b)) bs ->
  Forall (fun b => due_by T (N.succ now) (N.succ now + longest_flight T) (active b))
    (next (batches_tick h c T (N.succ now) bs)).
Proof.
  induction 1 as [|b bs Hb _ IH]; cbn [batches_tick]; [constructor|].
  rewrite batch_tick_async by done. cbn [next]. apply Forall_app. split; [|done].
  unfold keep_batch. destruct (batch_done _); [constructor|].
  constructor; [by apply batch_tick_due|constructor].
Qed.

Lemma emit_batch_due now batch :
  Forall (fun b => due_by T now (now + longest_flight T) (active b))
    (next (emit_batch h c T now batch)).
Proof.
  unfold emit_batch. destruct batch as [|g batch]; [constructor|]. cbn [next].
  unfold keep_batch. destruct (batch_done _); [constructor|].
  constructor; [|constructor]. apply start_waiting_due. constructor.
Qed.
Lemma batches_tick_waiting_le now bs (n : nat) :
  Forall (fun b => (length (waiting b) <= n)%nat) bs ->
  Forall (fun b => (length (waiting b) <= n)%nat) (next (batches_tick h c T now bs)).
Proof.
  induction 1 as [|b bs Hb _ IH]; cbn [batches_tick]; [constructor|].
  rewrite batch_tick_async by done. cbn [next]. apply Forall_app. split; [|done].
  unfold keep_batch. destruct (batch_done _); [constructor|].
  constructor; [|constructor]. pose proof (batch_tick_calls h c T now b). lia.
Qed.

Lemma emit_batch_waiting_le now batch :
  Forall (fun b => (length (waiting b) <= length batch)%nat) (next (emit_batch h c T now batch)).
Proof.
  unfold emit_batch. destruct batch as [|g batch]; [constructor|]. cbn [next].
  unfold keep_batch. destruct (batch_done _); [constructor|].
  constructor; [|constructor]. pose proof (start_waiting_calls h c T now (g :: batch) []). lia.
Qed.
End OnTime.

Lemma tick_on_time st p :
  running st p ->
  on_time st p ->
  exists w f bs,
    pipelines (tick st) = [with_batches p w f false bs]
    /\ running (tick st) (with_batches p w f false bs)
    /\ on_time (tick st) (with_batches p w f false bs)
    /\ (length w <= length (window p))%nat
    /\ forall n : nat,
         (length (window p) <= n)%nat ->
         Forall (fun b => (length (waiting b) <= n)%nat) (batches p) ->
         Forall (fun b => (length (waiting b) <= n)%nat) bs.
Proof.
  intros Hr (Hlt & Hle & Hdue). pose proof Hr as (Hp & Hd & Ha & Hc & Hs).
  pose proof (timer_pos (p_batchTimeoutMs p)) as HW.
  destruct (tick_single st p Hp) as [Hp' _].
  rewrite (pipeline_tick_running_eq _ _ Hd Ha) in Hp'. cbn [fst snd option_list] in Hp'.
  eexists _, _, _. split; [exact Hp'|]. split; [unfold running; rewrite Hp'; by repeat split|].
  unfold on_time. cbn [p_timeoutMs p_batchTimeoutMs flush_at batches with_batches clock tick].
  destruct (N.leb_spec (flush_at p) (N.succ (clock st))).
  - split; [split; [lia|split; [lia|]]|split; [cbn; lia|]].
    + apply Forall_app. split; [by apply batches_tick_due|by apply emit_batch_due].
    + intros n Hn Hbs. apply Forall_app. split; [by apply batches_tick_waiting_le|].
      eapply Forall_impl; [apply emit_batch_waiting_le|]. cbn. intros b Hb. lia.
  - split; [split; [lia|split; [lia|]]|split; [done|]].
    + rewrite app_nil_r. by apply batches_tick_due.
    + intros n Hn Hbs. rewrite app_nil_r. by apply batches_tick_waiting_le.
Qed.

(** X21. The assumptions made above about a running processor hold in every
    state reached from [mount] by submissions and waiting, for a handler that
    never throws: there is one open subscription with the handler and the
    options given to [mount], the timer of [bufferTime] is ahead of the clock
    by at most the timer of [batchTimeoutMs], and every group in flight has
    nothing overdue and ends within [longest_flight], that is, three timers
    of [timeoutMs] and three seconds. *)
Theorem mounted_processor_keeps_time (props : MountProps) (now : N) (script : list Action) :
  asynchronous (onMessageReceive props) ->
  ingest_only script = true ->
  exists p,
    running (run script (snd (mount props (create now)))) p
    /\ p_onMessageReceive p = onMessageReceive props
    /\ p_maxConcurrency p = default 5 (options props !! "maxConcurrency")
    /\ p_timeoutMs p = default 30000 (options props !! "timeoutMs")
    /\ p_batchTimeoutMs p = default 1000 (options props !! "batchTimeoutMs")
    /\ on_time (run script (snd (mount props (create now)))) p
    /\ longest_flight (p_timeoutMs p) = 3 * (timer (p_timeoutMs p) + 1000).
Proof.
  intros Ha Hi.
  set (Inv := fun (_ : list Group) (st' : BaileysMessageProcessor) (p' : Pipeline) =>
                p_onMessageReceive p' = onMessageReceive props
                /\ p_maxConcurrency p' = default 5 (options props !! "maxConcurrency")
                /\ p_timeoutMs p' = default 30000 (options props !! "timeoutMs")
                /\ p_batchTimeoutMs p' = default 1000 (options props !! "batchTimeoutMs")
                /\ on_time st' p').
  assert (forall L st1 p1, running st1 p1 -> Inv L st1 p1 ->
            exists p', running (tick st1) p' /\ Inv L (tick st1) p') as Htick.
  { intros L st1 p1 Hr1 (Hh & HC & HT & HW1 & Hot).
    destruct (tick_on_time st1 p1 Hr1) as (w & f & bs & _ & Hr2 & Hot2 & _); [done|].
    eexists. split; [exact Hr2|]. unfold Inv. cbn [p_onMessageReceive p_maxConcurrency
      p_timeoutMs p_batchTimeoutMs with_batches]. repeat (split; [done|]). exact Hot2. }
  assert (forall L st1 p1 pl s, running st1 p1 -> Inv L st1 p1 ->
            exists p', running (perform st1 (Submit pl s)) p'
                       /\ Inv (L ++ [group_of pl s]) (perform st1 (Submit pl s)) p') as Hsub.
  { intros L st1 p1 pl s Hr1 (Hh & HC & HT & HW1 & Hot).
    destruct (submit_running st1 p1 pl s Hr1) as (Hr2 & _ & Hc).
    eexists. split; [exact Hr2|]. unfold Inv, on_time in *. rewrite Hc. by cbn. }
  destruct (mount_running props now Ha) as (p0 & Hr0 & _).
  destruct (ingest_induction Inv Htick Hsub script [] _ p0 Hi Hr0) as (p' & Hr' & HI).
  { pose proof Hr0 as (Hp0 & _). unfold mount in Hp0. cbn in Hp0.
    injection Hp0 as <-. unfold Inv, on_time. cbn.
    pose proof (timer_pos (default 1000 (options props !! "batchTimeoutMs"))).
    repeat split; try done; try lia. }
  exists p'. destruct HI as (H1 & H2 & H3 & H4 & H5). by repeat (split; [done|]).
Qed.

(** ** The log line of [tap] *)

Lemma announced_app evs1 evs2 : announced evs1 -> announced evs2 -> announced (evs1 ++ evs2).
Proof.
  intros H1 H2 b [Hb|Hb]%elem_of_app; apply elem_of_app; [left; by apply H1|right; by apply H2].
Qed.

Lemma elem_of_batches_of b evs : Emitted b ∈ evs -> b ∈ batches_of evs.
Proof.
  unfold batches_of. intros Hb. apply list_elem_of_omap. by exists (Emitted b).
Qed.

Lemma announced_no_batch evs : batches_of evs = [] -> announced evs.
Proof.
  intros He b Hb%elem_of_batches_of. rewrite He in Hb. by apply elem_of_nil in Hb.
Qed.

Lemma announced_concat {A} (f : A -> list Event) (l : list A) :
  (forall a, announced (f a)) -> announced (concat (map f l)).
Proof.
  intros Hf. induction l as [|a l IH]; cbn [map concat]; [by intros b ?%elem_of_nil|].
  by apply announced_app.
Qed.

Lemma emit_batch_announced h c T now batch : announced (events (emit_batch h c T now batch)).
Proof.
  unfold emit_batch. destruct batch as [|g batch]; [by intros b ?%elem_of_nil|]. cbn [events].
  intros b [Hb|Hb]%elem_of_cons.
  - injection Hb as ->. right. by left.
  - apply elem_of_cons in Hb as [Hb|Hb]; [done|].
    apply elem_of_batches_of in Hb. rewrite start_waiting_no_batch in Hb.
    by apply elem_of_nil in Hb.
Qed.

Lemma pipeline_tick_announced now p : announced (fst (pipeline_tick now p)).
Proof.
  unfold pipeline_tick. destruct (failed _); cbn [fst].
  - apply announced_app; apply announced_no_batch;
      [apply batches_tick_no_batch|apply stream_error_no_batch].
  - apply announced_app; [apply announced_no_batch, batches_tick_no_batch|].
    unfold flush. destruct (negb _ && _); [|apply announced_no_batch, settle_no_batch].
    destruct (failed _); cbn [fst]; [|apply emit_batch_announced].
    apply announced_app; [apply emit_batch_announced|].
    apply announced_no_batch, stream_error_no_batch.
Qed.

Lemma bufferTime_complete_announced now p : announced (fst (bufferTime_complete now p)).
Proof.
  unfold bufferTime_complete. destruct (source_done p); [by intros b ?%elem_of_nil|].
  destruct (failed _); cbn [fst]; (apply announced_app; [apply emit_batch_announced|]);
    apply announced_no_batch; [apply stream_error_no_batch|apply settle_no_batch].
Qed.

Lemma announced_stamp tr now evs :
  (forall t b, (t, Emitted b) ∈ tr -> (t, Logged (log_processing_batch (length b))) ∈ tr) ->
  announced evs ->
  forall t b, (t, Emitted b) ∈ tr ++ stamp now evs ->
              (t, Logged (log_processing_batch (length b))) ∈ tr ++ stamp now evs.
Proof.
  intros Htr Hevs t b [Hb|Hb]%elem_of_app; apply elem_of_app; [left; by apply Htr|right].
  unfold stamp in Hb. apply list_elem_of_fmap in Hb as (e & [= -> <-] & He).
  apply elem_of_stamp. by apply Hevs.
Qed.

Lemma perform_announced st a :
  (forall t b, (t, Emitted b) ∈ trace st ->
               (t, Logged (log_processing_batch (length b))) ∈ trace st) ->
  forall t b, (t, Emitted b) ∈ trace (perform st a) ->
              (t, Logged (log_processing_batch (length b))) ∈ trace (perform st a).
Proof.
  intros H. destruct a as [props|pl s| |dt]; cbn [perform].
  - unfold mount. repeat case_match; cbn [snd trace]; [done| |done].
    apply announced_stamp; [done|]. by apply announced_no_batch.
  - unfold processMessage. by repeat case_match.
  - assert (announced (Logged log_destroying :: fst (unsubscribe st))) as Hu.
    { apply announced_no_batch, batches_of_logs. cbn [forallb is_log andb].
      unfold unsubscribe. destruct (subscription st) as [s0|]; [|done]. cbn [fst].
      generalize (pipelines st). clear. intros ps.
      induction ps as [|p ps IH]; [done|]. cbn [flat_map].
      apply forallb_app_true; [|done]. destruct (decide _); [apply teardown_logs_is_log|done]. }
    unfold onDestroy. destruct (closed _); [|destruct (isStopped _)]; cbn [snd trace].
    + by apply announced_stamp.
    + by apply announced_stamp.
    + apply announced_stamp; [by apply announced_stamp|]. rewrite map_map.
      apply announced_concat. intros p. apply bufferTime_complete_announced.
  - induction dt as [|dt IH] using N.peano_ind; [done|]. rewrite advance_succ.
    unfold tick. cbn [trace]. apply announced_stamp; [done|]. rewrite map_map.
    apply announced_concat. intros p. apply pipeline_tick_announced.
Qed.

(** X22. Every batch handed to the executor is announced in the log with its
    true size: whatever is done with a processor, a batch recorded in the
    trace comes with the line [Processing batch of n message groups] of the
    same instant, [n] being the number of groups of the batch. *)
Theorem every_batch_is_announced (script : list Action) (now t : N) (b : list Group) :
  (t, Emitted b) ∈ trace (run script (create now)) ->
  (t, Logged (log_processing_batch (length b))) ∈ trace (run script (create now)).
Proof.
  assert (forall st,
            (forall t b, (t, Emitted b) ∈ trace st ->
                         (t, Logged (log_processing_batch (length b))) ∈ trace st) ->
            forall t b, (t, Emitted b) ∈ trace (run script st) ->
                        (t, Logged (log_processing_batch (length b))) ∈ trace (run script st))
    as H.
  { induction script as [|a script IH]; intros st Hst; [done|].
    rewrite run_cons. by apply IH, perform_announced. }
  apply H. cbn. by intros t' b' ?%elem_of_nil.
Qed.

(** ** Every group submitted is handled *)

Lemma task_fire_group T now t evs t' :
  task_fire T now t = (evs, Some t') -> t_group t' = t_group t.
Proof.
  unfold task_fire, observe, on_source_error, source_signal.
  repeat (case_match; cbn [with_phase t_group]); intros [= <- <-]; try done; by subst.
Qed.

Section Accounts.
Variable h : Handler.
Variables c T : N.
Hypothesis h_async : asynchronous h.

(** A group in the queue stays in the queue or is handed to the handler,
    and then its observable has ended or is in flight. *)
Lemma start_waiting_accounts now act buf g :
  g ∈ buf ->
  g ∈ waiting (next (start_waiting h c T now act buf))
  \/ (Called g (h (payload g) (settings g)) ∈ events (start_waiting h c T now act buf)
      /\ ((exists o, TaskEnded g o ∈ events (start_waiting h c T now act buf))
          \/ (exists t, t ∈ active (next (start_waiting h c T now act buf)) /\ t_group t = g))).
Proof.
  intros Hg. rewrite <- (start_waiting_order h c T now buf act) in Hg.
  apply elem_of_app in Hg as [Hg|Hg]; [right|by left].
  destruct (start_waiting_started h c T h_async now buf act g Hg) as [Hc Hrest].
  split; [done|]. destruct Hrest as [?|(t & Ht & Hgr & _)]; [by left|right; by exists t].
Qed.

Lemma batch_tick_accounts now b g :
  g ∈ waiting b ->
  g ∈ waiting (next (batch_tick h c T now b))
  \/ (Called g (h (payload g) (settings g)) ∈ events (batch_tick h c T now b)
      /\ ((exists o, TaskEnded g o ∈ events (batch_tick h c T now b))
          \/ (exists t, t ∈ active (next (batch_tick h c T now b)) /\ t_group t = g))).
Proof.
  intros Hg. unfold batch_tick. cbn [events next].
  destruct (start_waiting_accounts now (snd (fire_all T now (active b))) (waiting b) g Hg)
    as [Hw|[Hc Hrest]]; [by left|right].
  split; [apply elem_of_app; by right|].
  destruct Hrest as [[o Ho]|?]; [left; exists o; apply elem_of_app; by right|by right].
Qed.

Lemma emit_batch_accounts now batch g :
  g ∈ batch ->
  (exists b, b ∈ next (emit_batch h c T now batch) /\ g ∈ waiting b)
  \/ (Called g (h (payload g) (settings g)) ∈ events (emit_batch h c T now batch)
      /\ ((exists o, TaskEnded g o ∈ events (emit_batch h c T now batch))
          \/ (exists b t, b ∈ next (emit_batch h c T now batch) /\ t ∈ active b /\ t_group t = g))).
Proof.
  intros Hg. unfold emit_batch. destruct batch as [|g0 batch]; [by apply elem_of_nil in Hg|].
  cbn [events next].
  destruct (start_waiting_accounts now [] (g0 :: batch) g Hg) as [Hw|[Hc Hrest]].
  - left. eexists. split; [|exact Hw]. unfold keep_batch.
    rewrite (waiting_not_done _ _ Hw). by left.
  - right. split; [right; by right|].
    destruct Hrest as [[o Ho]|(t & Ht & Hgr)]; [left; exists o; right; by right|right].
    eexists _, t. split; [|done]. unfold keep_batch. rewrite (active_not_done _ _ Ht). by left.
Qed.

End Accounts.

Lemma tick_accounted st p p' g :
  running st p ->
  pipelines (tick st) = [p'] ->
  accounted st p g ->
  accounted (tick st) p' g.
Proof.
  intros Hr Hp' Hacc. pose proof Hr as (Hp & Hd & Ha & _).
  destruct (tick_single st p Hp) as [Hps Ht].
  rewrite (pipeline_tick_running_eq _ _ Hd Ha) in Hps, Ht. cbn [fst snd option_list] in Hps, Ht.
  rewrite Hp' in Hps. injection Hps as ->.
  set (now1 := N.succ (clock st)) in *.
  set (bt := batches_tick (p_onMessageReceive p) (p_maxConcurrency p) (p_timeoutMs p) now1
               (batches p)) in *.
  set (eb := emit_batch (p_onMessageReceive p) (p_maxConcurrency p) (p_timeoutMs p) now1
               (window p)) in *.
  assert (forall x, x ∈ trace st -> x ∈ trace (tick st)) as Hold.
  { intros x Hx. rewrite Ht. apply elem_of_app. by left. }
  assert (forall e, e ∈ events bt -> (now1, e) ∈ trace (tick st)) as Hbt.
  { intros e He. rewrite Ht. apply elem_of_app. right. apply elem_of_stamp.
    apply elem_of_app. by left. }
  assert (clock (tick st) = now1) as Hclock by done.
  unfold accounted. rewrite Hclock.
  cbn [window batches with_batches p_onMessageReceive].
  destruct Hacc as [Hw|[(b & Hb & Hw)|(s & Hs & Hcall & Hrest)]].
  - (* in the open buffer *)
    destruct (N.leb_spec (flush_at p) now1) as [Hdue|Hnot]; [|by left].
    right. destruct (emit_batch_accounts (p_onMessageReceive p) (p_maxConcurrency p)
                       (p_timeoutMs p) Ha now1 (window p) g Hw)
      as [(b & Hb & Hgb)|[Hc Hrest]].
    + left. exists b. split; [apply elem_of_app; by right|done].
    + assert (forall e, e ∈ events eb -> (now1, e) ∈ trace (tick st)) as Heb.
      { intros e He. rewrite Ht. apply elem_of_app. right. apply elem_of_stamp.
        apply elem_of_app. right. destruct (N.leb_spec (flush_at p) now1); [done|lia]. }
      right. exists now1. split; [lia|]. split; [by apply Heb|].
      destruct Hrest as [[o Ho]|(b & t & Hb & Htb & Hgr)].
      * left. exists now1, o. split; [lia|]. split; [lia|]. by apply Heb.
      * right. exists b, t. split; [apply elem_of_app; by right|done].
  - (* waiting for a slot *)
    right.
    destruct (batches_tick_member (p_onMessageReceive p) (p_maxConcurrency p) (p_timeoutMs p)
                Ha now1 (batches p) b Hb) as [He Hn]. fold bt in He, Hn.
    destruct (batch_tick_accounts (p_onMessageReceive p) (p_maxConcurrency p) (p_timeoutMs p)
                Ha now1 b g Hw) as [Hw'|[Hc Hrest]].
    + left. eexists. split; [|exact Hw']. apply elem_of_app. left.
      apply Hn. by eapply waiting_not_done.
    + right. exists now1. split; [lia|]. split; [by apply Hbt, He|].
      destruct Hrest as [[o Ho]|(t & Htb & Hgr)].
      * left. exists now1, o. split; [lia|]. split; [lia|]. by apply Hbt, He.
      * right. eexists _, t. split; [|done]. apply elem_of_app. left.
        apply Hn. by eapply active_not_done.
  - (* handed to the handler *)
    right. right. exists s. split; [lia|]. split; [by apply Hold|].
    destruct Hrest as [(e & o & Hse & Hec & He)|(b & t & Hb & Htb & Hgr)].
    + left. exists e, o. split; [done|]. split; [lia|]. by apply Hold.
    + destruct (batches_tick_member (p_onMessageReceive p) (p_maxConcurrency p) (p_timeoutMs p)
                  Ha now1 (batches p) b Hb) as [He Hn]. fold bt in He, Hn.
      destruct (batch_tick_member (p_onMessageReceive p) (p_maxConcurrency p) (p_timeoutMs p)
                  now1 b t Htb) as [Hev Hnext].
      destruct (task_fire (p_timeoutMs p) now1 t) as [evs [t'|]] eqn:Hf.
      * right. eexists _, t'. split; [|split; [by apply Hnext|]].
        -- apply elem_of_app. left. apply Hn. eapply active_not_done. by apply Hnext.
        -- by rewrite (task_fire_group _ _ _ _ _ Hf).
      * left. destruct (task_fire_end_event (p_timeoutMs p) now1 t) as [o Ho]; [by rewrite Hf|].
        rewrite Hgr, Hf in Ho. exists now1, o. split; [lia|]. split; [lia|].
        by apply Hbt, He, Hev.
Qed.

Lemma submit_accounted st p pl s g :
  running st p ->
  accounted st p g ->
  accounted (perform st (Submit pl s))
    (with_batches p (window p ++ [group_of pl s]) (flush_at p) false (batches p)) g.
Proof.
  intros Hr Hacc. destruct (submit_running st p pl s Hr) as (_ & Ht & Hc).
  unfold accounted in *. rewrite Ht, Hc. cbn [window batches with_batches p_onMessageReceive].
  destruct Hacc as [Hw|[?|?]]; [left; apply elem_of_app; by left|right; by left|right; by right].
Qed.

Lemma ingest_only_app s1 s2 :
  ingest_only (s1 ++ s2) = ingest_only s1 && ingest_only s2.
Proof. apply forallb_app. Qed.

(** X23. Every group submitted is handled to the end.  With a handler that
    never throws and at least one slot: after [mount] and any submissions
    and waiting, once a further
    [timer batchTimeoutMs + (n + 1) * 3 * (timer timeoutMs + 1000)]
    milliseconds have passed, [n] being the number of groups submitted, the
    handler has been called for every group submitted and the group has
    ended, with one outcome or another.  The timer of a delay is the delay
    itself from 1 to [2^31 - 1], and one millisecond otherwise. *)
Theorem every_submitted_group_is_handled (props : MountProps) (now : N)
    (script : list Action) (g : Group) (dt : N) :
  asynchronous (onMessageReceive props) ->
  1 <= default 5 (options props !! "maxConcurrency") ->
  ingest_only script = true ->
  g ∈ submitted script ->
  timer (default 1000 (options props !! "batchTimeoutMs"))
  + (N.of_nat (length (submitted script)) + 1)
    * (3 * (timer (default 30000 (options props !! "timeoutMs")) + 1000)) <= dt ->
  exists s e o,
    s <= e
    /\ (s, Called g (onMessageReceive props (payload g) (settings g)))
         ∈ trace (advance dt (run script (snd (mount props (create now)))))
    /\ (e, TaskEnded g o) ∈ trace (advance dt (run script (snd (mount props (create now))))).
Proof.
  intros Ha HC Hi Hg Hdt.
  change (3 * (timer (default 30000 (options props !! "timeoutMs")) + 1000))
    with (longest_flight (default 30000 (options props !! "timeoutMs"))) in Hdt.
  pose proof (timer_pos (default 1000 (options props !! "batchTimeoutMs"))) as HW.
  set (C := default 5 (options props !! "maxConcurrency")) in *.
  set (T := default 30000 (options props !! "timeoutMs")) in *.
  set (W0 := default 1000 (options props !! "batchTimeoutMs")) in *.
  set (W := timer W0) in *.
  pose proof (longest_flight_pos T) as HD. set (D := longest_flight T) in *.
  set (Inv := fun (L : list Group) (st' : BaileysMessageProcessor) (p' : Pipeline) =>
                (p_onMessageReceive p' = onMessageReceive props
                 /\ p_maxConcurrency p' = C /\ p_timeoutMs p' = T /\ p_batchTimeoutMs p' = W0)
                /\ on_time st' p'
                /\ (length (window p') <= length L)%nat
                /\ Forall (fun b => (length (waiting b) <= length L)%nat) (batches p')
                /\ forall g', g' ∈ L -> accounted st' p' g').
  assert (forall L st1 p1, running st1 p1 -> Inv L st1 p1 ->
            exists p', running (tick st1) p' /\ Inv L (tick st1) p') as Htick.
  { intros L st1 p1 Hr1 ((Hh & HC1 & HT1 & HW1) & Hot & Hlw & Hlb & Hacc).
    destruct (tick_on_time st1 p1 Hr1) as (w & f & bs & Hp2 & Hr2 & Hot2 & Hw2 & Hb2);
      [done|].
    eexists. split; [exact Hr2|]. split; [by cbn|]. split; [exact Hot2|].
    cbn [window batches with_batches]. split; [lia|]. split; [by apply Hb2|].
    intros g' Hg'. apply (tick_accounted st1 p1); [done|done|by apply Hacc]. }
  assert (forall L st1 p1 pl s, running st1 p1 -> Inv L st1 p1 ->
            exists p', running (perform st1 (Submit pl s)) p'
                       /\ Inv (L ++ [group_of pl s]) (perform st1 (Submit pl s)) p') as Hsub.
  { intros L st1 p1 pl s Hr1 ((Hh & HC1 & HT1 & HW1) & Hot & Hlw & Hlb & Hacc).
    destruct (submit_running st1 p1 pl s Hr1) as (Hr2 & _ & Hc).
    eexists. split; [exact Hr2|]. split; [by cbn|].
    split; [unfold on_time in *; rewrite Hc; by cbn|].
    cbn [window batches with_batches]. rewrite !length_app. cbn [length].
    split; [lia|]. split; [eapply Forall_impl; [exact Hlb|]; cbn; intros; lia|].
    intros g' [Hg'|Hg']%elem_of_app.
    - by apply submit_accounted, Hacc.
    - apply list_elem_of_singleton in Hg' as ->. left. apply elem_of_app. right. by left. }
  (* after the run, and after one more round of the timer *)
  destruct (mount_running props now Ha) as (p0 & Hr0 & _).
  destruct (ingest_induction Inv Htick Hsub script [] _ p0 Hi Hr0) as (p1 & Hr1 & HI1).
  { pose proof Hr0 as (Hp0 & _). unfold mount in Hp0. cbn in Hp0.
    injection Hp0 as <-. unfold Inv, on_time. cbn. fold W0. fold W.
    split; [done|]. split; [repeat split; try lia; constructor|]. split; [lia|].
    split; [constructor|]. by intros g' ?%elem_of_nil. }
  cbn [app] in HI1. set (st1 := run script (snd (mount props (create now)))) in *.
  set (L := submitted script) in *.
  pose proof HI1 as ((Hh1 & HC1 & HT1 & HW1) & (Hlt1 & Hle1 & _) & _).
  rewrite HW1 in Hle1. fold W in Hle1.
  destruct (ingest_induction Inv Htick Hsub [Wait W] L st1 p1 eq_refl Hr1 HI1)
    as (p2 & Hr2 & HI2).
  cbn [submitted run fold_left perform] in Hr2, HI2. rewrite app_nil_r in HI2.
  set (st2 := advance W st1) in *.
  destruct HI2 as ((Hh2 & HC2 & HT2 & HW2) & (_ & _ & Hdue2) & _ & Hlb2 & Hacc2).
  assert (window p2 = []) as Hw2.
  { destruct (advance_to_flush st1 p1 Hr1 Hlt1) as (bs & Hrf & _).
    destruct (advance_idle _ _ (W - (flush_at p1 - clock st1)) Hrf eq_refl)
      as (f & bs' & Hri & _).
    rewrite <- advance_add in Hri.
    replace (W - (flush_at p1 - clock st1) + (flush_at p1 - clock st1)) with W in Hri by lia.
    fold st2 in Hri. destruct Hri as (Hp & _). destruct Hr2 as (Hp2 & _).
    rewrite Hp2 in Hp. by injection Hp as ->. }
  assert (advance dt st1 = advance (dt - W) st2) as Hst.
  { unfold st2. rewrite <- advance_add. f_equal. lia. }
  rewrite Hst. rewrite HT2 in Hdue2. fold D in Hdue2. rewrite <- Hh2.
  destruct (Hacc2 g Hg) as [Hw|[(b & Hb & Hgb)|(s & Hs & Hcall & Hrest)]].
  - rewrite Hw2 in Hw. by apply elem_of_nil in Hw.
  - (* waiting for a slot *)
    apply list_elem_of_lookup_1 in Hgb as (i & Hi').
    pose proof (lookup_lt_Some _ _ _ Hi') as Hlen.
    rewrite Forall_forall in Hlb2. specialize (Hlb2 _ Hb).
    destruct (waiting_group_is_called p2) with (i := i) (st := st2) (b := b) (g := g)
      as (k & Hk & Hc & Hun); [by destruct Hr2 as (_ & _ & ? & _)|lia| | |done|].
    { exists (window p2), (flush_at p2), (batches p2). split; [by apply running_eta|done]. }
    { rewrite HT2. fold D. rewrite Forall_forall in Hdue2. by apply Hdue2. }
    rewrite HT2 in Hk. fold D in Hk.
    destruct (underway_ends _ _ _ Hun) as (e & o & He1 & He2 & Hend).
    rewrite clock_advance in He1, He2, Hend. rewrite HT2 in He2. fold D in He2.
    exists (clock st2 + N.succ k), e, o. split; [lia|].
    assert (N.succ k + D <= dt - W) as Hroom by (fold L in Hdt; nia).
    split; [apply (trace_advance_later st2 (N.succ k)); [lia|done]|].
    replace (dt - W) with ((dt - W - N.succ k) + N.succ k) by lia. rewrite advance_add.
    apply Hend. lia.
  - destruct Hrest as [(e & o & Hse & _ & He)|(b & t & Hb & Htb & Hgr)].
    + exists s, e, o. split; [done|]. split; by apply trace_advance_mono.
    + (* in flight *)
      rewrite Forall_forall in Hdue2. specialize (Hdue2 _ Hb).
      unfold due_by in Hdue2. rewrite Forall_forall in Hdue2.
      destruct (Hdue2 _ Htb) as [Hty Hdl].
      destruct (in_flight_ends_aux p2 (D - 1) st2 t) as (k & o & Hk & He);
        [by eapply in_flight_intro|by rewrite HT2|rewrite HT2; lia|].
      rewrite Hgr in He. exists s, (clock st2 + N.succ k), o. split; [lia|].
      split; [by apply trace_advance_mono|].
      apply (trace_advance_later st2 (N.succ k)); [fold L in Hdt; nia|done].
Qed.

(** ** The further properties at concrete inputs *)

Lemma called_alone_running tbl T id pr :
  pipelines (called_alone tbl T id) = [called_alone_pipeline tbl T id pr] ->
  running (called_alone tbl T id) (called_alone_pipeline tbl T id pr).
Proof.
  intros Hp. split; [exact Hp|]. split; [reflexivity|].
  split; [apply table_handler_asynchronous|]. split; reflexivity.
Qed.

Lemma two_running : running two_submitted two_pipeline.
Proof.
  split; [reflexivity|]. split; [reflexivity|].
  split; [apply table_handler_asynchronous|]. split; reflexivity.
Qed.

Lemma batcher_loses_nothing_witness :
  running mounted mounted_pipeline
  /\ ingest_only [Submit (payload_of "a") ""; Wait 1500; Submit (payload_of "b") ""] = true
  /\ exists p',
       running (run [Submit (payload_of "a") ""; Wait 1500; Submit (payload_of "b") ""] mounted) p'
       /\ delivered (trace (run [Submit (payload_of "a") ""; Wait 1500;
                                 Submit (payload_of "b") ""] mounted))
          ++ window p'
          = delivered (trace mounted) ++ window mounted_pipeline
            ++ submitted [Submit (payload_of "a") ""; Wait 1500; Submit (payload_of "b") ""].
Proof.
  split; [exact mounted_running|]. split; [reflexivity|].
  exact (batcher_loses_nothing mounted mounted_pipeline
           [Submit (payload_of "a") ""; Wait 1500; Submit (payload_of "b") ""]
           mounted_running eq_refl).
Defined.

Lemma batches_leave_on_the_grid_witness :
  asynchronous (onMessageReceive (eager_props sample_table 0))
  /\ ingest_only [Submit (payload_of "a") ""; Wait 15; Submit (payload_of "b") ""; Wait 7]
     = true
  /\ Forall (fun tb =>
               on_grid 0
                 (timer (default 1000 (options (eager_props sample_table 0) !! "batchTimeoutMs")))
                 (fst tb))
       (emitted (trace (run [Submit (payload_of "a") ""; Wait 15; Submit (payload_of "b") "";
                             Wait 7]
                          (snd (mount (eager_props sample_table 0) (create 0)))))).
Proof.
  split; [apply table_handler_asynchronous|]. split; [reflexivity|].
  exact (batches_leave_on_the_grid (eager_props sample_table 0) 0
           [Submit (payload_of "a") ""; Wait 15; Submit (payload_of "b") ""; Wait 7]
           (table_handler_asynchronous sample_table) eq_refl).
Defined.

Lemma group_in_flight_ends_witness :
  running hanging hanging_pipeline
  /\ hanging_batch ∈ batches hanging_pipeline
  /\ hanging_task ∈ active hanging_batch
  /\ timely (p_timeoutMs hanging_pipeline) (N.succ (clock hanging)) hanging_task
  /\ (exists k o,
        clock hanging + N.succ k
        <= N.max (task_deadline (p_timeoutMs hanging_pipeline) hanging_task)
             (N.succ (clock hanging))
        /\ (clock hanging + N.succ k, TaskEnded (t_group hanging_task) o)
             ∈ trace (advance (N.succ k) hanging))
  /\ (forall g s pr,
        task_deadline (p_timeoutMs hanging_pipeline) (fresh_task g s pr)
        = s + 3 * (timer (p_timeoutMs hanging_pipeline) + 1000)).
Proof.
  assert (hanging_batch ∈ batches hanging_pipeline) as Hb by (by left).
  assert (hanging_task ∈ active hanging_batch) as Ht by (by left).
  assert (timely (p_timeoutMs hanging_pipeline) (N.succ (clock hanging)) hanging_task) as Hy
    by (vm_compute; discriminate).
  split; [exact hanging_running|]. split; [exact Hb|]. split; [exact Ht|]. split; [exact Hy|].
  exact (group_in_flight_ends hanging hanging_pipeline hanging_batch hanging_task
           hanging_running Hb Ht Hy).
Defined.

Lemma rejected_group_is_retried_every_second_witness :
  running (called_alone sample_table 2 "bad")
    (called_alone_pipeline sample_table 2 "bad" (Rejects 2 (ErrorWith "boom")))
  /\ clock (called_alone sample_table 2 "bad") < 1 + 2
  /\ 2 <= timer (p_timeoutMs
                   (called_alone_pipeline sample_table 2 "bad" (Rejects 2 (ErrorWith "boom"))))
  /\ (1 + 2 + 3000, TaskEnded (group_of (payload_of "bad") "") Exhausted)
       ∈ trace (advance (1 + 2 + 3000 - clock (called_alone sample_table 2 "bad"))
                  (called_alone sample_table 2 "bad")).
Proof.
  assert (running (called_alone sample_table 2 "bad")
            (called_alone_pipeline sample_table 2 "bad" (Rejects 2 (ErrorWith "boom")))) as Hr
    by (apply called_alone_running; by vm_compute).
  assert (clock (called_alone sample_table 2 "bad") < 1 + 2) as Hlt by reflexivity.
  assert (2 <= timer (p_timeoutMs
                        (called_alone_pipeline sample_table 2 "bad"
                           (Rejects 2 (ErrorWith "boom")))))
    as Hd by (vm_compute; discriminate).
  split; [exact Hr|]. split; [exact Hlt|]. split; [exact Hd|].
  exact (proj1 (proj2 (proj2 (proj2
           (rejected_group_is_retried_every_second _ _
              (called_alone_batch "bad" (Rejects 2 (ErrorWith "boom")))
              (group_of (payload_of "bad") "") 1 2 "boom" Hr
              ltac:(by left) ltac:(by left) Hlt Hd))))).
Defined.

Lemma late_answer_succeeds_with_failure_log_witness :
  running (called_alone sample_table 1000 "slow")
    (called_alone_pipeline sample_table 1000 "slow" (Resolves 1500))
  /\ clock (called_alone sample_table 1000 "slow")
     < 1 + timer (p_timeoutMs (called_alone_pipeline sample_table 1000 "slow" (Resolves 1500)))
  /\ timer (p_timeoutMs (called_alone_pipeline sample_table 1000 "slow" (Resolves 1500))) < 1500
  /\ 1500
     <= timer (p_timeoutMs (called_alone_pipeline sample_table 1000 "slow" (Resolves 1500)))
        + 1000
  /\ (1 + timer (p_timeoutMs (called_alone_pipeline sample_table 1000 "slow" (Resolves 1500)))
      + 1000,
      TaskEnded (group_of (payload_of "slow") "") Succeeded)
       ∈ trace (advance
                  (1 + timer (p_timeoutMs
                                (called_alone_pipeline sample_table 1000 "slow" (Resolves 1500)))
                   + 1000 - clock (called_alone sample_table 1000 "slow"))
                  (called_alone sample_table 1000 "slow"))
  /\ (1 + timer (p_timeoutMs (called_alone_pipeline sample_table 1000 "slow" (Resolves 1500)))
      + 1000,
      Logged error_failed_after_retries)
       ∈ trace (advance
                  (1 + timer (p_timeoutMs
                                (called_alone_pipeline sample_table 1000 "slow" (Resolves 1500)))
                   + 1000 - clock (called_alone sample_table 1000 "slow"))
                  (called_alone sample_table 1000 "slow")).
Proof.
  assert (running (called_alone sample_table 1000 "slow")
            (called_alone_pipeline sample_table 1000 "slow" (Resolves 1500))) as Hr
    by (apply called_alone_running; by vm_compute).
  assert (clock (called_alone sample_table 1000 "slow")
          < 1 + timer (p_timeoutMs
                         (called_alone_pipeline sample_table 1000 "slow" (Resolves 1500))))
    as Hlt by reflexivity.
  assert (timer (p_timeoutMs (called_alone_pipeline sample_table 1000 "slow" (Resolves 1500)))
          < 1500) as H1 by reflexivity.
  assert (1500
          <= timer (p_timeoutMs (called_alone_pipeline sample_table 1000 "slow" (Resolves 1500)))
             + 1000) as H2 by (vm_compute; discriminate).
  split; [exact Hr|]. split; [exact Hlt|]. split; [exact H1|]. split; [exact H2|].
  exact (proj2 (late_answer_succeeds_with_failure_log _ _
                  (called_alone_batch "slow" (Resolves 1500))
                  (group_of (payload_of "slow") "") 1 1500 Hr
                  ltac:(by left) ltac:(by left) Hlt H1 H2)).
Defined.

Lemma nullish_rejection_is_not_retried_witness :
  running (called_alone void_table 2 "void")
    (called_alone_pipeline void_table 2 "void" (Rejects 2 (Nullish null)))
  /\ clock (called_alone void_table 2 "void") < 1 + 2
  /\ 2 <= timer (p_timeoutMs
                   (called_alone_pipeline void_table 2 "void" (Rejects 2 (Nullish null))))
  /\ (1 + 2, Logged (error_individual "Cannot read properties of null (reading 'message')"))
       ∈ trace (advance (1 + 2 - clock (called_alone void_table 2 "void"))
                  (called_alone void_table 2 "void"))
  /\ (1 + 2, TaskEnded (group_of (payload_of "void") "") Swallowed)
       ∈ trace (advance (1 + 2 - clock (called_alone void_table 2 "void"))
                  (called_alone void_table 2 "void"))
  /\ (1 + 2, Logged error_failed_after_retries)
       ∈ trace (advance (1 + 2 - clock (called_alone void_table 2 "void"))
                  (called_alone void_table 2 "void")).
Proof.
  assert (running (called_alone void_table 2 "void")
            (called_alone_pipeline void_table 2 "void" (Rejects 2 (Nullish null)))) as Hr
    by (apply called_alone_running; by vm_compute).
  assert (clock (called_alone void_table 2 "void") < 1 + 2) as Hlt by reflexivity.
  assert (2 <= timer (p_timeoutMs
                        (called_alone_pipeline void_table 2 "void" (Rejects 2 (Nullish null)))))
    as Hd by (vm_compute; discriminate).
  split; [exact Hr|]. split; [exact Hlt|]. split; [exact Hd|].
  exact (nullish_rejection_is_not_retried _ _
           (called_alone_batch "void" (Rejects 2 (Nullish null)))
           (group_of (payload_of "void") "") 1 2 null Hr
           ltac:(by left) ltac:(by left) Hlt Hd).
Defined.

Lemma onDestroy_flushes_earlier_subscription_witness :
  closed (messageSubject mounted_twice) = false
  /\ isStopped (messageSubject mounted_twice) = false
  /\ earlier_pipeline ∈ pipelines mounted_twice
  /\ subscription mounted_twice <> Some (sid earlier_pipeline)
  /\ source_done earlier_pipeline = false
  /\ window earlier_pipeline = [group_of (payload_of "a") ""]
  /\ 1 <= p_maxConcurrency earlier_pipeline
  /\ (clock mounted_twice, Emitted [group_of (payload_of "a") ""])
       ∈ trace (snd (onDestroy mounted_twice))
  /\ (clock mounted_twice,
      Called (group_of (payload_of "a") "")
        (p_onMessageReceive earlier_pipeline (payload (group_of (payload_of "a") ""))
           (settings (group_of (payload_of "a") ""))))
       ∈ trace (snd (onDestroy mounted_twice)).
Proof.
  assert (earlier_pipeline ∈ pipelines mounted_twice) as Hp by (by left).
  assert (subscription mounted_twice <> Some (sid earlier_pipeline)) as Hs by discriminate.
  assert (1 <= p_maxConcurrency earlier_pipeline) as Hc by (vm_compute; discriminate).
  split; [reflexivity|]. split; [reflexivity|]. split; [exact Hp|]. split; [exact Hs|].
  split; [reflexivity|]. split; [reflexivity|]. split; [exact Hc|].
  exact (onDestroy_flushes_earlier_subscription mounted_twice earlier_pipeline
           (group_of (payload_of "a") "") [] eq_refl eq_refl Hp Hs eq_refl eq_refl Hc).
Defined.

Lemma promise_failures_never_stop_the_stream_witness :
  asynchronous (onMessageReceive default_props)
  /\ ingest_only [Submit (payload_of "bad") ""; Submit (payload_of "hang") ""; Wait 5000] = true
  /\ stream_failed
       (trace (run [Submit (payload_of "bad") ""; Submit (payload_of "hang") ""; Wait 5000]
                 (snd (mount default_props (create 0))))) = false
  /\ exists p,
       running (run [Submit (payload_of "bad") ""; Submit (payload_of "hang") ""; Wait 5000]
                  (snd (mount default_props (create 0)))) p.
Proof.
  split; [apply table_handler_asynchronous|]. split; [reflexivity|].
  exact (promise_failures_never_stop_the_stream default_props 0
           [Submit (payload_of "bad") ""; Submit (payload_of "hang") ""; Wait 5000]
           (table_handler_asynchronous sample_table) eq_refl).
Defined.

Lemma no_slot_no_call_witness :
  options no_slot_props !! "maxConcurrency" = Some 0
  /\ mount_free [Submit (payload_of "a") ""; Wait 5000; Submit (payload_of "b") ""; Wait 5000]
     = true
  /\ calls (trace (run [Submit (payload_of "a") ""; Wait 5000; Submit (payload_of "b") "";
                        Wait 5000]
                     (snd (mount no_slot_props (create 0))))) = [].
Proof.
  split; [reflexivity|]. split; [reflexivity|].
  exact (no_slot_no_call no_slot_props 0
           [Submit (payload_of "a") ""; Wait 5000; Submit (payload_of "b") ""; Wait 5000]
           eq_refl eq_refl).
Defined.

Lemma batch_within_slots_starts_at_once_witness :
  running two_submitted two_pipeline
  /\ clock two_submitted < flush_at two_pipeline
  /\ N.of_nat (length (window two_pipeline)) <= p_maxConcurrency two_pipeline
  /\ group_of (payload_of "b") "" ∈ window two_pipeline
  /\ (flush_at two_pipeline,
      Called (group_of (payload_of "b") "")
        (p_onMessageReceive two_pipeline (payload (group_of (payload_of "b") ""))
           (settings (group_of (payload_of "b") ""))))
       ∈ trace (advance (flush_at two_pipeline - clock two_submitted) two_submitted).
Proof.
  assert (clock two_submitted < flush_at two_pipeline) as Hlt by reflexivity.
  assert (N.of_nat (length (window two_pipeline)) <= p_maxConcurrency two_pipeline) as Hc
    by (vm_compute; discriminate).
  assert (group_of (payload_of "b") "" ∈ window two_pipeline) as Hg by (right; by left).
  split; [exact two_running|]. split; [exact Hlt|]. split; [exact Hc|]. split; [exact Hg|].
  exact (batch_within_slots_starts_at_once two_submitted two_pipeline
           (group_of (payload_of "b") "") two_running Hlt Hc Hg).
Defined.

Lemma onDestroy_abandons_groups_in_flight_witness :
  owned hanging = true
  /\ closed (messageSubject hanging) = false
  /\ exists extra,
       trace (run [Wait 5000; Submit (payload_of "a") ""; Wait 5000] (snd (onDestroy hanging)))
       = trace hanging ++ extra
       /\ Forall (fun te => is_log (snd te) = true) extra.
Proof.
  assert (owned hanging = true) as Ho by (by vm_compute).
  split; [exact Ho|]. split; [reflexivity|].
  exact (onDestroy_abandons_groups_in_flight hanging
           [Wait 5000; Submit (payload_of "a") ""; Wait 5000] Ho eq_refl).
Defined.

Lemma silent_handler_holds_slot_to_the_deadline_witness :
  running (called_alone sample_table 0 "hang")
    (called_alone_pipeline sample_table 0 "hang" Pending)
  /\ timer (p_timeoutMs (called_alone_pipeline sample_table 0 "hang" Pending)) = 1
  /\ 1 <= clock (called_alone sample_table 0 "hang")
  /\ clock (called_alone sample_table 0 "hang")
     < 1 + timer (p_timeoutMs (called_alone_pipeline sample_table 0 "hang" Pending))
  /\ (1 + 3 * (timer (p_timeoutMs (called_alone_pipeline sample_table 0 "hang" Pending)) + 1000),
      TaskEnded (group_of (payload_of "hang") "") Exhausted)
       ∈ trace (advance
                  (1 + 3 * (timer (p_timeoutMs
                                     (called_alone_pipeline sample_table 0 "hang" Pending))
                            + 1000)
                   - clock (called_alone sample_table 0 "hang"))
                  (called_alone sample_table 0 "hang")).
Proof.
  assert (running (called_alone sample_table 0 "hang")
            (called_alone_pipeline sample_table 0 "hang" Pending)) as Hr
    by (apply called_alone_running; by vm_compute).
  assert (1 <= clock (called_alone sample_table 0 "hang")) as Hs by (vm_compute; discriminate).
  assert (clock (called_alone sample_table 0 "hang")
          < 1 + timer (p_timeoutMs (called_alone_pipeline sample_table 0 "hang" Pending)))
    as Hlt by (by vm_compute).
  split; [exact Hr|]. split; [reflexivity|]. split; [exact Hs|]. split; [exact Hlt|].
  exact (proj1 (proj2 (proj2 (proj2
           (silent_handler_holds_slot_to_the_deadline _ _
              (called_alone_batch "hang" Pending)
              (group_of (payload_of "hang") "") 1 Hr ltac:(by left) ltac:(by left) Hs Hlt))))).
Defined.

Lemma every_group_is_in_one_place_witness :
  running mounted mounted_pipeline
  /\ ingest_only [Submit (payload_of "a") ""; Wait 1500; Submit (payload_of "b") ""] = true
  /\ exists p',
       running (run [Submit (payload_of "a") ""; Wait 1500; Submit (payload_of "b") ""] mounted) p'
       /\ handled (trace (run [Submit (payload_of "a") ""; Wait 1500;
                               Submit (payload_of "b") ""] mounted))
          ++ queued p' ++ window p'
          ≡ₚ handled (trace mounted) ++ queued mounted_pipeline ++ window mounted_pipeline
             ++ submitted [Submit (payload_of "a") ""; Wait 1500; Submit (payload_of "b") ""].
Proof.
  split; [exact mounted_running|]. split; [reflexivity|].
  exact (every_group_is_in_one_place mounted mounted_pipeline
           [Submit (payload_of "a") ""; Wait 1500; Submit (payload_of "b") ""]
           mounted_running eq_refl).
Defined.

Lemma handler_called_at_most_once_per_group_witness :
  mount_free [Submit (payload_of "bad") ""; Wait 6000] = true
  /\ (length (calls (trace (run [Submit (payload_of "bad") ""; Wait 6000]
                              (snd (mount default_props (create 0))))))
      <= length (submitted [Submit (payload_of "bad") ""; Wait 6000]))%nat.
Proof.
  split; [reflexivity|].
  exact (handler_called_at_most_once_per_group default_props 0
           [Submit (payload_of "bad") ""; Wait 6000] eq_refl).
Defined.

Lemma pipeline_tick_failure_logged_witness :
  source_done throwing_pipeline = false
  /\ snd (pipeline_tick 1000 throwing_pipeline) = None
  /\ existsb failure_log (fst (pipeline_tick 1000 throwing_pipeline)) = true.
Proof.
  assert (snd (pipeline_tick 1000 throwing_pipeline) = None) as Hn by (by vm_compute).
  split; [reflexivity|]. split; [exact Hn|].
  exact (pipeline_tick_failure_logged 1000 throwing_pipeline eq_refl Hn).
Defined.

Lemma every_group_reaches_the_handler_witness :
  running pair_submitted pair_pipeline
  /\ clock pair_submitted < flush_at pair_pipeline
  /\ 1 <= p_maxConcurrency pair_pipeline
  /\ window pair_pipeline !! 1%nat = Some (group_of (payload_of "ok") "")
  /\ exists s e o,
       flush_at pair_pipeline <= s
       /\ s <= flush_at pair_pipeline
               + N.of_nat 1 * longest_flight (p_timeoutMs pair_pipeline)
       /\ s <= e
       /\ e <= s + longest_flight (p_timeoutMs pair_pipeline)
       /\ longest_flight (p_timeoutMs pair_pipeline)
          = 3 * (timer (p_timeoutMs pair_pipeline) + 1000)
       /\ forall dt,
            e <= clock pair_submitted + dt ->
            (s, Called (group_of (payload_of "ok") "")
                  (p_onMessageReceive pair_pipeline (payload (group_of (payload_of "ok") ""))
                     (settings (group_of (payload_of "ok") ""))))
              ∈ trace (advance dt pair_submitted)
            /\ (e, TaskEnded (group_of (payload_of "ok") "") o)
                 ∈ trace (advance dt pair_submitted).
Proof.
  assert (clock pair_submitted < flush_at pair_pipeline) as Hlt by reflexivity.
  assert (1 <= p_maxConcurrency pair_pipeline) as Hc by (vm_compute; discriminate).
  split; [exact pair_running|]. split; [exact Hlt|]. split; [exact Hc|]. split; [reflexivity|].
  exact (every_group_reaches_the_handler pair_submitted pair_pipeline 1
           (group_of (payload_of "ok") "") pair_running Hlt Hc eq_refl).
Defined.

Lemma mounted_processor_keeps_time_witness :
  asynchronous (onMessageReceive (eager_props sample_table 0))
  /\ ingest_only [Submit (payload_of "hang") ""; Wait 1500; Submit (payload_of "b") ""] = true
  /\ exists p,
       running (run [Submit (payload_of "hang") ""; Wait 1500; Submit (payload_of "b") ""]
                  (snd (mount (eager_props sample_table 0) (create 0)))) p
       /\ p_onMessageReceive p = onMessageReceive (eager_props sample_table 0)
       /\ p_maxConcurrency p
          = default 5 (options (eager_props sample_table 0) !! "maxConcurrency")
       /\ p_timeoutMs p = default 30000 (options (eager_props sample_table 0) !! "timeoutMs")
       /\ p_batchTimeoutMs p
          = default 1000 (options (eager_props sample_table 0) !! "batchTimeoutMs")
       /\ on_time (run [Submit (payload_of "hang") ""; Wait 1500; Submit (payload_of "b") ""]
                     (snd (mount (eager_props sample_table 0) (create 0)))) p
       /\ longest_flight (p_timeoutMs p) = 3 * (timer (p_timeoutMs p) + 1000).
Proof.
  split; [apply table_handler_asynchronous|]. split; [reflexivity|].
  exact (mounted_processor_keeps_time (eager_props sample_table 0) 0
           [Submit (payload_of "hang") ""; Wait 1500; Submit (payload_of "b") ""]
           (table_handler_asynchronous sample_table) eq_refl).
Defined.

Lemma every_batch_is_announced_witness :
  (1000, Emitted [group_of (payload_of "a") ""; group_of (payload_of "b") ""])
    ∈ trace (run [Mount default_props; Submit (payload_of "a") ""; Submit (payload_of "b") "";
                  Wait 1000] (create 0))
  /\ (1000, Logged (log_processing_batch 2))
       ∈ trace (run [Mount default_props; Submit (payload_of "a") ""; Submit (payload_of "b") "";
                     Wait 1000] (create 0)).
Proof.
  assert ((1000, Emitted [group_of (payload_of "a") ""; group_of (payload_of "b") ""])
            ∈ trace (run [Mount default_props; Submit (payload_of "a") "";
                          Submit (payload_of "b") ""; Wait 1000] (create 0))) as He
    by (vm_compute; left).
  split; [exact He|].
  exact (every_batch_is_announced
           [Mount default_props; Submit (payload_of "a") ""; Submit (payload_of "b") ""; Wait 1000]
           0 1000 [group_of (payload_of "a") ""; group_of (payload_of "b") ""] He).
Defined.

Lemma every_submitted_group_is_handled_witness :
  asynchronous (onMessageReceive single_slot_props)
  /\ 1 <= default 5 (options single_slot_props !! "maxConcurrency")
  /\ ingest_only [Submit (payload_of "hang") ""; Wait 10; Submit (payload_of "bad") ""] = true
  /\ group_of (payload_of "bad") ""
       ∈ submitted [Submit (payload_of "hang") ""; Wait 10; Submit (payload_of "bad") ""]
  /\ timer (default 1000 (options single_slot_props !! "batchTimeoutMs"))
     + (N.of_nat (length (submitted [Submit (payload_of "hang") ""; Wait 10;
                                     Submit (payload_of "bad") ""])) + 1)
       * (3 * (timer (default 30000 (options single_slot_props !! "timeoutMs")) + 1000))
     <= 300000
  /\ exists s e o,
       s <= e
       /\ (s, Called (group_of (payload_of "bad") "")
                (onMessageReceive single_slot_props (payload (group_of (payload_of "bad") ""))
                   (settings (group_of (payload_of "bad") ""))))
            ∈ trace (advance 300000
                       (run [Submit (payload_of "hang") ""; Wait 10; Submit (payload_of "bad") ""]
                          (snd (mount single_slot_props (create 0)))))
       /\ (e, TaskEnded (group_of (payload_of "bad") "") o)
            ∈ trace (advance 300000
                       (run [Submit (payload_of "hang") ""; Wait 10; Submit (payload_of "bad") ""]
                          (snd (mount single_slot_props (create 0))))).
Proof.
  assert (1 <= default 5 (options single_slot_props !! "maxConcurrency")) as H1
    by (vm_compute; discriminate).
  assert (group_of (payload_of "bad") ""
            ∈ submitted [Submit (payload_of "hang") ""; Wait 10; Submit (payload_of "bad") ""])
    as H3 by (right; left).
  assert (timer (default 1000 (options single_slot_props !! "batchTimeoutMs"))
          + (N.of_nat (length (submitted [Submit (payload_of "hang") ""; Wait 10;
                                          Submit (payload_of "bad") ""])) + 1)
            * (3 * (timer (default 30000 (options single_slot_props !! "timeoutMs")) + 1000))
          <= 300000) as H4 by (vm_compute; discriminate).
  split; [apply table_handler_asynchronous|]. split; [exact H1|].
  split; [reflexivity|]. split; [exact H3|]. split; [exact H4|].
  exact (every_submitted_group_is_handled single_slot_props 0
           [Submit (payload_of "hang") ""; Wait 10; Submit (payload_of "bad") ""]
           (group_of (payload_of "bad") "") 300000
           (table_handler_asynchronous sample_table) H1 eq_refl H3 H4).
Defined.

(** * The options of [mount] *)

(** ** A handler that never answers *)

Section Silent.
Variable h : Handler.
Variables c T : N.

Lemma start_waiting_silent now buf :
  forall act,
    (forall g, g ∈ buf -> h (payload g) (settings g) = Returns Pending) ->
    start_waiting h c T now act buf
    = {| events := map (fun g => Called g (Returns Pending))
                     (take (N.to_nat c - length act) buf);
         next := {| active := act ++ map (fun g => fresh_task g now Pending)
                                       (take (N.to_nat c - length act) buf);
                    waiting := drop (N.to_nat c - length act) buf |};
         failed := None |}.
Proof.
  induction buf as [|g buf IH]; intros act Hh.
  - cbn [start_waiting]. by rewrite take_nil, drop_nil, app_nil_r.
  - cbn [start_waiting]. destruct (N.ltb_spec (N.of_nat (length act)) c) as [Hlt|Hge].
    + rewrite (Hh g) by (by left). cbv zeta.
      change {| t_group := g; t_called := now; t_promise := Pending; t_errors := 0;
                t_phase := Listening now |} with (fresh_task g now Pending).
      rewrite (pending_listens T (fresh_task g now Pending) now now eq_refl eq_refl)
        by (pose proof (timer_pos T); lia).
      cbn [fst snd option_list events next failed].
      rewrite IH by (intros g' Hg'; apply Hh; by right).
      rewrite length_app. cbn [length].
      assert (N.to_nat c - length act = S (N.to_nat c - (length act + 1)))%nat as -> by lia.
      cbn [take drop map app events next failed]. by rewrite <- app_assoc.
    + assert (N.to_nat c - length act = 0)%nat as -> by lia.
      cbn [take drop map]. by rewrite app_nil_r.
Qed.

Lemma start_waiting_stuck now act buf :
  buf = [] \/ c <= N.of_nat (length act) ->
  start_waiting h c T now act buf
  = {| events := []; next := {| active := act; waiting := buf |}; failed := None |}.
Proof.
  intros [->|Hc]; [done|]. destruct buf as [|g buf]; [done|]. cbn [start_waiting].
  destruct (N.ltb_spec (N.of_nat (length act)) c); [lia|done].
Qed.

Lemma fire_all_silent now since act :
  Forall (fun t => t_promise t = Pending /\ t_phase t = Listening since) act ->
  now < since + timer T ->
  fire_all T now act = ([], act).
Proof.
  intros Ha Hlt. induction Ha as [|t act [Hp Hph] _ IH]; [done|].
  cbn [fire_all]. by rewrite (pending_listens T t since now Hp Hph Hlt), IH.
Qed.

Lemma fire_all_timeout since act :
  Forall (fun t => t_promise t = Pending /\ t_phase t = Listening since) act ->
  fst (fire_all T (since + timer T) act)
  = map (fun _ => Logged (warn_retrying timeout_message)) act
  /\ length (snd (fire_all T (since + timer T) act)) = length act.
Proof.
  intros Ha. induction Ha as [|t act [Hp Hph] _ [IH1 IH2]]; [done|].
  cbn [fire_all]. rewrite (pending_times_out T t since Hp Hph).
  cbn [fst snd option_list app map length]. split; [by rewrite IH1|].
  rewrite length_app. cbn. by rewrite IH2.
Qed.

Lemma silent_batch_listening at_ gs :
  Forall (fun t => t_promise t = Pending /\ t_phase t = Listening at_)
    (active (silent_batch c at_ gs)).
Proof. cbn [silent_batch active]. apply Forall_forall. by intros t (g & -> & _)%list_elem_of_fmap. Qed.

Lemma silent_batch_stuck at_ gs :
  waiting (silent_batch c at_ gs) = []
  \/ c <= N.of_nat (length (active (silent_batch c at_ gs))).
Proof.
  cbn [silent_batch active waiting]. rewrite length_map, length_take.
  destruct (Nat.le_gt_cases (length gs) (N.to_nat c)) as [Hle|Hgt].
  - left. by apply drop_ge.
  - right. lia.
Qed.

Lemma silent_batch_not_done at_ gs : gs <> [] -> keep_batch (silent_batch c at_ gs) = [silent_batch c at_ gs].
Proof.
  intros Hgs. unfold keep_batch, batch_done. cbn [silent_batch active waiting].
  destruct (take (N.to_nat c) gs) eqn:Ht; [|done].
  destruct (drop (N.to_nat c) gs) eqn:Hd; [|done].
  destruct Hgs. by rewrite <- (take_drop (N.to_nat c) gs), Ht, Hd.
Qed.

Lemma emit_batch_silent now gs :
  gs <> [] ->
  (forall g, g ∈ gs -> h (payload g) (settings g) = Returns Pending) ->
  emit_batch h c T now gs
  = {| events := Emitted gs :: Logged (log_processing_batch (length gs))
                 :: map (fun g => Called g (Returns Pending)) (take (N.to_nat c) gs);
       next := [silent_batch c now gs];
       failed := None |}.
Proof.
  intros Hgs Hh. unfold emit_batch. destruct gs as [|g gs]; [done|]. cbv zeta.
  rewrite (start_waiting_silent now (g :: gs) [] Hh). cbn [length events next failed app].
  rewrite Nat.sub_0_r.
  change {| active := _; waiting := _ |} with (silent_batch c now (g :: gs)).
  by rewrite silent_batch_not_done.
Qed.

Lemma batches_tick_idle now at_ gs :
  gs <> [] ->
  now < at_ + timer T ->
  batches_tick h c T now [silent_batch c at_ gs]
  = {| events := []; next := [silent_batch c at_ gs]; failed := None |}.
Proof.
  intros Hgs Hlt. cbn [batches_tick]. unfold batch_tick.
  rewrite (fire_all_silent now at_ _ (silent_batch_listening at_ gs) Hlt). cbn [fst snd].
  rewrite (start_waiting_stuck now _ _ (silent_batch_stuck at_ gs)).
  cbn [events next failed app].
  change {| active := _; waiting := _ |} with (silent_batch c at_ gs).
  by rewrite silent_batch_not_done, app_nil_r.
Qed.

Lemma batches_tick_timeout at_ gs :
  events (batches_tick h c T (at_ + timer T) [silent_batch c at_ gs])
  = map (fun _ => Logged (warn_retrying timeout_message)) (take (N.to_nat c) gs)
  /\ failed (batches_tick h c T (at_ + timer T) [silent_batch c at_ gs]) = None.
Proof.
  cbn [batches_tick]. unfold batch_tick.
  destruct (fire_all_timeout at_ _ (silent_batch_listening at_ gs)) as [He Hl].
  rewrite start_waiting_stuck.
  - cbn [events next failed]. rewrite !app_nil_r, He. cbn [silent_batch active].
    by rewrite map_map.
  - rewrite Hl. apply silent_batch_stuck.
Qed.

End Silent.

(** ** The first batch of a processor just mounted *)

(** Before the first flush nothing is in flight, and an instant writes
    nothing. *)
Lemma quiet_tick st p :
  running st p -> batches p = [] -> N.succ (clock st) < flush_at p ->
  running (tick st) p /\ trace (tick st) = trace st.
Proof.
  intros Hr Hb Hlt. pose proof Hr as (Hp & Hd & Ha & Hc & Hs).
  destruct (tick_single st p Hp) as [Hp' Ht].
  rewrite (pipeline_tick_running_eq _ _ Hd Ha) in Hp', Ht. rewrite Hb in Hp', Ht.
  destruct (N.leb_spec (flush_at p) (N.succ (clock st))); [lia|].
  cbn [fst snd option_list batches_tick events next app stamp map] in Hp', Ht.
  rewrite <- Hb, with_batches_eta in Hp' by done. rewrite app_nil_r in Ht.
  split; [|done]. unfold running. by rewrite Hp'.
Qed.

Lemma quiet_advance dt :
  forall st p,
    running st p -> batches p = [] -> clock st + dt < flush_at p ->
    running (advance dt st) p /\ trace (advance dt st) = trace st.
Proof.
  induction dt as [|dt IH] using N.peano_ind; intros st p Hr Hb Hlt; [done|].
  rewrite advance_succ. destruct (IH st p Hr Hb) as [Hr' Ht']; [lia|].
  destruct (quiet_tick _ p Hr' Hb) as [Hr'' Ht'']; [rewrite clock_advance; lia|].
  split; [done|]. by rewrite Ht'', Ht'.
Qed.

Lemma quiet_run script :
  forall st p,
    running st p -> batches p = [] -> ingest_only script = true ->
    clock st + span script < flush_at p ->
    running (run script st)
      (with_batches p (window p ++ submitted script) (flush_at p) false [])
    /\ trace (run script st) = trace st
    /\ clock (run script st) = clock st + span script.
Proof.
  induction script as [|a script IH]; intros st p Hr Hb Hi Hlt.
  - cbn [run fold_left submitted span]. rewrite app_nil_r, N.add_0_r, <- Hb.
    split; [by apply running_eta|done].
  - rewrite run_cons. destruct a as [props|pl s| |dt]; try done.
    + destruct (submit_running st p pl s Hr) as (Hr' & Ht & Hc). rewrite Hb in Hr'.
      destruct (IH _ _ Hr' eq_refl Hi) as (Hr'' & Ht'' & Hc'').
      { rewrite Hc. cbn in *. lia. }
      cbn [with_batches window flush_at] in Hr''. cbn [submitted span].
      rewrite <- app_assoc in Hr''. split; [exact Hr''|]. by rewrite Ht'', Hc'', Ht, Hc.
    + cbn [span] in Hlt. cbn [perform].
      destruct (quiet_advance dt st p Hr Hb) as [Hr' Ht]; [lia|].
      destruct (IH _ _ Hr' Hb Hi) as (Hr'' & Ht'' & Hc'').
      { rewrite clock_advance. lia. }
      cbn [submitted span]. split; [exact Hr''|].
      rewrite Ht'', Hc'', Ht, clock_advance. split; [done|lia].
Qed.

(** The first flush: the buffer leaves as one batch and the handler is
    called for the first [maxConcurrency] groups. *)
Lemma first_flush_tick st p :
  running st p -> batches p = [] -> N.succ (clock st) = flush_at p ->
  window p <> [] ->
  (forall g, g ∈ window p -> p_onMessageReceive p (payload g) (settings g) = Returns Pending) ->
  running (tick st)
    (with_batches p [] (flush_at p + timer (p_batchTimeoutMs p)) false
       [silent_batch (p_maxConcurrency p) (flush_at p) (window p)])
  /\ trace (tick st) = trace st ++ first_batch (p_maxConcurrency p) (flush_at p) (window p).
Proof.
  intros Hr Hb Hnow Hw Hh. pose proof Hr as (Hp & Hd & Ha & Hc & Hs).
  destruct (tick_single st p Hp) as [Hp' Ht].
  rewrite (pipeline_tick_running_eq _ _ Hd Ha) in Hp', Ht. rewrite Hb, Hnow in Hp', Ht.
  rewrite N.leb_refl in Hp', Ht.
  rewrite (emit_batch_silent _ _ _ _ _ Hw Hh) in Hp', Ht.
  cbn [fst snd option_list batches_tick events next app] in Hp', Ht.
  split; [|exact Ht]. unfold running. by rewrite Hp'.
Qed.

(** While the calls are pending and their timers have not fired, an instant
    writes nothing, a flush of the empty buffer included. *)
Lemma idle_tick st p at_ gs f :
  running st (with_batches p [] f false [silent_batch (p_maxConcurrency p) at_ gs]) ->
  gs <> [] ->
  N.succ (clock st) < at_ + timer (p_timeoutMs p) ->
  exists f',
    running (tick st)
      (with_batches p [] f' false [silent_batch (p_maxConcurrency p) at_ gs])
    /\ trace (tick st) = trace st.
Proof.
  intros Hr Hgs Hlt. pose proof Hr as (Hp & Hd & Ha & Hc & Hs).
  destruct (tick_single st _ Hp) as [Hp' Ht].
  rewrite (pipeline_tick_running_eq _ _ Hd Ha) in Hp', Ht.
  cbn [with_batches p_onMessageReceive p_maxConcurrency p_timeoutMs p_batchTimeoutMs
       batches window flush_at] in Hp', Ht.
  rewrite (batches_tick_idle _ _ _ _ _ _ Hgs Hlt) in Hp', Ht.
  cbn [events next] in Hp', Ht.
  destruct (f <=? N.succ (clock st));
    cbn [fst snd option_list emit_batch events next app stamp map] in Hp', Ht;
    rewrite ?app_nil_r in Ht; (eexists; split; [|exact Ht]);
    unfold running; rewrite Hp'; by repeat split.
Qed.

Lemma idle_advance dt :
  forall st p at_ gs f,
    running st (with_batches p [] f false [silent_batch (p_maxConcurrency p) at_ gs]) ->
    gs <> [] ->
    clock st + dt < at_ + timer (p_timeoutMs p) ->
    exists f',
      running (advance dt st)
        (with_batches p [] f' false [silent_batch (p_maxConcurrency p) at_ gs])
      /\ trace (advance dt st) = trace st.
Proof.
  induction dt as [|dt IH] using N.peano_ind; intros st p at_ gs f Hr Hgs Hlt; [by exists f|].
  rewrite advance_succ. destruct (IH st p at_ gs f Hr Hgs) as (f1 & Hr1 & Ht1); [lia|].
  destruct (idle_tick _ p at_ gs f1 Hr1 Hgs) as (f2 & Hr2 & Ht2); [rewrite clock_advance; lia|].
  exists f2. split; [done|]. by rewrite Ht2, Ht1.
Qed.

(** The instant at which the timers of the calls fire. *)
Lemma first_timeout_tick st p at_ gs f :
  running st (with_batches p [] f false [silent_batch (p_maxConcurrency p) at_ gs]) ->
  N.succ (clock st) = at_ + timer (p_timeoutMs p) ->
  trace (tick st)
  = trace st ++ first_timeouts (p_maxConcurrency p) (at_ + timer (p_timeoutMs p)) gs.
Proof.
  intros Hr Hnow. pose proof Hr as (Hp & Hd & Ha & Hc & Hs).
  destruct (tick_single st _ Hp) as [_ Ht].
  rewrite (pipeline_tick_running_eq _ _ Hd Ha) in Ht.
  cbn [with_batches p_onMessageReceive p_maxConcurrency p_timeoutMs p_batchTimeoutMs
       batches window flush_at] in Ht.
  rewrite Hnow in Ht.
  destruct (batches_tick_timeout (p_onMessageReceive p) (p_maxConcurrency p) (p_timeoutMs p)
              at_ gs) as [He _].
  rewrite He in Ht.
  destruct (f <=? at_ + timer (p_timeoutMs p));
    cbn [fst emit_batch events] in Ht; by rewrite app_nil_r in Ht.
Qed.

(** C7, as the code has it.  [mount] reads three options off the object it
    is given, [maxConcurrency], [timeoutMs] and [batchTimeoutMs], with
    defaults 5, 30000 and 1000; any other property, [maxRetryAttempts] and
    [retryDelayMs] included, is not read and changes nothing.  Each of the
    three takes effect, the two delays through their timers.  Take a
    processor just mounted, groups submitted before the first flush, and a
    handler that returns a promise that never settles for them.  Nothing is
    written before the timer of [batchTimeoutMs] fires.  At that instant the
    groups leave as one batch and the handler is called for the first
    [maxConcurrency] of them, and for no other; nothing else is written
    until the timer of [timeoutMs] fires, and at that instant the timeout
    warning is written for each of the groups called.  The retries are not
    configurable: for each of those groups the warning comes again after
    each of two delays of 1000 ms and timers of [timeoutMs], and 1000 ms
    after the third warning the group ends with [Exhausted]. *)
Theorem mount_reads_three_options (props : MountProps) (now : N) (script : list Action)
    (k : string) (v : N) (C T W : N) :
  C = default 5 (options props !! "maxConcurrency") ->
  T = default 30000 (options props !! "timeoutMs") ->
  W = default 1000 (options props !! "batchTimeoutMs") ->
  k <> "maxConcurrency" -> k <> "timeoutMs" -> k <> "batchTimeoutMs" ->
  asynchronous (onMessageReceive props) ->
  (forall g, g ∈ submitted script ->
             onMessageReceive props (payload g) (settings g) = Returns Pending) ->
  ingest_only script = true ->
  span script < timer W ->
  submitted script <> [] ->
  (forall st,
     mount {| onMessageReceive := onMessageReceive props;
              options := <[k := v]> (options props) |} st
     = mount props st)
  /\ config_of (snd (mount props (create now))) = [(C, T, W, now + timer W)]
  /\ (forall dt,
        span script + dt < timer W ->
        trace (advance dt (run script (snd (mount props (create now))))) = [])
  /\ (forall dt,
        timer W <= span script + dt ->
        span script + dt < timer W + timer T ->
        trace (advance dt (run script (snd (mount props (create now)))))
        = first_batch C (now + timer W) (submitted script))
  /\ trace (advance (timer W + timer T - span script)
              (run script (snd (mount props (create now)))))
     = first_batch C (now + timer W) (submitted script)
       ++ first_timeouts C (now + timer W + timer T) (submitted script)
  /\ (forall g,
        g ∈ take (N.to_nat C) (submitted script) ->
        (now + timer W + 2 * timer T + 1000, Logged (warn_retrying timeout_message))
          ∈ trace (advance (timer W + 3 * (timer T + 1000) - span script)
                     (run script (snd (mount props (create now)))))
        /\ (now + timer W + 3 * timer T + 2000, Logged (warn_retrying timeout_message))
             ∈ trace (advance (timer W + 3 * (timer T + 1000) - span script)
                        (run script (snd (mount props (create now)))))
        /\ (now + timer W + 3 * (timer T + 1000), TaskEnded g Exhausted)
             ∈ trace (advance (timer W + 3 * (timer T + 1000) - span script)
                        (run script (snd (mount props (create now)))))
        /\ (now + timer W + 3 * (timer T + 1000), Logged error_failed_after_retries)
             ∈ trace (advance (timer W + 3 * (timer T + 1000) - span script)
                        (run script (snd (mount props (create now)))))).
Proof.
  intros HC HT HW Hk1 Hk2 Hk3 Ha Hh Hi Hsp Hgs.
  pose proof (timer_pos T) as HT1. pose proof (timer_pos W) as HW1.
  assert (config_of (snd (mount props (create now))) = [(C, T, W, now + timer W)]) as Hcfg
    by (rewrite HC, HT, HW; reflexivity).
  set (st0 := snd (mount props (create now))).
  set (p0 := {| sid := 0; p_onMessageReceive := onMessageReceive props;
                p_maxConcurrency := C; p_timeoutMs := T; p_batchTimeoutMs := W;
                window := []; flush_at := now + timer W; source_done := false;
                batches := [] |}).
  assert (running st0 p0) as Hr0.
  { unfold st0, p0. rewrite HC, HT, HW.
    split; [reflexivity|]. split; [reflexivity|]. split; [exact Ha|]. split; reflexivity. }
  destruct (quiet_run script st0 p0 Hr0 eq_refl Hi) as (Hr1 & Ht1 & Hc1); [cbn; lia|].
  cbn [window flush_at p0 app] in Hr1.
  change (trace st0) with (@nil (N * Event)) in Ht1. change (clock st0) with now in Hc1.
  set (st1 := run script st0) in *. set (gs := submitted script) in *.
  set (F := now + timer W) in *.
  split.
  { intros st. unfold mount. cbn [options onMessageReceive].
    by rewrite !lookup_insert_ne by done. }
  split; [exact Hcfg|].
  split.
  { intros dt Hdt. destruct (quiet_advance dt st1 _ Hr1 eq_refl) as [_ ->]; [|exact Ht1].
    cbn [flush_at with_batches]. lia. }
  (* the first flush *)
  set (d1 := timer W - span script).
  destruct (quiet_advance (d1 - 1) st1 _ Hr1 eq_refl) as [Hr2 Ht2];
    [cbn [flush_at with_batches]; lia|].
  destruct (first_flush_tick _ _ Hr2 eq_refl) as [Hr3 Ht3];
    [rewrite clock_advance; cbn [flush_at with_batches]; lia|exact Hgs|exact Hh|].
  rewrite <- advance_succ in Hr3, Ht3. replace (N.succ (d1 - 1)) with d1 in Hr3, Ht3 by lia.
  cbn [with_batches window flush_at p_maxConcurrency p_batchTimeoutMs p0] in Ht3.
  rewrite Ht2, Ht1 in Ht3. cbn [app] in Ht3.
  set (st2 := advance d1 st1) in *.
  assert (clock st2 = F) as Hc2 by (unfold st2; rewrite clock_advance; lia).
  pose proof (Hr3 : running st2
                      (with_batches p0 [] (F + timer W) false
                         [silent_batch (p_maxConcurrency p0) F gs])) as Hr3'.
  split.
  { intros dt H1 H2.
    assert (advance dt st1 = advance (dt - d1) st2) as ->.
    { unfold st2. rewrite <- advance_add. f_equal. lia. }
    destruct (idle_advance (dt - d1) st2 p0 F gs _ Hr3' Hgs) as (f' & _ & ->); [|exact Ht3].
    cbn [p_timeoutMs p0]. lia. }
  split.
  { assert (advance (timer W + timer T - span script) st1 = tick (advance (timer T - 1) st2))
      as ->.
    { rewrite <- advance_succ. unfold st2. rewrite <- advance_add. f_equal. lia. }
    destruct (idle_advance (timer T - 1) st2 p0 F gs _ Hr3' Hgs) as (f' & Hr4 & Ht4);
      [cbn [p_timeoutMs p0]; lia|].
    rewrite (first_timeout_tick _ p0 F gs f' Hr4) by (rewrite clock_advance; cbn; lia).
    by rewrite Ht4, Ht3. }
  intros g Hg.
  assert (advance (timer W + 3 * (timer T + 1000) - span script) st1
          = advance (F + 3 * (timer T + 1000) - clock st2) st2) as ->.
  { unfold st2. rewrite <- advance_add. f_equal. rewrite clock_advance. lia. }
  destruct (pending_three_rounds st2 _ (silent_batch (p_maxConcurrency p0) F gs) g F Hr3')
    as (_ & B2 & B3 & B4 & B5).
  - by left.
  - cbn [silent_batch active p_maxConcurrency p0]. apply list_elem_of_fmap. by exists g.
  - lia.
  - cbn [p_timeoutMs with_batches p0]. lia.
  - cbn [p_timeoutMs with_batches p0] in B2, B3, B4, B5. by repeat split.
Qed.

Lemma mount_reads_three_options_witness :
  2 = default 5 (options tuned_props !! "maxConcurrency")
  /\ 7 = default 30000 (options tuned_props !! "timeoutMs")
  /\ 3 = default 1000 (options tuned_props !! "batchTimeoutMs")
  /\ "maxRetryAttempts" <> "maxConcurrency"
  /\ "maxRetryAttempts" <> "timeoutMs"
  /\ "maxRetryAttempts" <> "batchTimeoutMs"
  /\ asynchronous (onMessageReceive tuned_props)
  /\ (forall g,
        g ∈ submitted [Submit (payload_of "hang") "a"; Wait 1; Submit (payload_of "hang") "b";
                       Submit (payload_of "hang") "c"] ->
        onMessageReceive tuned_props (payload g) (settings g) = Returns Pending)
  /\ ingest_only [Submit (payload_of "hang") "a"; Wait 1; Submit (payload_of "hang") "b";
                  Submit (payload_of "hang") "c"] = true
  /\ span [Submit (payload_of "hang") "a"; Wait 1; Submit (payload_of "hang") "b";
           Submit (payload_of "hang") "c"] < timer 3
  /\ submitted [Submit (payload_of "hang") "a"; Wait 1; Submit (payload_of "hang") "b";
                Submit (payload_of "hang") "c"] <> []
  /\ mount {| onMessageReceive := onMessageReceive tuned_props;
              options := <["maxRetryAttempts" := 1]> (options tuned_props) |} mounted
     = mount tuned_props mounted
  /\ trace (advance (timer 3 + timer 7 - 1)
              (run [Submit (payload_of "hang") "a"; Wait 1; Submit (payload_of "hang") "b";
                    Submit (payload_of "hang") "c"]
                 (snd (mount tuned_props (create 0)))))
     = first_batch 2 (0 + timer 3)
         [group_of (payload_of "hang") "a"; group_of (payload_of "hang") "b";
          group_of (payload_of "hang") "c"]
       ++ first_timeouts 2 (0 + timer 3 + timer 7)
            [group_of (payload_of "hang") "a"; group_of (payload_of "hang") "b";
             group_of (payload_of "hang") "c"]
  /\ (0 + timer 3 + 3 * (timer 7 + 1000), TaskEnded (group_of (payload_of "hang") "b") Exhausted)
       ∈ trace (advance (timer 3 + 3 * (timer 7 + 1000) - 1)
                  (run [Submit (payload_of "hang") "a"; Wait 1; Submit (payload_of "hang") "b";
                        Submit (payload_of "hang") "c"]
                     (snd (mount tuned_props (create 0))))).
Proof.
  assert ("maxRetryAttempts" <> "maxConcurrency") as H1 by discriminate.
  assert ("maxRetryAttempts" <> "timeoutMs") as H2 by discriminate.
  assert ("maxRetryAttempts" <> "batchTimeoutMs") as H3 by discriminate.
  assert (forall g,
            g ∈ submitted [Submit (payload_of "hang") "a"; Wait 1;
                           Submit (payload_of "hang") "b"; Submit (payload_of "hang") "c"] ->
            onMessageReceive tuned_props (payload g) (settings g) = Returns Pending) as Hh.
  { intros g Hg. cbn [submitted] in Hg.
    repeat (apply elem_of_cons in Hg as [->|Hg]; [reflexivity|]). by apply elem_of_nil in Hg. }
  assert (span [Submit (payload_of "hang") "a"; Wait 1; Submit (payload_of "hang") "b";
                Submit (payload_of "hang") "c"] < timer 3) as Hs by reflexivity.
  assert (submitted [Submit (payload_of "hang") "a"; Wait 1; Submit (payload_of "hang") "b";
                     Submit (payload_of "hang") "c"] <> []) as Hn by discriminate.
  destruct (mount_reads_three_options tuned_props 0
              [Submit (payload_of "hang") "a"; Wait 1; Submit (payload_of "hang") "b";
               Submit (payload_of "hang") "c"]
              "maxRetryAttempts" 1 2 7 3 eq_refl eq_refl eq_refl H1 H2 H3
              (table_handler_asynchronous sample_table) Hh eq_refl Hs Hn)
    as (A1 & _ & _ & _ & A5 & A6).
  split; [reflexivity|]. split; [reflexivity|]. split; [reflexivity|].
  split; [exact H1|]. split; [exact H2|]. split; [exact H3|].
  split; [apply table_handler_asynchronous|]. split; [exact Hh|]. split; [reflexivity|].
  split; [exact Hs|]. split; [exact Hn|]. split; [exact (A1 mounted)|]. split; [exact A5|].
  exact (proj1 (proj2 (proj2 (A6 (group_of (payload_of "hang") "b")
                                ltac:(right; left))))).
Defined.
